(** * The native messaging host of DownThemAll!  (src/native/native_host.py)

    A shallow embedding of the host's framed channel ([read_message],
    [send_message]), of the retrieval loop of one download
    ([threaded_download]) and of the dispatcher ([main]) with its
    registry [DOWNLOADS], followed by the properties of the specification
    that were checked against them. *)

From Stdlib Require Import ZArith NArith Lia Bool.
From Stdlib Require Import Strings.Byte Strings.Ascii Strings.String.
From stdpp Require Import base option list strings gmap.

Set Warnings "-register-all".

Local Open Scope string_scope.
Local Open Scope list_scope.

(** ** Python values

    The messages of the host are what [json.loads] returns and what
    [json.dumps] accepts: [None], booleans, integers, strings, lists and
    dictionaries with string keys.  A dictionary keeps its insertion
    order, so it is an association list whose keys are distinct. *)

Inductive value : Type :=
| PyNone
| PyBool (b : bool)
| PyInt (n : Z)
| PyStr (s : string)
| PyList (l : list value)
| PyDict (kv : list (string * value)).

(** The exceptions that the modelled code can raise. *)
Inductive exn : Type :=
| StructError        (* struct.error, from struct.unpack / struct.pack *)
| ValueError         (* json.JSONDecodeError and UnicodeDecodeError *)
| AttributeError     (* [msg.get] on a value that is not a dictionary *)
| TypeError          (* an unhashable value looked up in a dictionary *)
| KeyboardInterrupt.

Inductive outcome (A : Type) : Type :=
| Return (a : A)
| Raise (e : exn).
Arguments Return {A} a.
Arguments Raise {A} e.

(** [d.get(k)]: the first (only) binding of [k], [None] when there is none. *)
Fixpoint dict_get (k : string) (kv : list (string * value)) : value :=
  match kv with
  | [] => PyNone
  | (k', v) :: kv' => if String.eqb k k' then v else dict_get k kv'
  end.

(** [msg.get(k)] on an arbitrary decoded value: only dictionaries have the
    method. *)
Definition py_get (msg : value) (k : string) : outcome value :=
  match msg with
  | PyDict kv => Return (dict_get k kv)
  | _ => Raise AttributeError
  end.

(** Python's truth value of an object, as used by [if x:]. *)
Definition truthy (v : value) : bool :=
  match v with
  | PyNone => false
  | PyBool b => b
  | PyInt n => negb (n =? 0)%Z
  | PyStr s => negb (String.eqb s "")
  | PyList l => match l with [] => false | _ => true end
  | PyDict kv => match kv with [] => false | _ => true end
  end.

(** ** Bytes and the 4-byte length prefix *)

#[global] Instance byte_eq_decision : EqDecision byte := Byte.byte_eq_dec.

Definition byte_of_N (n : N) : byte :=
  match Byte.of_N (n mod 256) with
  | Some b => b
  | None => x00
  end.

(** [struct.pack('<I', n)]: four bytes, least significant first; raises
    [struct.error] when [n] does not fit 32 bits. *)
Definition pack_I (n : N) : option (list byte) :=
  if (n <? 2 ^ 32)%N then
    Some [byte_of_N n; byte_of_N (n / 256); byte_of_N (n / 65536);
          byte_of_N (n / 16777216)]
  else None.

(** [struct.unpack('<I', raw)[0]]: raises [struct.error] unless [raw] has
    exactly four bytes. *)
Definition unpack_I (raw : list byte) : option N :=
  match raw with
  | [b0; b1; b2; b3] =>
      Some (Byte.to_N b0 + 256 * Byte.to_N b1 + 65536 * Byte.to_N b2
            + 16777216 * Byte.to_N b3)%N
  | _ => None
  end.

(** [stream.read(n)] on a stream that will deliver [stream] and then close:
    the next [n] bytes, fewer only when the stream closes first. *)
Definition read (n : N) (stream : list byte) : list byte * list byte :=
  (take (N.to_nat n) stream, drop (N.to_nat n) stream).

(** ** The framed channel *)

Section Framing.
(** The structured-text codec is Python's [json] module together with the
    UTF-8 codec; the host only calls it.
    [loads data] is [json.loads(data.decode('utf-8'))], [None] when either
    step raises; [dumps m] is [json.dumps(m).encode('utf-8')]. *)
Variable loads : list byte -> option value.
Variable dumps : value -> list byte.

(** Lines 27-33.  The result pairs the outcome with the bytes left on
    the stream.  [return None] is [Return PyNone]. *)
Definition read_message (stdin : list byte) : outcome value * list byte :=
  let '(raw_length, stdin1) := read 4 stdin in
  match raw_length with
  | [] => (Return PyNone, stdin1)
  | _ =>
      match unpack_I raw_length with
      | None => (Raise StructError, stdin1)
      | Some length =>
          let '(data, stdin2) := read length stdin1 in
          match loads data with
          | None => (Raise ValueError, stdin2)
          | Some v => (Return v, stdin2)
          end
      end
  end.

(** Lines 36-40, run without any other writer in between: the prefix is
    written first (line 38), the payload second (line 39). *)
Definition send_message (message : value) (stdout : list byte)
  : outcome unit * list byte :=
  let encoded := dumps message in
  match pack_I (N.of_nat (length encoded)) with
  | None => (Raise StructError, stdout)
  | Some prefix => (Return tt, (stdout ++ prefix) ++ encoded)
  end.

(** The frame of a message: what [send_message] puts on an empty stream. *)
Definition frame (message : value) : list byte :=
  snd (send_message message []).

End Framing.

(** The stream closes inside a frame.  Either fewer than four bytes of
    the prefix arrive, or the prefix arrives and fewer payload bytes than
    it declares. *)
Definition truncated_prefix (stdin : list byte) : Prop :=
  (0 < length stdin < 4)%nat.

Definition truncated_payload (stdin : list byte) : Prop :=
  exists n, unpack_I (take 4 stdin) = Some n
            /\ (length (drop 4 stdin) < N.to_nat n)%nat.

(** ** A JSON codec to run the host on concrete bytes

    The fragment of [json.dumps] / [json.loads] (Python's defaults) over
    ASCII text and integers: enough to evaluate the host on real frames.
    A Python string is a [string] whose characters are code points below
    256.  Floats and bytes above 127 are outside the fragment: [json.loads]
    decodes them, a [value] cannot hold what it gives, and [loads] answers
    [None].  The codec is an instance for the runs below, all of which stay
    inside the fragment; the properties of the host are proved for any
    codec. *)
Module Json.

Definition dq : ascii := "034"%char.
Definition backslash : ascii := "092"%char.

Definition hex_digit (n : N) : ascii :=
  ascii_of_N (if (n <? 10)%N then 48 + n else 87 + n).

(** [py_encode_basestring_ascii]: what lies outside [' '..'~'], the quote
    and the backslash are escaped. *)
Definition escape_char (c : ascii) : string :=
  let n := N_of_ascii c in
  if Ascii.eqb c dq then String backslash (String dq EmptyString)
  else if Ascii.eqb c backslash then String backslash (String backslash EmptyString)
  else if (n =? 10)%N then String backslash "n"
  else if (n =? 13)%N then String backslash "r"
  else if (n =? 9)%N then String backslash "t"
  else if (n =? 8)%N then String backslash "b"
  else if (n =? 12)%N then String backslash "f"
  else if ((n <? 32) || (126 <? n))%N then
    String backslash
      (String "u" (String "0" (String "0"
         (String (hex_digit (n / 16)) (String (hex_digit (n mod 16)) EmptyString)))))
  else String c EmptyString.

Fixpoint escape (s : string) : string :=
  match s with
  | EmptyString => EmptyString
  | String c s' => escape_char c +:+ escape s'
  end.

Definition quote (s : string) : string :=
  String dq (escape s +:+ String dq EmptyString).

(** Decimal digits of a positive number, most significant first. *)
Fixpoint digits (fuel : nat) (n : N) (acc : string) : string :=
  match fuel with
  | O => acc
  | S fuel' =>
      let acc' := String (ascii_of_N (48 + n mod 10)) acc in
      if (n / 10 =? 0)%N then acc' else digits fuel' (n / 10) acc'
  end.

Definition str_of_int (z : Z) : string :=
  let n := Z.abs_N z in
  let d := digits (S (N.to_nat (N.log2 n))) n EmptyString in
  if (z <? 0)%Z then String "-" d else d.

(** [json.dumps(v)] with the default separators [', '] and [': ']. *)
Fixpoint dumps_str (v : value) : string :=
  match v with
  | PyNone => "null"
  | PyBool true => "true"
  | PyBool false => "false"
  | PyInt n => str_of_int n
  | PyStr s => quote s
  | PyList l =>
      "[" +:+
      (fix items (l : list value) : string :=
         match l with
         | [] => EmptyString
         | x :: l' =>
             dumps_str x +:+
             match l' with [] => EmptyString | _ => ", " +:+ items l' end
         end) l +:+ "]"
  | PyDict kv =>
      "{" +:+
      (fix members (kv : list (string * value)) : string :=
         match kv with
         | [] => EmptyString
         | (k, x) :: kv' =>
             quote k +:+ ": " +:+ dumps_str x +:+
             match kv' with [] => EmptyString | _ => ", " +:+ members kv' end
         end) kv +:+ "}"
  end.

Definition dumps (v : value) : list byte :=
  list_byte_of_string (dumps_str v).

(** *** Decoding *)

Definition is_ws (c : ascii) : bool :=
  let n := N_of_ascii c in
  ((n =? 32) || (n =? 9) || (n =? 10) || (n =? 13))%N.

Definition is_digit (c : ascii) : bool :=
  let n := N_of_ascii c in ((48 <=? n) && (n <=? 57))%N.

Fixpoint skip_ws (s : list ascii) : list ascii :=
  match s with
  | c :: s' => if is_ws c then skip_ws s' else s
  | [] => []
  end.

Definition hex_val (c : ascii) : option N :=
  let n := N_of_ascii c in
  if ((48 <=? n) && (n <=? 57))%N then Some (n - 48)%N
  else if ((97 <=? n) && (n <=? 102))%N then Some (n - 87)%N
  else if ((65 <=? n) && (n <=? 70))%N then Some (n - 55)%N
  else None.

Definition unescape (e : ascii) : option ascii :=
  let n := N_of_ascii e in
  if (n =? 34)%N then Some dq
  else if (n =? 92)%N then Some backslash
  else if (n =? 47)%N then Some "/"%char
  else if (n =? 98)%N then Some (ascii_of_N 8)
  else if (n =? 102)%N then Some (ascii_of_N 12)
  else if (n =? 110)%N then Some (ascii_of_N 10)
  else if (n =? 114)%N then Some (ascii_of_N 13)
  else if (n =? 116)%N then Some (ascii_of_N 9)
  else None.

(** The text of a string literal after its opening quote; [acc] holds the
    characters read so far, last first. *)
Fixpoint parse_string (s : list ascii) (acc : list ascii)
  : option (string * list ascii) :=
  match s with
  | [] => None
  | c :: s' =>
      if Ascii.eqb c dq then Some (string_of_list_ascii (rev acc), s')
      else if Ascii.eqb c backslash then
        match s' with
        | [] => None
        | e :: s'' =>
            if Ascii.eqb e "u"%char then
              match s'' with
              | h1 :: h2 :: h3 :: h4 :: s5 =>
                  match hex_val h1, hex_val h2, hex_val h3, hex_val h4 with
                  | Some 0%N, Some 0%N, Some a, Some b =>
                      parse_string s5 (ascii_of_N (16 * a + b) :: acc)
                  | _, _, _, _ => None
                  end
              | _ => None
              end
            else
              match unescape e with
              | Some c' => parse_string s'' (c' :: acc)
              | None => None
              end
        end
      else if (N_of_ascii c <? 32)%N then None
      else parse_string s' (c :: acc)
  end.

Fixpoint parse_digits (s : list ascii) (acc : N) : N * list ascii :=
  match s with
  | c :: s' =>
      if is_digit c then parse_digits s' (10 * acc + (N_of_ascii c - 48))%N
      else (acc, s)
  | [] => (acc, [])
  end.

(** An integer literal: an optional minus sign, then either 0 or digits
    that do not start with 0.  A fraction or an exponent after it makes a
    float, which is outside the fragment. *)
Definition parse_int (s : list ascii) : option (Z * list ascii) :=
  let '(neg, s1) :=
    match s with
    | c :: s' => if Ascii.eqb c "-"%char then (true, s') else (false, s)
    | [] => (false, s)
    end in
  match s1 with
  | c :: s2 =>
      if is_digit c then
        let '(n, rest) :=
          if Ascii.eqb c "0"%char then (0%N, s2) else parse_digits s1 0 in
        match rest with
        | d :: _ =>
            if is_digit d || Ascii.eqb d "."%char || Ascii.eqb d "e"%char
               || Ascii.eqb d "E"%char
            then None
            else Some (if neg then (- Z.of_N n)%Z else Z.of_N n, rest)
        | [] => Some (if neg then (- Z.of_N n)%Z else Z.of_N n, rest)
        end
      else None
  | [] => None
  end.

(** [d[k] = v] on an insertion-ordered dictionary. *)
Fixpoint dict_set (k : string) (v : value) (kv : list (string * value))
  : list (string * value) :=
  match kv with
  | [] => [(k, v)]
  | (k', v') :: kv' =>
      if String.eqb k k' then (k, v) :: kv' else (k', v') :: dict_set k v kv'
  end.

Definition expect (lit : string) (s : list ascii) : option (list ascii) :=
  let l := list_ascii_of_string lit in
  if decide (take (length l) s = l) then Some (drop (length l) s) else None.

Fixpoint parse_value (fuel : nat) (s : list ascii) : option (value * list ascii) :=
  match fuel with
  | O => None
  | S fuel' =>
      match skip_ws s with
      | [] => None
      | c :: s' =>
          if Ascii.eqb c "n"%char then
            s1 ← expect "ull" s'; Some (PyNone, s1)
          else if Ascii.eqb c "t"%char then
            s1 ← expect "rue" s'; Some (PyBool true, s1)
          else if Ascii.eqb c "f"%char then
            s1 ← expect "alse" s'; Some (PyBool false, s1)
          else if Ascii.eqb c dq then
            '(str, s1) ← parse_string s' []; Some (PyStr str, s1)
          else if Ascii.eqb c "["%char then
            match skip_ws s' with
            | c1 :: s1 =>
                if Ascii.eqb c1 "]"%char then Some (PyList [], s1)
                else
                  (fix items (fuel : nat) (s : list ascii) (acc : list value)
                     : option (value * list ascii) :=
                     match fuel with
                     | O => None
                     | S fuel'' =>
                         '(v, s2) ← parse_value fuel' s;
                         match skip_ws s2 with
                         | c2 :: s3 =>
                             if Ascii.eqb c2 ","%char then items fuel'' s3 (v :: acc)
                             else if Ascii.eqb c2 "]"%char
                             then Some (PyList (rev (v :: acc)), s3)
                             else None
                         | [] => None
                         end
                     end) fuel' (c1 :: s1) []
            | [] => None
            end
          else if Ascii.eqb c "{"%char then
            match skip_ws s' with
            | c1 :: s1 =>
                if Ascii.eqb c1 "}"%char then Some (PyDict [], s1)
                else
                  (fix members (fuel : nat) (s : list ascii)
                       (acc : list (string * value))
                     : option (value * list ascii) :=
                     match fuel with
                     | O => None
                     | S fuel'' =>
                         match skip_ws s with
                         | q :: s2 =>
                             if Ascii.eqb q dq then
                               '(k, s3) ← parse_string s2 [];
                               match skip_ws s3 with
                               | c3 :: s4 =>
                                   if Ascii.eqb c3 ":"%char then
                                     '(v, s5) ← parse_value fuel' s4;
                                     match skip_ws s5 with
                                     | c5 :: s6 =>
                                         if Ascii.eqb c5 ","%char
                                         then members fuel'' s6 (dict_set k v acc)
                                         else if Ascii.eqb c5 "}"%char
                                         then Some (PyDict (dict_set k v acc), s6)
                                         else None
                                     | [] => None
                                     end
                                   else None
                               | [] => None
                               end
                             else None
                         | [] => None
                         end
                     end) fuel' (c1 :: s1) []
            | [] => None
            end
          else
            '(n, s1) ← parse_int (c :: s'); Some (PyInt n, s1)
      end
  end.

(** [data.decode('utf-8')] on ASCII bytes. *)
Fixpoint decode_ascii (data : list byte) : option (list ascii) :=
  match data with
  | [] => Some []
  | b :: data' =>
      if (Byte.to_N b <? 128)%N
      then s ← decode_ascii data'; Some (ascii_of_byte b :: s)
      else None
  end.

(** [json.loads(data.decode('utf-8'))]: one value, white space around it,
    and nothing else. *)
Definition loads (data : list byte) : option value :=
  s ← decode_ascii data;
  '(v, rest) ← parse_value (S (length s)) s;
  match skip_ws rest with
  | [] => Some v
  | _ => None
  end.

End Json.

(** ** One download: [threaded_download] (lines 76-154)

    The function runs on a thread of its own.  It shares the dictionary
    [info = DOWNLOADS[did]] with the dispatcher, which writes the keys
    ['pause'] and ['cancel'] while the loop runs.  Each read of one of
    these keys is therefore a step of its own, and the dispatcher's writes
    may fall between any two steps. *)

(** The dictionary that line 316 stores in [DOWNLOADS], with the keys that
    [threaded_download] adds to it (['downloaded'], ['path']).  A key that
    was never assigned is [None]. *)
Record info : Type := mk_info {
  i_id : string;
  i_url : value;
  pause : bool;
  cancel : bool;
  i_downloaded : option Z;
  i_path : option string
}.

(** Line 316. *)
Definition new_info (did : string) (url : value) : info :=
  {| i_id := did; i_url := url; pause := false; cancel := false;
     i_downloaded := None; i_path := None |}.

(** Lines 324 and 331, and line 338. *)
Definition set_pause (b : bool) (i : info) : info :=
  {| i_id := i_id i; i_url := i_url i; pause := b; cancel := cancel i;
     i_downloaded := i_downloaded i; i_path := i_path i |}.

Definition set_cancel (i : info) : info :=
  {| i_id := i_id i; i_url := i_url i; pause := pause i; cancel := true;
     i_downloaded := i_downloaded i; i_path := i_path i |}.

(** Lines 122 and 145. *)
Definition set_path (p : string) (i : info) : info :=
  {| i_id := i_id i; i_url := i_url i; pause := pause i; cancel := cancel i;
     i_downloaded := i_downloaded i; i_path := Some p |}.

Definition set_downloaded (n : Z) (i : info) : info :=
  {| i_id := i_id i; i_url := i_url i; pause := pause i; cancel := cancel i;
     i_downloaded := Some n; i_path := i_path i |}.

(** What [urllib.request.urlopen] hands back: the status, the final URL,
    the two headers the loop looks up, and the body that [res.read] will
    deliver.  [body_fault] is the fault that ends the body instead of a
    clean end (a reset connection, a timeout), if any. *)
Record response : Type := mk_response {
  getcode : Z;
  geturl : string;
  content_length : option string;
  content_range : option string;
  body : list byte;
  body_fault : option string
}.

(** Building and opening the request either gives a response or raises;
    [Failed msg] carries [str(ex)]. *)
Inductive opened : Type :=
| Opened (res : response)
| Failed (msg : string).

Inductive open_mode : Type := wb | ab.

(** Where the thread stands.  One constructor per point at which the
    loop reads shared state or the network. *)
Inductive pc : Type :=
| Request      (* line 91: top of the outer [while True] *)
| AtCancel     (* line 126: [if info.get('cancel')] *)
| AtPause      (* line 129: [if info.get('pause')] *)
| PollPause    (* line 132: [while info.get('pause') ...] *)
| PollCancel   (* line 132: [... and not info.get('cancel')] *)
| AfterPoll    (* line 134: [if info.get('cancel')] *)
| ReadChunk    (* line 140: [chunk = res.read(chunk_size)] *)
| Finished.    (* the function has returned *)

(** The thread: the arguments [did] and [req], the shared [info], the
    local variables, the unread part of the response body, and [file], the
    bytes that the destination at [tf_path] holds as far as the thread has
    written them.  Python buffers what [tf.write] is given, so these bytes
    are on the disk for sure only once the file has been closed without a
    fault; when an operation on the file fails, [file] becomes what the
    fault has left of them. *)
Record transfer : Type := mk_transfer {
  t_did : string;
  t_req : value;
  t_info : info;
  t_pc : pc;
  downloaded : Z;
  mode : open_mode;
  status : Z;
  final_url : string;
  total : option Z;
  tf_path : string;
  res_body : list byte;
  res_fault : option string;
  file : list byte
}.

Definition chunk_size : Z := 8192.

(** [threaded_download(did, req)] up to line 88: the state in which the
    thread enters the outer loop; [i] is [DOWNLOADS[did]] (line 84).  The
    loop itself is [step] below. *)
Definition threaded_download (did : string) (req : value) (i : info) : transfer :=
  let downloaded := default 0%Z (i_downloaded i) in
  {| t_did := did; t_req := req; t_info := i; t_pc := Request;
     downloaded := downloaded;
     mode := if (downloaded =? 0)%Z then wb else ab;
     status := 0; final_url := EmptyString; total := None;
     tf_path := EmptyString; res_body := []; res_fault := None; file := [] |}.

(** The events, as the dictionaries handed to [send_message]. *)
Definition ev_cancelled (did : string) : value :=
  PyDict [("type", PyStr "cancelled"); ("id", PyStr did)].

Definition ev_paused (did : string) (downloaded : Z) : value :=
  PyDict [("type", PyStr "paused"); ("id", PyStr did);
          ("downloaded", PyInt downloaded)].

Definition py_optint (o : option Z) : value :=
  match o with Some n => PyInt n | None => PyNone end.

Definition ev_progress (did : string) (downloaded : Z) (path : string)
  (total : option Z) : value :=
  PyDict [("type", PyStr "progress"); ("id", PyStr did);
          ("downloaded", PyInt downloaded); ("path", PyStr path);
          ("total", py_optint total)].

Definition ev_done (did : string) (path : string) (size : Z)
  (final_url : string) (status : Z) : value :=
  PyDict [("type", PyStr "done"); ("id", PyStr did); ("path", PyStr path);
          ("size", PyInt size); ("finalUrl", PyStr final_url);
          ("status", PyInt status)].

Definition ev_error (did : string) (msg : string) : value :=
  PyDict [("type", PyStr "error"); ("id", PyStr did); ("error", PyStr msg)].

(** A header value as a condition: [None] and the empty string are false. *)
Definition header_truthy (h : option string) : bool :=
  match h with
  | Some s => negb (String.eqb s EmptyString)
  | None => false
  end.

(** The Range header of the request that [t] builds (lines 97-98):
    [bytes=downloaded-] when [downloaded] is not zero. *)
Definition range_of (t : transfer) : option Z :=
  if (downloaded t =? 0)%Z then None else Some (downloaded t).

(** ** Paths *)

Fixpoint rfind_dot (s : string) : option nat :=
  match s with
  | EmptyString => None
  | String c s' =>
      match rfind_dot s' with
      | Some i => Some (S i)
      | None => if Ascii.eqb c "." then Some 0%nat else None
      end
  end.

Fixpoint string_drop (n : nat) (s : string) : string :=
  match n, s with
  | O, _ => s
  | S n', String _ s' => string_drop n' s'
  | S _, EmptyString => EmptyString
  end.

Fixpoint rfind_slash (s : string) : option nat :=
  match s with
  | EmptyString => None
  | String c s' =>
      match rfind_slash s' with
      | Some i => Some (S i)
      | None => if Ascii.eqb c "/" then Some 0%nat else None
      end
  end.

Definition path_name (p : string) : string :=
  match rfind_slash p with
  | Some i => string_drop (S i) p
  | None => p
  end.

(** [os.path.splitext(p)[1]] of posixpath: the last component of [p] from
    its last dot on, unless only dots stand before that dot. *)
Definition splitext_ext (p : string) : string :=
  let name := path_name p in
  match rfind_dot name with
  | Some i =>
      if forallb (Ascii.eqb ".") (take i (list_ascii_of_string name))
      then EmptyString else string_drop i name
  | None => EmptyString
  end.

(** Lines 82 and 115-119: the suffix of the temporary file.  [splitext]
    raises on a ['filename'] that is not a string (a missing one is [None]),
    and line 118 then leaves the suffix empty. *)
Definition suffix_of (req : value) : string :=
  match req with
  | PyDict kv =>
      match dict_get "filename" kv with
      | PyStr s => splitext_ext s
      | _ => EmptyString
      end
  | _ => EmptyString
  end.

(** What the thread asks of the file system for its destination: [open]
    of line 124, [tf.write] of line 143 (with the bytes written before),
    and the close on leaving the [with] block of line 124, by the [return]
    of line 128 or 136, the [break] of line 139 or 142, or an exception. *)
Inductive file_op : Type :=
| OpenFile (path : string) (m : open_mode)
| WriteFile (path : string) (written chunk : list byte)
| CloseFile (path : string) (written : list byte).

(** The file system.  [NamedTemporaryFile did suffix] is the name of the
    temporary file that line 119 creates for the thread of [did], or
    [str(ex)] of the exception it raises (a NUL in the suffix, a name that
    is too long, a full disk).  [fault op] is [Some (msg, kept)] when the
    operation raises an exception with [str(ex) = msg], the file being left
    with its first [kept] bytes at most; [None] when it succeeds. *)
Record file_system : Type := mk_file_system {
  NamedTemporaryFile : string -> string -> string + string;
  fault : file_op -> option (string * nat)
}.

Section Transfer.
(** [int(s)], [None] when it raises [ValueError]. *)
Variable py_int : string -> option Z.
(** The network: what opening the request built from [req] gives, without
    a Range header ([None]) or with [Range: bytes=n-] ([Some n]). *)
Variable urlopen : value -> option Z -> opened.
Variable fs : file_system.

(** Lines 103-109. *)
Definition compute_total (cl cr : option string) (downloaded : Z) : option Z :=
  match cl with
  | None => None
  | Some s =>
      match py_int s with
      | None => None
      | Some n =>
          if negb (downloaded =? 0)%Z && header_truthy cr
          then Some (n + downloaded)%Z
          else Some n
      end
  end.

Definition goto (l : pc) (t : transfer) : transfer :=
  {| t_did := t_did t; t_req := t_req t; t_info := t_info t; t_pc := l;
     downloaded := downloaded t; mode := mode t; status := status t;
     final_url := final_url t; total := total t; tf_path := tf_path t;
     res_body := res_body t; res_fault := res_fault t; file := file t |}.

Definition with_file (f : list byte) (t : transfer) : transfer :=
  {| t_did := t_did t; t_req := t_req t; t_info := t_info t; t_pc := t_pc t;
     downloaded := downloaded t; mode := mode t; status := status t;
     final_url := final_url t; total := total t; tf_path := tf_path t;
     res_body := res_body t; res_fault := res_fault t; file := f |}.

(** The thread leaves the [with] block of line 124 and returns.  [before]
    is what it has sent on its way out (the Cancelled event of line 127 or
    135).  The file is closed, which flushes it: when that succeeds the
    thread goes on to send [after] (the done event of line 150, or the
    error event of line 153 for an exception that is on its way); when it
    raises, line 153 reports that exception instead. *)
Definition leave (before after : list value) (t : transfer)
  : transfer * list value :=
  match fault fs (CloseFile (tf_path t) (file t)) with
  | None => (goto Finished t, before ++ after)
  | Some (msg, kept) =>
      (with_file (take kept (file t)) (goto Finished t),
       before ++ [ev_error (t_did t) msg])
  end.

(** Lines 91-124: the request is built (with a Range header when
    [downloaded] is not zero) and opened, the status, the final URL and the
    total are taken from the response, the temporary file is created unless
    [info] already names a path, and the file is opened in [mode].  An
    exception of any of these is reported by line 153. *)
Definition connect (t : transfer) : transfer * list value :=
  match urlopen (t_req t) (range_of t) with
  | Failed msg => (goto Finished t, [ev_error (t_did t) msg])
  | Opened res =>
      let fresh :=
        match i_path (t_info t) with
        | Some p => String.eqb p EmptyString
        | None => true
        end in
      let total' :=
        compute_total (content_length res) (content_range res) (downloaded t) in
      match (if fresh then NamedTemporaryFile fs (t_did t) (suffix_of (t_req t))
             else inl (default EmptyString (i_path (t_info t)))) with
      | inr msg =>
          ({| t_did := t_did t; t_req := t_req t; t_info := t_info t;
              t_pc := Finished;
              downloaded := downloaded t; mode := mode t;
              status := getcode res; final_url := geturl res; total := total';
              tf_path := tf_path t;
              res_body := body res; res_fault := body_fault res;
              file := file t |},
           [ev_error (t_did t) msg])
      | inl path =>
          let created := if fresh then [] else file t in
          let info' := if fresh then set_path path (t_info t) else t_info t in
          match fault fs (OpenFile path (mode t)) with
          | Some (msg, _) =>
              ({| t_did := t_did t; t_req := t_req t; t_info := info';
                  t_pc := Finished;
                  downloaded := downloaded t; mode := mode t;
                  status := getcode res; final_url := geturl res; total := total';
                  tf_path := path;
                  res_body := body res; res_fault := body_fault res;
                  file := created |},
               [ev_error (t_did t) msg])
          | None =>
              ({| t_did := t_did t; t_req := t_req t; t_info := info';
                  t_pc := AtCancel;
                  downloaded := downloaded t; mode := mode t;
                  status := getcode res; final_url := geturl res; total := total';
                  tf_path := path;
                  res_body := body res; res_fault := body_fault res;
                  file := match mode t with wb => [] | ab => created end |}, [])
          end
      end
  end.

(** Lines 140-147 on a chunk that is not empty and that [tf.write] took. *)
Definition write_chunk (chunk : list byte) (t : transfer) : transfer * list value :=
  let downloaded' := (downloaded t + Z.of_nat (length chunk))%Z in
  ({| t_did := t_did t; t_req := t_req t;
      t_info := set_downloaded downloaded' (t_info t);
      t_pc := AtCancel;
      downloaded := downloaded'; mode := mode t; status := status t;
      final_url := final_url t; total := total t; tf_path := tf_path t;
      res_body := drop (Z.to_nat chunk_size) (res_body t);
      res_fault := res_fault t;
      file := file t ++ chunk |},
   [ev_progress (t_did t) downloaded' (tf_path t) (total t)]).

Definition set_mode (m : open_mode) (t : transfer) : transfer :=
  {| t_did := t_did t; t_req := t_req t; t_info := t_info t; t_pc := t_pc t;
     downloaded := downloaded t; mode := m; status := status t;
     final_url := final_url t; total := total t; tf_path := tf_path t;
     res_body := res_body t; res_fault := res_fault t; file := file t |}.

(** One step of the thread, with the events it hands to [send_message]. *)
Definition step (t : transfer) : transfer * list value :=
  match t_pc t with
  | Request => connect t
  | AtCancel =>
      (* 126-128 *)
      if cancel (t_info t)
      then leave [ev_cancelled (t_did t)] [] t
      else (goto AtPause t, [])
  | AtPause =>
      (* 129-130 *)
      if pause (t_info t)
      then (goto PollPause t, [ev_paused (t_did t) (downloaded t)])
      else (goto ReadChunk t, [])
  | PollPause =>
      (* 132, left operand of [and] *)
      if pause (t_info t) then (goto PollCancel t, []) else (goto AfterPoll t, [])
  | PollCancel =>
      (* 132, right operand; 133 when the condition holds *)
      if negb (cancel (t_info t)) then (goto PollPause t, []) else (goto AfterPoll t, [])
  | AfterPoll =>
      (* 134-139, then the [break] of 139 leads to 150-151 *)
      if cancel (t_info t)
      then leave [ev_cancelled (t_did t)] [] t
      else leave []
             [ev_done (t_did t) (tf_path t) (downloaded t) (final_url t) (status t)]
             (set_mode ab t)
  | ReadChunk =>
      (* 140-147; the [break] of 142 leads to 150-151, an exception of
         [res.read] or of [tf.write] to 152-154 *)
      match take (Z.to_nat chunk_size) (res_body t) with
      | [] =>
          match res_fault t with
          | Some msg => leave [] [ev_error (t_did t) msg] t
          | None =>
              leave []
                [ev_done (t_did t) (tf_path t) (downloaded t) (final_url t) (status t)]
                t
          end
      | chunk =>
          match fault fs (WriteFile (tf_path t) (file t) chunk) with
          | Some (msg, kept) =>
              leave [] [ev_error (t_did t) msg]
                (with_file (take kept (file t ++ chunk)) t)
          | None => write_chunk chunk t
          end
      end
  | Finished => (t, [])
  end.

(** What can happen to a transfer: its own thread takes a step, or the
    dispatcher handles a [download_pause], [download_resume] or
    [download_cancel] for it. *)
Inductive action : Type := Tick | Pause | Resume | Cancel.

Definition with_info (f : info -> info) (t : transfer) : transfer :=
  {| t_did := t_did t; t_req := t_req t; t_info := f (t_info t); t_pc := t_pc t;
     downloaded := downloaded t; mode := mode t; status := status t;
     final_url := final_url t; total := total t; tf_path := tf_path t;
     res_body := res_body t; res_fault := res_fault t; file := file t |}.

Definition perform (a : action) (t : transfer) : transfer * list value :=
  match a with
  | Tick => step t
  | Pause => (with_info (set_pause true) t, [])
  | Resume => (with_info (set_pause false) t, [])
  | Cancel => (with_info set_cancel t, [])
  end.

(** A schedule run from [t]: the final state and the events in order. *)
Fixpoint run (sched : list action) (t : transfer) : transfer * list value :=
  match sched with
  | [] => (t, [])
  | a :: sched' =>
      let '(t1, evs1) := perform a t in
      let '(t2, evs2) := run sched' t1 in
      (t2, evs1 ++ evs2)
  end.

End Transfer.

#[global] Instance action_eq_decision : EqDecision action.
Proof. solve_decision. Defined.

#[global] Instance pc_eq_decision : EqDecision pc.
Proof. solve_decision. Defined.

(** ** A deterministic byte source of fixed size

    A server that serves [resource] and honours Range requests: without a
    Range header it answers 200 with the whole resource, with
    [Range: bytes=n-] it answers 206 with the bytes from offset [n] on,
    or 416 (which [urlopen] raises as an HTTPError) when [n] is not below
    the size. *)
Definition url_of (req : value) : string :=
  match req with
  | PyDict kv => match dict_get "url" kv with PyStr u => u | _ => EmptyString end
  | _ => EmptyString
  end.

Definition fixed_source (resource : list byte) (req : value) (range : option Z)
  : opened :=
  let size := Z.of_nat (length resource) in
  match range with
  | None =>
      Opened {| getcode := 200; geturl := url_of req;
                content_length := Some (Json.str_of_int size);
                content_range := None;
                body := resource; body_fault := None |}
  | Some n =>
      if (n <? size)%Z then
        Opened {| getcode := 206; geturl := url_of req;
                  content_length := Some (Json.str_of_int (size - n));
                  content_range :=
                    Some ("bytes " +:+ Json.str_of_int n +:+ "-" +:+
                          Json.str_of_int (size - 1) +:+ "/" +:+
                          Json.str_of_int size);
                  body := drop (Z.to_nat n) resource; body_fault := None |}
      else Failed "HTTP Error 416: Requested Range Not Satisfiable"
  end.

(** [int(s)] on a string of code points below 256: white space around
    an optional sign and decimal digits, single underscores allowed between
    digits.  The white space that [int] strips is that of [str.isspace]:
    below 256, the characters 9 to 13, 28 to 32, 133 and 160; the decimal
    digits below 256 are [0] to [9].  A text of more than 4300 digits is
    refused, as CPython refuses it from version 3.11 on. *)
Fixpoint int_digits (s : list ascii) (acc : N) (after_digit : bool) : option N :=
  match s with
  | [] => if after_digit then Some acc else None
  | c :: s' =>
      if Json.is_digit c
      then int_digits s' (10 * acc + (N_of_ascii c - 48))%N true
      else if Ascii.eqb c "_"%char && after_digit
      then int_digits s' acc false
      else None
  end.

Definition is_space (c : ascii) : bool :=
  let n := N_of_ascii c in
  ((n =? 32) || ((9 <=? n) && (n <=? 13)) || ((28 <=? n) && (n <=? 31))
   || (n =? 133) || (n =? 160))%N.

Fixpoint lstrip (s : list ascii) : list ascii :=
  match s with
  | c :: s' => if is_space c then lstrip s' else s
  | [] => []
  end.

Fixpoint count_digits (s : list ascii) : nat :=
  match s with
  | [] => 0
  | c :: s' => if Json.is_digit c then S (count_digits s') else count_digits s'
  end.

Definition int_of_str (s : string) : option Z :=
  let l := rev (lstrip (rev (lstrip (list_ascii_of_string s)))) in
  if (4300 <? count_digits l)%nat then None
  else
    match l with
    | c :: l' =>
        if Ascii.eqb c "-"%char then n ← int_digits l' 0 false; Some (- Z.of_N n)%Z
        else if Ascii.eqb c "+"%char then n ← int_digits l' 0 false; Some (Z.of_N n)
        else n ← int_digits l 0 false; Some (Z.of_N n)
    | [] => None
    end.

(** ** The dispatcher: [main] (lines 300-359) *)

(** [t == 'literal'] for a decoded value [t]. *)
Definition is_str (t : value) (s : string) : bool :=
  match t with
  | PyStr s' => String.eqb s' s
  | _ => false
  end.

(** The command tags that [main] tests for, in the order of its chain. *)
Definition recognized_tags : list string :=
  ["preroll"; "download"; "download_start"; "download_pause";
   "download_resume"; "download_cancel"; "move"; "choose_folder"; "stat_path"].

(** [str(u)] for a UUID whose 128-bit integer is [n]: 32 lower-case
    hexadecimal digits in groups of 8, 4, 4, 4 and 12. *)
Definition hex_at (n : N) (i : N) : ascii :=
  Json.hex_digit ((n / 16 ^ (31 - i)) mod 16)%N.

Fixpoint hexes (n : N) (from : N) (count : nat) : string :=
  match count with
  | O => EmptyString
  | S count' => String (hex_at n from) (hexes n (from + 1)%N count')
  end.

Definition str_uuid (n : N) : string :=
  hexes n 0 8 +:+ "-" +:+ hexes n 8 4 +:+ "-" +:+ hexes n 12 4 +:+ "-" +:+
  hexes n 16 4 +:+ "-" +:+ hexes n 20 12.

(** The process: the bytes still to come on stdin, the registry, the
    threads started so far, and the messages handed to [send_message], in
    the order of the calls.  An [info] dictionary is shared by the registry
    and by the thread started on it, so the registry holds the index of the
    thread, and [t_info] of that thread is the one dictionary.  The output
    stream is taken to accept every message: a reader that has gone away,
    and a message that [json.dumps] or [struct.pack] refuses, are not
    modelled. *)
Record host : Type := mk_host {
  stdin : list byte;
  DOWNLOADS : gmap string nat;
  threads : list transfer;
  sent : list value
}.

Definition boot (input : list byte) : host :=
  {| stdin := input; DOWNLOADS := ∅; threads := []; sent := [] |}.

(** What a step of the main thread needs from outside: whether the
    interrupt signal arrives while it waits (for the next frame, or to send
    its response), the integer that [uuid.uuid4()] draws, the dictionary
    that an external collaborator ([perform_preroll], [perform_move],
    [choose_folder], [stat_path]) returns, and, for a step that ends the
    process, whether a download thread is inside [send_message] at that
    moment, holding the lock of [sys.stdout.buffer]. *)
Record oracle : Type := mk_oracle {
  interrupt : bool;
  uuid4 : N;
  collaborator : value;
  stdout_busy : bool
}.

Inductive turn : Type :=
| Continue (h : host)           (* back to line 301 *)
| Send (m : value) (h : host)   (* shared state is written, [m] is still to be sent *)
| Break (h : host)              (* line 304 *)
| Crash (e : exn) (h : host).   (* an exception leaves [main] *)

Definition reply (m : value) (h : host) : host :=
  {| stdin := stdin h; DOWNLOADS := DOWNLOADS h; threads := threads h;
     sent := sent h ++ [m] |}.

Definition consume (rest : list byte) (h : host) : host :=
  {| stdin := rest; DOWNLOADS := DOWNLOADS h; threads := threads h;
     sent := sent h |}.

Definition error_response (msg : string) : value :=
  PyDict [("ok", PyBool false); ("error", PyStr msg)].

Definition ok_response (did : value) : value :=
  PyDict [("ok", PyBool true); ("id", did)].

(** [did and did in DOWNLOADS]: the index of the registered dictionary.
    The membership test hashes [did], which raises for a list or a
    dictionary; a number or [True] is hashable and equal to no key. *)
Definition registered (did : value) (D : gmap string nat) : outcome (option nat) :=
  if truthy did then
    match did with
    | PyStr s => Return (D !! s)
    | PyList _ | PyDict _ => Raise TypeError
    | _ => Return None
    end
  else Return None.

(** Lines 322-327, 329-334 and 336-341, which differ in the flag they
    set.  For a registered identifier the flag is written (line 324, 331
    or 338) before the response is sent (line 325, 332 or 339): the thread
    may read the flag and send its own event in between, so the turn ends
    with the response still to be sent. *)
Definition control (f : info -> info) (kv : list (string * value)) (h : host)
  : turn :=
  let did := dict_get "id" kv in
  match registered did (DOWNLOADS h) with
  | Raise e => Crash e h
  | Return (Some idx) =>
      Send (ok_response did)
        {| stdin := stdin h; DOWNLOADS := DOWNLOADS h;
           threads := alter (with_info f) idx (threads h);
           sent := sent h |}
  | Return None => Continue (reply (error_response "unknown id") h)
  end.

(** Lines 315-319: the dictionary is registered and the thread started.
    The response of line 320 is still to be sent: the thread runs from
    line 319 on, and its events may reach the output before it. *)
Definition download_start (o : oracle) (kv : list (string * value)) (h : host)
  : turn :=
  let did := str_uuid (uuid4 o) in
  let i := new_info did (dict_get "url" kv) in
  Send (ok_response (PyStr did))
    {| stdin := stdin h;
       DOWNLOADS := <[did := length (threads h)]> (DOWNLOADS h);
       threads := threads h ++ [threaded_download did (PyDict kv) i];
       sent := sent h |}.

(** Line 70. *)
Definition perform_download (req : value) : value :=
  error_response "use interactive download via connectNative".

Section Host.
Variable loads : list byte -> option value.
Variable py_int : string -> option Z.
Variable urlopen : value -> option Z -> opened.
Variable fs : file_system.

(** Lines 305-352 for a message that is a dictionary. *)
Definition dispatch (o : oracle) (kv : list (string * value)) (h : host) : turn :=
  let t := dict_get "type" kv in
  if is_str t "preroll" then Continue (reply (collaborator o) h)
  else if is_str t "download" then Continue (reply (perform_download (PyDict kv)) h)
  else if is_str t "download_start" then download_start o kv h
  else if is_str t "download_pause" then control (set_pause true) kv h
  else if is_str t "download_resume" then control (set_pause false) kv h
  else if is_str t "download_cancel" then control set_cancel kv h
  else if is_str t "move" then Continue (reply (collaborator o) h)
  else if is_str t "choose_folder" then Continue (reply (collaborator o) h)
  else if is_str t "stat_path" then Continue (reply (collaborator o) h)
  else Continue (reply (error_response "unknown type") h).

(** One turn of the loop of [main], lines 302-352, up to its response:
    sent, where [main] has written no shared state before it, and still to
    be sent ([Send]) otherwise.  [msg.get('type')] of line 305 raises
    [AttributeError] on a decoded value that is not a dictionary (see
    [py_get]); nothing in [main] catches it.  The interrupt signal is taken
    where the main thread waits, here before it reads a frame: a signal
    that arrives while a command is handled ends the process in the same
    way, and is modelled at the boundary of the step. *)
Definition main_turn (o : oracle) (h : host) : turn :=
  if interrupt o then Crash KeyboardInterrupt h
  else
    match read_message loads (stdin h) with
    | (Raise e, rest) => Crash e (consume rest h)
    | (Return msg, rest) =>
        match msg with
        | PyNone => Break (consume rest h)
        | PyDict kv => dispatch o kv (consume rest h)
        | _ => Crash AttributeError (consume rest h)
        end
    end.

(** Thread [i] takes a step; its events go to [send_message]. *)
Definition thread_step (i : nat) (h : host) : host :=
  match threads h !! i with
  | Some t =>
      let '(t', evs) := step py_int urlopen fs t in
      {| stdin := stdin h; DOWNLOADS := DOWNLOADS h;
         threads := <[i := t']> (threads h); sent := sent h ++ evs |}
  | None => h
  end.

(** A thread that has not returned. *)
Definition alive (t : transfer) : bool := negb (bool_decide (t_pc t = Finished)).

(** How the process ends.  Lines 355-359: [main] returning and
    [KeyboardInterrupt] both end it with code 0, any other exception that
    leaves [main] with code 1.  The download threads are daemons (line
    317): the interpreter does not wait for them, and when one of them is
    inside [send_message] at that moment, holding the lock of
    [sys.stdout.buffer], the interpreter cannot flush its output and aborts
    (signal 6, reported as code 134). *)
Definition exit_code (o : oracle) (code : Z) (h : host) : Z :=
  if stdout_busy o && existsb alive (threads h) then 134%Z else code.

(** The process: the main thread is in its loop, or has handled a command
    and is about to send the response [m] (line 320, 325, 332 or 339), or
    the process has exited with a code. *)
Inductive process : Type :=
| Running (h : host)
| Sending (m : value) (h : host)
| Exited (code : Z) (h : host).

Inductive event : Type :=
| Main (o : oracle)     (* the main thread takes a step *)
| Thread (i : nat).     (* download thread [i] takes one step *)

Definition leave_main (o : oracle) (r : turn) : process :=
  match r with
  | Continue h' => Running h'
  | Send m h' => Sending m h'
  | Break h' => Exited (exit_code o 0 h') h'
  | Crash KeyboardInterrupt h' => Exited (exit_code o 0 h') h'
  | Crash _ h' => Exited (exit_code o 1 h') h'
  end.

Definition occur (e : event) (p : process) : process :=
  match p with
  | Exited _ _ => p
  | Running h =>
      match e with
      | Thread i => Running (thread_step i h)
      | Main o => leave_main o (main_turn o h)
      end
  | Sending m h =>
      match e with
      | Thread i => Sending m (thread_step i h)
      | Main o =>
          if interrupt o then Exited (exit_code o 0 h) h
          else Running (reply m h)
      end
  end.

Definition execute (es : list event) (p : process) : process :=
  foldl (fun p e => occur e p) p es.

Definition host_of (p : process) : host :=
  match p with Running h | Sending _ h | Exited _ h => h end.

End Host.

(** ** Several writers on the one output stream

    [send_message] issues two writes (lines 38 and 39) and takes no lock,
    so a write of another thread may fall between them.  A writer is the
    list of writes it still has to issue; a schedule names the writer that
    issues its next write. *)
Section Writers.
Variable dumps : value -> list byte.

(** The writes of one call of [send_message]; [struct.pack] raises before
    anything is written when the payload does not fit. *)
Definition writes (m : value) : list (list byte) :=
  match pack_I (N.of_nat (length (dumps m))) with
  | Some prefix => [prefix; dumps m]
  | None => []
  end.

Record channel : Type := mk_channel {
  pending : list (list (list byte));
  stdout : list byte
}.

(** Writer [k] sends the messages [ms !!! k], one after the other. *)
Definition writers (ms : list (list value)) : channel :=
  {| pending := map (fun l => concat (map writes l)) ms; stdout := [] |}.

Definition write_next (k : nat) (c : channel) : channel :=
  match pending c !! k with
  | Some (w :: ws) =>
      {| pending := <[k := ws]> (pending c); stdout := stdout c ++ w |}
  | _ => c
  end.

Definition interleave (sched : list nat) (c : channel) : channel :=
  foldl (fun c k => write_next k c) c sched.

End Writers.

(** [f] occurs in [l] as one contiguous block. *)
Definition contiguous (f l : list byte) : Prop :=
  exists before after, l = before ++ f ++ after.

Definition contiguousb (f l : list byte) : bool :=
  existsb (fun k => bool_decide (take (length f) (drop k l) = f))
          (seq 0 (S (length l))).

(** ** Vocabulary of the properties *)

(** The count that the registry holds for a transfer: [info.get('downloaded', 0)]. *)
Definition counted (i : info) : Z := default 0%Z (i_downloaded i).

(** The points at which the loop reads the cancel flag. *)
Definition reads_cancel (l : pc) : bool :=
  match l with
  | AtCancel | PollCancel | AfterPoll => true
  | _ => false
  end.

(** The steps that the thread is given in a schedule. *)
Fixpoint ticks (sched : list action) : nat :=
  match sched with
  | [] => 0
  | Tick :: sched' => S (ticks sched')
  | _ :: sched' => ticks sched'
  end.

(** [e] is an event (or a message) whose ['type'] is [kind]. *)
Definition is_event (kind : string) (e : value) : bool :=
  match e with
  | PyDict kv => is_str (dict_get "type" kv) kind
  | _ => false
  end.


(** [did] is a key of the registry, and names a thread that was started. *)
Definition registered_thread (did : string) (h : host) : Prop :=
  exists idx, DOWNLOADS h !! did = Some idx /\ (idx < length (threads h))%nat.

Definition host_of_turn (r : turn) : host :=
  match r with Continue h | Send _ h | Break h | Crash _ h => h end.

(** The three commands that control a transfer, each with the write it
    makes to the registered dictionary. *)
Definition control_commands : list (string * (info -> info)) :=
  [("download_pause", set_pause true); ("download_resume", set_pause false);
   ("download_cancel", set_cancel)].

(** ** Inputs on which the model is run *)

(** A frame that declares five payload bytes, of which only the two bytes
    of an empty JSON object arrive before the stream closes. *)
Definition short_frame : list byte :=
  [x05; x00; x00; x00; "{"%byte; "}"%byte].

(** A resource of 10000 bytes, the request that starts its download, and
    the thread as [main] starts it (lines 315-319). *)
Definition resource : list byte := replicate (N.to_nat 10000) "A"%byte.

(** A resource that is shorter than a chunk. *)
Definition morsel : list byte := replicate (N.to_nat 1808) "A"%byte.

Definition request : value :=
  PyDict [("type", PyStr "download_start"); ("url", PyStr "http://host/file")].

(** A request whose ['filename'] has a NUL character in its extension. *)
Definition nul_request : value :=
  PyDict [("type", PyStr "download_start"); ("url", PyStr "http://host/file");
          ("filename", PyStr ("a." +:+ String zero EmptyString))].

Definition started : transfer :=
  threaded_download "d" request (new_info "d" (PyStr "http://host/file")).

(** A file system that does what it is asked: the temporary file of
    [did] is [/tmp/<did><suffix>], a name with a NUL in it or of more than
    255 characters is refused as the operating system refuses it, and no
    operation on a file fails. *)
Definition tmp_name (did suffix : string) : string + string :=
  if existsb (Ascii.eqb zero) (list_ascii_of_string (did +:+ suffix))
  then inr "embedded null byte"
  else if (255 <? String.length (did +:+ suffix))%nat
  then inr ("[Errno 36] File name too long: '/tmp/" +:+ did +:+ suffix +:+ "'")
  else inl ("/tmp/" +:+ did +:+ suffix).

Definition tmp_of : file_system :=
  {| NamedTemporaryFile := tmp_name; fault := fun _ => None |}.

(** The same, on a disk that is full: what is written stays in the buffer
    and the flush on closing the file fails, leaving the file empty. *)
Definition full_disk : file_system :=
  {| NamedTemporaryFile := tmp_name;
     fault := fun op =>
       match op with
       | CloseFile _ (_ :: _) => Some ("[Errno 28] No space left on device", 0%nat)
       | _ => None
       end |}.

(** The thread runs alone until the transfer is over. *)
Definition uninterrupted : list action := replicate 12 Tick.

(** The thread runs until its first progress event, a [download_pause]
    is handled, the thread notices it and polls, a [download_resume] is
    handled, and the thread runs on. *)
Definition pause_then_resume : list action :=
  replicate 4 Tick ++ [Pause] ++ replicate 4 Tick ++ [Resume] ++ replicate 12 Tick.

(** The transfer of [started] once its request is open and a
    [download_cancel] has been handled. *)
Definition cancelled_in_flight : transfer :=
  fst (run int_of_str (fixed_source resource) tmp_of [Tick; Cancel] started).

(** A transfer that resumes at offset 8192: the registry already holds
    that count when the thread starts. *)
Definition resuming : transfer :=
  threaded_download "d" request (set_downloaded 8192 (new_info "d" (PyStr "http://host/file"))).

(** A stream that carries one frame, a command with a tag that [main]
    does not know, and an oracle for the turn that reads it. *)
Definition bogus_command : value := PyDict [("type", PyStr "bogus")].

Definition quiet : oracle :=
  {| interrupt := false; uuid4 := 0; collaborator := PyNone; stdout_busy := false |}.

(** The dispatcher acknowledges a command while the thread of a
    transfer reports a pause: two contexts, one message each. *)
Definition two_writers : channel :=
  writers Json.dumps [[ok_response (PyStr "d")]; [ev_paused "d" 0]].

(** The request that starts a download arrives as the only frame. *)
Definition start_stream : list byte := frame Json.dumps request.

(** A whole session: the extension starts a download, pauses it after
    the first progress event and resumes it, then closes the stream. *)
Definition session_id : string := str_uuid 0.

Definition session_stream : list byte :=
  frame Json.dumps request
  ++ frame Json.dumps
       (PyDict [("type", PyStr "download_pause"); ("id", PyStr session_id)])
  ++ frame Json.dumps
       (PyDict [("type", PyStr "download_resume"); ("id", PyStr session_id)]).

Definition session_commands : list event :=
  [Main quiet; Main quiet] ++ replicate 4 (Thread 0) ++ [Main quiet; Main quiet]
  ++ replicate 4 (Thread 0) ++ [Main quiet; Main quiet] ++ replicate 4 (Thread 0).

Definition session : list event := session_commands ++ [Main quiet].

(** The same session when the thread is faster than [main]: it reports
    its first chunk before [main] has sent the response of line 320. *)
Definition hasty_session : list event :=
  [Main quiet] ++ replicate 4 (Thread 0) ++ [Main quiet].

(** ** Further inputs *)


(** A frame whose payload is the JSON text [[1]], followed by the frame
    of a [download_start]. *)
Definition list_then_start : list byte :=
  [x03; x00; x00; x00] ++ list_byte_of_string "[1]" ++ start_stream.

(** The host once the download of [start_stream] is registered. *)
Definition serving : host :=
  host_of (occur Json.loads int_of_str (fixed_source resource) tmp_of (Main quiet)
             (Running (boot start_stream))).

(** The host while the download of [start_stream] is in flight: the
    response of line 320 is sent, the thread has reported its first chunk
    and has not returned, and the stream has closed.  And a step of the
    main thread during which a download thread is inside [send_message]. *)
Definition downloading : host :=
  host_of (execute Json.loads int_of_str (fixed_source resource) tmp_of
             ([Main quiet; Main quiet] ++ replicate 4 (Thread 0))
             (Running (boot start_stream))).

Definition hasty : oracle :=
  {| interrupt := false; uuid4 := 0; collaborator := PyNone; stdout_busy := true |}.


Definition pause_of (did : value) : list (string * value) :=
  [("type", PyStr "download_pause"); ("id", did)].

(** The events that end a transfer. *)
Definition is_terminal (e : value) : bool :=
  is_event "done" e || is_event "cancelled" e || is_event "error" e.

(** The byte counts that the progress events among [evs] report. *)
Fixpoint progress_counts (evs : list value) : list Z :=
  match evs with
  | [] => []
  | e :: evs' =>
      match e with
      | PyDict kv =>
          if is_str (dict_get "type" kv) "progress" then
            match dict_get "downloaded" kv with
            | PyInt n => n :: progress_counts evs'
            | _ => progress_counts evs'
            end
          else progress_counts evs'
      | _ => progress_counts evs'
      end
  end.

(** Each count is above the one before it ([d] to begin with) by at least
    one byte and at most a chunk. *)
Fixpoint climbs (d : Z) (counts : list Z) : Prop :=
  match counts with
  | [] => True
  | c :: counts' => (d < c <= d + chunk_size)%Z /\ climbs c counts'
  end.

(** The thread that [main] starts for [serving], and a host whose one
    transfer has its request open and its cancel flag set. *)
Definition serving_thread : transfer :=
  threaded_download session_id request (new_info session_id (PyStr "http://host/file")).

Definition cancelling : host :=
  {| stdin := []; DOWNLOADS := {[ "d" := 0%nat ]}; threads := [cancelled_in_flight];
     sent := [] |}.

(** Before its request, [t] has written and counted nothing.  In its
    loop, it has written to its file what it has counted, and what it has
    written and what is still unread make up [whole], the body of the
    response.  Once it has returned, its file holds a beginning of
    [whole]. *)
Definition consistent (whole : list byte) (t : transfer) : Prop :=
  match t_pc t with
  | Request => file t = [] /\ downloaded t = 0%Z /\ mode t = wb
  | Finished => exists rest, whole = file t ++ rest
  | _ =>
      whole = file t ++ res_body t
      /\ Z.of_nat (length (file t)) = downloaded t
  end.

(** What the thread sends as it returns on a cancel: the Cancelled
    event, and the error event when the close of its file raises. *)
Definition cancel_events (fs : file_system) (t : transfer) : list value :=
  match fault fs (CloseFile (tf_path t) (file t)) with
  | None => [ev_cancelled (t_did t)]
  | Some (msg, _) => [ev_cancelled (t_did t); ev_error (t_did t) msg]
  end.

(** The file of [t] holds exactly what [t] has counted. *)
Definition intact (t : transfer) : Prop :=
  Z.of_nat (length (file t)) = downloaded t.

(** The event with which the loop returns once the body is exhausted:
    done, or the error of the fault that ended the body. *)
Definition closing_event (t : transfer) (size : Z) : value :=
  match res_fault t with
  | Some msg => ev_error (t_did t) msg
  | None => ev_done (t_did t) (tf_path t) size (final_url t) (status t)
  end.

(** The transfer of [started] while it waits in its pause: its first
    chunk is written, a [download_pause] has been handled and noticed. *)
Definition paused_in_flight : transfer :=
  fst (run int_of_str (fixed_source resource) tmp_of
         (replicate 4 Tick ++ [Pause] ++ replicate 3 Tick) started).

(** With the cancel flag set, the number of steps after which a thread at
    [l] has returned at the latest, whatever the pause flag and the
    response: [closer l k] says that [k] steps are enough. *)
Definition reach (l : pc) : nat :=
  match l with
  | Finished => 0
  | AtCancel | AfterPoll => 1
  | PollCancel | Request | ReadChunk => 2
  | PollPause => 3
  | AtPause => 4
  end.

Definition closer (l : pc) (k : nat) : Prop := (reach l <= k)%nat.

(** ** [stat_path] (lines 249-297)

    The function asks the operating system about one path and turns the
    answers into a response.  The answers are taken as given; what is
    modelled is which questions are asked and what is made of them. *)

(** [d.get(k, default)] tells a missing key from a key bound to [None]. *)
Fixpoint dict_find (k : string) (kv : list (string * value)) : option value :=
  match kv with
  | [] => None
  | (k', v) :: kv' => if String.eqb k k' then Some v else dict_find k kv'
  end.

(** The answers of the operating system for the path [abs_path]. *)
Record os_answers : Type := mk_os_answers {
  os_exists : bool;               (* os.path.exists(abs_path), line 262 *)
  os_isdir : bool;                (* os.path.isdir(abs_path), line 263 *)
  os_write_test : option string;  (* the fault of lines 267-270, if any *)
  os_statvfs : string + Z;        (* line 274 raises, or [free] of line 275 *)
  os_parent_writable : bool;      (* the condition of line 286 *)
  os_makedirs : option string     (* the fault of line 290, if any *)
}.

(** What the function does to the file system. *)
Inductive os_effect : Type :=
| WriteTestFile (dir : string)    (* lines 267-270: create, write, remove *)
| MakeDirs (dir : string).        (* line 290 *)

Definition sp_error (code : string) : value :=
  PyDict [("ok", PyBool false); ("error", PyStr code)].

Definition sp_error_msg (code msg : string) : value :=
  PyDict [("ok", PyBool false); ("error", PyStr code); ("msg", PyStr msg)].

Definition sp_ok (abs_path : string) : value :=
  PyDict [("ok", PyBool true); ("path", PyStr abs_path)].

Section StatPath.
(** [int(s)] on a string, and [str(ex)] of the [TypeError] that [int] and
    [os.path.abspath] raise on a value they do not accept. *)
Variable py_int : string -> option Z.
Variable type_error : value -> string.
Variable value_error : string -> string.
(** [os.path.abspath], and the operating system's answers for a path. *)
Variable abspath : string -> string.
Variable os : string -> os_answers.

(** [int(min_bytes)] of line 276; [inl msg] when it raises. *)
Definition int_of_value (v : value) : string + Z :=
  match v with
  | PyInt n => inr n
  | PyBool b => inr (if b then 1 else 0)%Z
  | PyStr s => match py_int s with Some n => inr n | None => inl (value_error s) end
  | _ => inl (type_error v)
  end.

(** Lines 272-280, once the write test has passed. *)
Definition check_space (min_bytes : value) (abs_path : string) : value :=
  match min_bytes with
  | PyNone => sp_ok abs_path
  | _ =>
      match os_statvfs (os abs_path) with
      | inl msg => sp_error_msg "statvfs_failed" msg
      | inr free =>
          match int_of_value min_bytes with
          | inl msg => sp_error_msg "statvfs_failed" msg
          | inr required =>
              if (free <? required)%Z
              then PyDict [("ok", PyBool false); ("error", PyStr "insufficient_space");
                           ("free_bytes", PyInt free)]
              else sp_ok abs_path
          end
      end
  end.

(** The response, and what was done to the file system on the way. *)
Definition stat_path (req : list (string * value)) : value * list os_effect :=
  let path := dict_get "path" req in
  let min_bytes := dict_get "required_bytes" req in
  let auto_create := truthy (dict_get "auto_create" req) in
  if negb (truthy path) then (sp_error "no_path", [])
  else
    match path with
    | PyStr p =>
        let abs_path := abspath p in
        if os_exists (os abs_path) then
          if negb (os_isdir (os abs_path)) then (sp_error "not_directory", [])
          else
            match os_write_test (os abs_path) with
            | Some msg => (sp_error_msg "not_writable" msg, [WriteTestFile abs_path])
            | None => (check_space min_bytes abs_path, [WriteTestFile abs_path])
            end
        else if os_parent_writable (os abs_path) then
          if auto_create then
            match os_makedirs (os abs_path) with
            | None =>
                (PyDict [("ok", PyBool true); ("path", PyStr abs_path);
                         ("created", PyBool true)], [MakeDirs abs_path])
            | Some msg => (sp_error_msg "create_failed" msg, [MakeDirs abs_path])
            end
          else (sp_ok abs_path, [])
        else (sp_error "parent_not_writable", [])
    | _ => (sp_error (type_error path), [])
    end.

End StatPath.


(** [os.path.dirname] of posixpath: what stands before the last slash,
    without the slashes that end it unless it is made of slashes only. *)
Fixpoint drop_slashes (l : list ascii) : list ascii :=
  match l with
  | c :: l' => if Ascii.eqb c "/" then drop_slashes l' else l
  | [] => []
  end.

Definition dirname (p : string) : string :=
  match rfind_slash p with
  | Some i =>
      let head := list_ascii_of_string (substring 0 (S i) p) in
      if forallb (Ascii.eqb "/") head then string_of_list_ascii head
      else string_of_list_ascii (rev (drop_slashes (rev head)))
  | None => EmptyString
  end.

(** The file system of the tests of [tests/test_stat_path.py]: the
    temporary directory [/tmp/td] exists and is writable with 1000 free
    bytes, and nothing else exists; so the parent of a path exists and is
    writable (line 286) only when it is [/tmp/td] itself. *)
Definition test_os (abs_path : string) : os_answers :=
  {| os_exists := String.eqb abs_path "/tmp/td";
     os_isdir := String.eqb abs_path "/tmp/td";
     os_write_test := None;
     os_statvfs := inr 1000%Z;
     os_parent_writable := String.eqb (dirname abs_path) "/tmp/td";
     os_makedirs := None |}.

Definition no_msg (v : value) : string := "TypeError".
Definition no_msg_s (s : string) : string := "ValueError".
Definition same_path (p : string) : string := p.

(** Two requests for a directory that is still to be created, with and
    without a demand for free space. *)
Definition stat_new : list (string * value) := [("path", PyStr "/tmp/td/new")].

Definition stat_new_space : list (string * value) :=
  [("path", PyStr "/tmp/td/new"); ("required_bytes", PyInt (2 ^ 60))].

(** ** Building requests: [perform_preroll] (lines 43-64) and lines 91-98
    of [threaded_download] *)

(** [for h in v]: the items of a list, the keys of a dictionary, the
    characters of a string; anything else is not iterable. *)
Definition py_iter (v : value) : outcome (list value) :=
  match v with
  | PyList l => Return l
  | PyDict kv => Return (map (fun p => PyStr (fst p)) kv)
  | PyStr s => Return (map (fun c => PyStr (String c EmptyString)) (list_ascii_of_string s))
  | _ => Raise TypeError
  end.

Section Requests.
(** [str.capitalize]. *)
Variable capitalize : string -> string.
(** Whether [urllib.request.Request(url, ...)] accepts the URL; it raises
    [ValueError] otherwise. *)
Variable url_ok : value -> bool.

(** [req_obj.add_header(key, val)] is
    [self.headers[key.capitalize()] = val]: a key that is not a string
    has no [capitalize]. *)
Definition add_header (key val : value) (headers : list (string * value))
  : outcome (list (string * value)) :=
  match key with
  | PyStr k => Return (Json.dict_set (capitalize k) val headers)
  | _ => Raise AttributeError
  end.

(** Lines 54-56 and 94-96: the entries that are dictionaries with both a
    ['name'] and a ['value'] are added, the others are passed over. *)
Fixpoint add_headers (hs : list value) (headers : list (string * value))
  : outcome (list (string * value)) :=
  match hs with
  | [] => Return headers
  | h :: hs' =>
      match h with
      | PyDict kv =>
          match dict_find "name" kv, dict_find "value" kv with
          | Some name, Some val =>
              match add_header name val headers with
              | Return headers' => add_headers hs' headers'
              | Raise e => Raise e
              end
          | _, _ => add_headers hs' headers
          end
      | _ => add_headers hs' headers
      end
  end.

(** Lines 44-56: the headers of the request that line 58 opens. *)
Definition preroll_headers (req : list (string * value))
  : outcome (list (string * value)) :=
  let referrer := dict_get "referrer" req in
  let range_header := default (PyStr "bytes=0-1") (dict_find "range" req) in
  if negb (url_ok (dict_get "url" req)) then Raise ValueError
  else
    match add_header (PyStr "Range") range_header [] with
    | Raise e => Raise e
    | Return h1 =>
        match (if truthy referrer then add_header (PyStr "Referer") referrer h1
               else Return h1) with
        | Raise e => Raise e
        | Return h2 =>
            match py_iter (default (PyList []) (dict_find "headers" req)) with
            | Raise e => Raise e
            | Return hs => add_headers hs h2
            end
        end
    end.

(** Lines 91-98 of [threaded_download]: the headers of the request that
    line 100 opens when [downloaded] bytes are already there. *)
Definition download_headers (req : list (string * value)) (downloaded : Z)
  : outcome (list (string * value)) :=
  let referrer := dict_get "referrer" req in
  let body := dict_get "body" req in
  if truthy body && negb (match body with PyStr _ => true | _ => false end)
  then Raise AttributeError
  else if negb (url_ok (dict_get "url" req)) then Raise ValueError
  else
    match (if truthy referrer then add_header (PyStr "Referer") referrer []
           else Return []) with
    | Raise e => Raise e
    | Return h1 =>
        match py_iter (default (PyList []) (dict_find "headers" req)) with
        | Raise e => Raise e
        | Return hs =>
            match add_headers hs h1 with
            | Raise e => Raise e
            | Return h2 =>
                if negb (downloaded =? 0)%Z
                then add_header (PyStr "Range")
                       (PyStr ("bytes=" +:+ Json.str_of_int downloaded +:+ "-")) h2
                else Return h2
            end
        end
    end.

End Requests.

(** An entry of ['headers'] that lines 55 and 95 let through. *)
Definition well_formed_header (h : value) : bool :=
  match h with
  | PyDict kv =>
      match dict_find "name" kv, dict_find "value" kv with
      | Some _, Some _ => true
      | _, _ => false
      end
  | _ => false
  end.

(** A request that brings a Range header of its own. *)
Definition ranged_request : list (string * value) :=
  [("url", PyStr "http://host/file"); ("range", PyStr "bytes=0-0");
   ("headers",
    PyList [PyDict [("name", PyStr "range"); ("value", PyStr "bytes=5-9")];
            PyStr "junk";
            PyDict [("name", PyStr "X-Only-Name")]])].

(** [str.capitalize] on ASCII letters. *)
Definition ascii_upper (c : ascii) : ascii :=
  let n := N_of_ascii c in
  if ((97 <=? n) && (n <=? 122))%N then ascii_of_N (n - 32) else c.

Definition ascii_lower (c : ascii) : ascii :=
  let n := N_of_ascii c in
  if ((65 <=? n) && (n <=? 90))%N then ascii_of_N (n + 32) else c.

Definition ascii_capitalize (s : string) : string :=
  match s with
  | EmptyString => EmptyString
  | String c s' =>
      String (ascii_upper c)
        (string_of_list_ascii (map ascii_lower (list_ascii_of_string s')))
  end.

Definition any_url (url : value) : bool := true.

(** A request whose ['headers'] is a string and not a list. *)
Definition string_headers_request : list (string * value) :=
  [("url", PyStr "http://host/file"); ("referrer", PyStr "http://host/");
   ("headers", PyStr "Range: bytes=5-9")].

(** ** The packaging script (src/util/build.py)

    Of the script, the decisions that do not depend on the archive library
    are embedded: which files the licence check reads, and which
    permissions the Chromium manifest keeps. *)

Definition LICENSED : list string := [".css"; ".html"; ".js"; "*.ts"].
Definition PERM_IGNORED_CHROME : list string := ["menus"; "sessions"; "theme"].
Definition all_urls : string := "<all_urls>".

(** [needle in hay] on (byte) strings. *)
Fixpoint starts_with (needle hay : string) : bool :=
  match needle, hay with
  | EmptyString, _ => true
  | String _ _, EmptyString => false
  | String a needle', String b hay' => Ascii.eqb a b && starts_with needle' hay'
  end.

Fixpoint contains (needle hay : string) : bool :=
  starts_with needle hay
  || match hay with
     | EmptyString => false
     | String _ hay' => contains needle hay'
     end.

(** A path that [glob] gives, with what [open("rb")] and [read] give for
    it: [None] when it cannot be opened (a directory, say). *)
Record source_file := { path : string; content : option string }.

(** What [check_licenses] raises. *)
Inductive build_exn :=
  | NoLicense (name : string)
  | OSError.

Section Build.
(** [Path.suffix], as a function of the path. *)
Variable suffix : string -> string.

(** Lines 40-48, over the paths that [Path().glob] gives: the
    exception raised, if any. *)
Fixpoint check_licenses (tree : list source_file) : option build_exn :=
  match tree with
  | [] => None
  | f :: tree' =>
      if contains "node_modules" (path f) then check_licenses tree'
      else if negb (bool_decide (suffix (path f) ∈ LICENSED))
      then check_licenses tree'
      else
        match content f with
        | None => Some OSError
        | Some buf =>
            if negb (contains "License:" buf) then Some (NoLicense (path f))
            else check_licenses tree'
        end
  end.

End Build.

(** [p in S] for a set [S] of strings: [p] is hashed first. *)
Definition in_set (p : value) (S : list string) : outcome bool :=
  match p with
  | PyList _ | PyDict _ => Raise TypeError
  | PyStr s => Return (bool_decide (s ∈ S))
  | _ => Return false
  end.

(** [[p for p in ps if not p in S]]. *)
Fixpoint without (S : list string) (ps : list value) : outcome (list value) :=
  match ps with
  | [] => Return []
  | p :: ps' =>
      match in_set p S with
      | Raise e => Raise e
      | Return b =>
          match without S ps' with
          | Raise e => Raise e
          | Return l => Return (if b then l else p :: l)
          end
      end
  end.

Definition is_all_urls (p : value) : bool :=
  match p with
  | PyStr s => String.eqb s all_urls
  | _ => false
  end.

(** Lines 135-144 of [build_chromium]: the ['permissions'] of the
    generated manifest and its ['host_permissions'] (empty: the key is not
    set). *)
Definition chromium_permissions (infos : list (string * value))
  : outcome (list value * list value) :=
  match py_iter (default (PyList []) (dict_find "permissions" infos)) with
  | Raise e => Raise e
  | Return ps =>
      match without PERM_IGNORED_CHROME ps with
      | Raise e => Raise e
      | Return base_perms =>
          if existsb is_all_urls base_perms
          then Return (filter (fun p => is_all_urls p = false) base_perms,
                       [PyStr all_urls])
          else Return (base_perms, [])
      end
  end.

(** [Path.suffix] of pathlib: the name from its last dot on, when that
    dot is neither the first nor the last character. *)
Definition path_suffix (p : string) : string :=
  let name := path_name p in
  match rfind_dot name with
  | Some i =>
      if (0 <? i)%nat && (i <? String.length name - 1)%nat
      then string_drop i name else EmptyString
  | None => EmptyString
  end.

(** A source tree: the TypeScript file has no licence header. *)
Definition source_tree : list source_file :=
  [ {| path := "lib/api.ts"; content := Some "export {};" |};
    {| path := "style/main.css"; content := Some "/* License: MIT */" |};
    {| path := "node_modules/x/index.js"; content := Some "module.exports = 1" |};
    {| path := "windows"; content := None |} ].

(** A manifest of the extension. *)
Definition manifest : list (string * value) :=
  [("name", PyStr "DownThemAll!");
   ("permissions",
    PyList [PyStr "<all_urls>"; PyStr "downloads"; PyStr "menus";
            PyStr "webRequest"; PyStr "theme"])].

(** * Properties *)

(** ** The length prefix *)

Lemma to_N_byte_of_N (n : N) : Byte.to_N (byte_of_N n) = (n mod 256)%N.
Proof.
  unfold byte_of_N.
  destruct (Byte.of_N (n mod 256)) as [b|] eqn:E.
  - by apply Byte.to_of_N.
  - apply Byte.of_N_None_iff in E.
    pose proof (N.mod_upper_bound n 256). lia.
Qed.

Lemma pack_I_length (n : N) (p : list byte) : pack_I n = Some p -> length p = 4%nat.
Proof.
  unfold pack_I. destruct (n <? 2 ^ 32)%N; [|done].
  by intros [= <-].
Qed.

Lemma pack_I_fits (n : N) : (n < 2 ^ 32)%N -> is_Some (pack_I n).
Proof.
  intros H. unfold pack_I.
  destruct (N.ltb_spec n (2 ^ 32)); [eauto | lia].
Qed.

Lemma unpack_pack (n : N) (p : list byte) : pack_I n = Some p -> unpack_I p = Some n.
Proof.
  unfold pack_I. destruct (N.ltb_spec n (2 ^ 32)) as [Hlt|]; [|done].
  intros [= <-]. unfold unpack_I. rewrite !to_N_byte_of_N. f_equal.
  change (2 ^ 32)%N with 4294967296%N in Hlt.
  change 65536%N with (256 * 256)%N at 2.
  change 16777216%N with (256 * 256 * 256)%N at 2.
  rewrite <- !N.Div0.div_div.
  set (q1 := (n / 256)%N). set (q2 := (q1 / 256)%N). set (q3 := (q2 / 256)%N).
  pose proof (N.div_mod n 256). pose proof (N.div_mod q1 256).
  pose proof (N.div_mod q2 256).
  assert (q3 < 256)%N.
  { subst q3 q2 q1. rewrite !N.Div0.div_div.
    apply N.Div0.div_lt_upper_bound; lia. }
  rewrite (N.mod_small q3) by lia.
  fold q1 in H. fold q2 in H0. fold q3 in H1. lia.
Qed.

Lemma read_app (l rest : list byte) : read (N.of_nat (length l)) (l ++ rest) = (l, rest).
Proof.
  unfold read. rewrite Nat2N.id.
  by rewrite take_app_length, drop_app_length.
Qed.

(** ** The framed channel *)

Section FramingProperties.
Variable loads : list byte -> option value.
Variable dumps : value -> list byte.

Lemma send_message_frame (message : value) (stdout : list byte) :
  (N.of_nat (length (dumps message)) < 2 ^ 32)%N ->
  exists prefix,
    pack_I (N.of_nat (length (dumps message))) = Some prefix
    /\ frame dumps message = prefix ++ dumps message
    /\ send_message dumps message stdout
       = (Return tt, stdout ++ frame dumps message).
Proof.
  intros Hfit. destruct (pack_I_fits _ Hfit) as [prefix Hp].
  exists prefix. unfold frame, send_message. rewrite Hp. simpl.
  by rewrite <- (assoc_L (++)).
Qed.

Lemma read_message_frame (message : value) (prefix rest : list byte) :
  pack_I (N.of_nat (length (dumps message))) = Some prefix ->
  read_message loads ((prefix ++ dumps message) ++ rest)
  = (match loads (dumps message) with
     | Some v => Return v
     | None => Raise ValueError
     end, rest).
Proof.
  intros Hp. unfold read_message.
  pose proof (pack_I_length _ _ Hp) as Hlen.
  rewrite <- !(assoc_L (++)).
  change 4%N with (N.of_nat 4). rewrite <- Hlen, read_app.
  destruct prefix as [|b0 prefix']; [done|].
  rewrite (unpack_pack _ _ Hp), read_app.
  by destruct (loads (dumps message)).
Qed.

(** C5.  A message written as a frame (the 4-byte little-endian length
    of its encoding, then the encoding) and read back is the message:
    [read_message] after [send_message] returns it and leaves what
    follows the frame on the stream.  The codec is the JSON library's; the
    statement holds for every message that the library itself maps back
    to the message, and whose encoding fits the 32-bit prefix. *)
Theorem read_message_send_message (message : value) (stdout rest : list byte) :
  (N.of_nat (length (dumps message)) < 2 ^ 32)%N ->
  loads (dumps message) = Some message ->
  send_message dumps message stdout = (Return tt, stdout ++ frame dumps message)
  /\ (exists prefix,
        unpack_I prefix = Some (N.of_nat (length (dumps message)))
        /\ frame dumps message = prefix ++ dumps message)
  /\ read_message loads (frame dumps message ++ rest) = (Return message, rest).
Proof.
  intros Hfit Hcodec.
  destruct (send_message_frame message stdout Hfit) as (prefix & Hp & Hframe & Hsend).
  split; [done|]. split.
  - exists prefix. split; [by apply unpack_pack | done].
  - rewrite Hframe, (read_message_frame _ _ _ Hp). by rewrite Hcodec.
Qed.

Lemma read_message_end_of_stream : read_message loads [] = (Return PyNone, []).
Proof. reflexivity. Qed.

Lemma read_message_short_prefix (stdin : list byte) :
  truncated_prefix stdin -> read_message loads stdin = (Raise StructError, []).
Proof.
  unfold truncated_prefix. intros [Hpos Hlt].
  destruct stdin as [|b0 [|b1 [|b2 [|b3 stdin']]]]; simpl in *; try lia; done.
Qed.

Lemma read_message_short_payload (stdin : list byte) :
  truncated_payload stdin ->
  read_message loads stdin
  = (match loads (drop 4 stdin) with
     | Some v => Return v
     | None => Raise ValueError
     end, []).
Proof.
  intros (n & Hn & Hshort). unfold read_message, read.
  change (N.to_nat 4) with 4%nat.
  destruct (take 4 stdin) as [|b0 raw] eqn:Hraw; [done|].
  rewrite Hn.
  rewrite (take_ge (drop 4 stdin)), (drop_ge (drop 4 stdin)) by lia.
  by destruct (loads (drop 4 stdin)).
Qed.

(** C3, as the code has it.  A stream that closes inside the 4-byte
    prefix makes [read_message] raise [struct.error], which is not the
    [None] it returns on a stream that closed before any byte.  A stream
    that closes inside the payload is not detected as such: the bytes that
    did arrive are decoded, an error is raised only when they do not
    decode, and otherwise their value is returned as the message. *)
Theorem read_message_truncated (stdin : list byte) :
  truncated_prefix stdin \/ truncated_payload stdin ->
  (truncated_prefix stdin
   /\ read_message loads stdin = (Raise StructError, [])
   /\ fst (read_message loads stdin) <> fst (read_message loads []))
  \/ (truncated_payload stdin
      /\ read_message loads stdin
         = (match loads (drop 4 stdin) with
            | Some v => Return v
            | None => Raise ValueError
            end, [])).
Proof.
  intros [Hp|Hp].
  - left. split; [done|]. rewrite (read_message_short_prefix _ Hp).
    split; [done|]. by rewrite read_message_end_of_stream.
  - right. split; [done|]. by apply read_message_short_payload.
Qed.

End FramingProperties.

(** The reply to an unknown command, encoded and framed with the JSON
    codec, is read back unchanged. *)
Lemma read_message_send_message_witness :
  send_message Json.dumps (error_response "unknown type") []
  = (Return tt, frame Json.dumps (error_response "unknown type"))
  /\ (exists prefix,
        unpack_I prefix
        = Some (N.of_nat (length (Json.dumps (error_response "unknown type"))))
        /\ frame Json.dumps (error_response "unknown type")
           = prefix ++ Json.dumps (error_response "unknown type"))
  /\ read_message Json.loads (frame Json.dumps (error_response "unknown type") ++ [])
     = (Return (error_response "unknown type"), []).
Proof.
  apply (read_message_send_message Json.loads Json.dumps
           (error_response "unknown type") [] []).
  - vm_compute. reflexivity.
  - vm_compute. reflexivity.
Defined.

Lemma short_frame_truncated : truncated_payload short_frame.
Proof. exists 5%N. split; [reflexivity | simpl; lia]. Qed.

(** C3, as the specification states it, fails: the truncated frame
    [short_frame] is returned as the message [{}], not reported. *)
Lemma truncated_frame_accepted :
  ~ (forall stdin : list byte,
       truncated_prefix stdin \/ truncated_payload stdin ->
       exists e, fst (read_message Json.loads stdin) = Raise e).
Proof.
  intros H.
  destruct (H short_frame (or_intror short_frame_truncated)) as [e He].
  vm_compute in He. discriminate He.
Qed.

Example short_frame_read :
  read_message Json.loads short_frame = (Return (PyDict []), []).
Proof. vm_compute. reflexivity. Qed.

(** A truncated frame whose payload is [null] gives the very outcome of a
    closed stream. *)
Example short_null_frame_is_end_of_stream :
  truncated_payload ([x09; x00; x00; x00] ++ list_byte_of_string "null")
  /\ read_message Json.loads ([x09; x00; x00; x00] ++ list_byte_of_string "null")
     = read_message Json.loads [].
Proof.
  split; [|vm_compute; reflexivity].
  exists 9%N. split; [reflexivity | simpl; lia].
Qed.

Lemma read_message_truncated_witness :
  (truncated_prefix short_frame
   /\ read_message Json.loads short_frame = (Raise StructError, [])
   /\ fst (read_message Json.loads short_frame) <> fst (read_message Json.loads []))
  \/ (truncated_payload short_frame
      /\ read_message Json.loads short_frame
         = (match Json.loads (drop 4 short_frame) with
            | Some v => Return v
            | None => Raise ValueError
            end, [])).
Proof.
  apply (read_message_truncated Json.loads short_frame).
  right. exists 5%N. split; [reflexivity | simpl; lia].
Defined.

(** ** The retrieval loop *)

Lemma chunk_size_positive : (0 < Z.to_nat chunk_size)%nat.
Proof. apply Nat.ltb_lt. vm_compute. reflexivity. Qed.

Lemma take_chunk_nil (l : list byte) : take (Z.to_nat chunk_size) l = [] -> l = [].
Proof.
  pose proof chunk_size_positive as Hpos.
  destruct (Z.to_nat chunk_size); [lia|]. by destruct l.
Qed.

Section TransferProperties.
Variable py_int : string -> option Z.
Variable urlopen : value -> option Z -> opened.
Variable fs : file_system.

Local Abbreviation step' := (step py_int urlopen fs).
Local Abbreviation perform' := (perform py_int urlopen fs).
Local Abbreviation run' := (run py_int urlopen fs).
Local Opaque chunk_size.

Lemma run_app (s1 s2 : list action) (t : transfer) :
  run' (s1 ++ s2) t
  = (fst (run' s2 (fst (run' s1 t))), snd (run' s1 t) ++ snd (run' s2 (fst (run' s1 t)))).
Proof.
  revert t. induction s1 as [|a s1 IH]; intros t; simpl.
  - by destruct (run' s2 t).
  - destruct (perform' a t) as [t1 evs1]. rewrite IH.
    destruct (run' s1 t1) as [t2 evs2]. simpl.
    by rewrite (assoc_L (++)).
Qed.

(** A step of the thread either leaves [downloaded] alone or is the read
    of a chunk that is not empty, appended to the file and counted. *)
Lemma step_downloaded (t : transfer) :
  (downloaded (fst (step' t)) = downloaded t
   /\ counted (t_info (fst (step' t))) = counted (t_info t))
  \/ (t_pc t = ReadChunk
      /\ exists chunk,
          chunk <> []
          /\ chunk = take (Z.to_nat chunk_size) (res_body t)
          /\ downloaded (fst (step' t)) = (downloaded t + Z.of_nat (length chunk))%Z
          /\ counted (t_info (fst (step' t))) = downloaded (fst (step' t))
          /\ file (fst (step' t)) = file t ++ chunk).
Proof.
  unfold step. destruct (t_pc t) eqn:Hpc;
    try (left; unfold connect, leave; by repeat case_match).
  destruct (take (Z.to_nat chunk_size) (res_body t)) as [|b chunk] eqn:Hchunk.
  - left. unfold leave. by repeat case_match.
  - destruct (fault fs _) as [[msg kept]|].
    + left. unfold leave. by repeat case_match.
    + right. split; [done|]. by exists (b :: chunk).
Qed.

Lemma perform_downloaded (a : action) (t : transfer) :
  (downloaded t <= downloaded (fst (perform' a t)))%Z
  /\ (counted (t_info t) = downloaded t ->
      counted (t_info (fst (perform' a t))) = downloaded (fst (perform' a t))).
Proof.
  destruct a; simpl; try (split; [lia | done]).
  destruct (step_downloaded t) as [[-> ->]|(_ & chunk & _ & _ & -> & Hc & _)].
  - split; [lia | done].
  - split; [lia | done].
Qed.

Lemma run_downloaded (sched : list action) (t : transfer) :
  (downloaded t <= downloaded (fst (run' sched t)))%Z
  /\ (counted (t_info t) = downloaded t ->
      counted (t_info (fst (run' sched t))) = downloaded (fst (run' sched t))).
Proof.
  revert t. induction sched as [|a sched IH]; intros t; simpl; [split; [lia|done]|].
  destruct (perform_downloaded a t) as [Hle Hsync].
  destruct (perform' a t) as [t1 evs1]. simpl in *.
  destruct (IH t1) as [Hle' Hsync'].
  destruct (run' sched t1) as [t2 evs2]. simpl in *.
  split; [lia | auto].
Qed.

(** C8.  The byte count of a transfer never decreases.  Whatever happens
    to the transfer (a step of its loop, or a pause, resume or cancel
    handled by the dispatcher) either leaves [downloaded] as it is or is
    the write of a chunk that is not empty, which adds the length of the
    chunk; so over any schedule the local count, and the count kept in the
    registry for a transfer that [main] started, only grow. *)
Theorem downloaded_never_decreases :
  (forall (a : action) (t : transfer),
     downloaded (fst (perform' a t)) = downloaded t
     \/ (a = Tick /\ t_pc t = ReadChunk
         /\ exists chunk,
             chunk <> []
             /\ downloaded (fst (perform' a t))
                = (downloaded t + Z.of_nat (length chunk))%Z
             /\ file (fst (perform' a t)) = file t ++ chunk))
  /\ (forall (sched : list action) (t : transfer),
        (downloaded t <= downloaded (fst (run' sched t)))%Z)
  /\ (forall (did : string) (req url : value) (sched more : list action),
        let t0 := threaded_download did req (new_info did url) in
        (0 <= counted (t_info (fst (run' sched t0)))
         <= counted (t_info (fst (run' (sched ++ more) t0))))%Z).
Proof.
  split; [|split].
  - intros a t. destruct a; simpl; try by left.
    destruct (step_downloaded t) as [[H _]|(Hpc & chunk & Hne & _ & Hd & _ & Hf)].
    + by left.
    + right. split; [done|]. split; [done|]. by exists chunk.
  - intros sched t. apply run_downloaded.
  - intros did req url sched more t0. rewrite run_app. simpl.
    assert (Hsync : counted (t_info t0) = downloaded t0) by done.
    destruct (run_downloaded sched t0) as [Hle Hs]. specialize (Hs Hsync).
    destruct (run_downloaded more (fst (run' sched t0))) as [Hle' Hs'].
    specialize (Hs' Hs). rewrite Hs, Hs'.
    change (downloaded t0) with 0%Z in Hle. lia.
Qed.

End TransferProperties.

Section TransferEvents.
Variable py_int : string -> option Z.
Variable urlopen : value -> option Z -> opened.
Variable fs : file_system.

Local Abbreviation step' := (step py_int urlopen fs).
Local Abbreviation perform' := (perform py_int urlopen fs).
Local Abbreviation run' := (run py_int urlopen fs).
Local Opaque chunk_size.

(** The dispatcher writes flags only: the thread's position, its
    identifier, its file and its cancel flag, once set, stay. *)
Lemma perform_flag (a : action) (t : transfer) :
  a <> Tick ->
  snd (perform' a t) = []
  /\ t_pc (fst (perform' a t)) = t_pc t
  /\ t_did (fst (perform' a t)) = t_did t
  /\ total (fst (perform' a t)) = total t
  /\ (cancel (t_info t) = true -> cancel (t_info (fst (perform' a t))) = true).
Proof. by destruct a. Qed.

Lemma perform_flag_file (a : action) (t : transfer) :
  a <> Tick ->
  tf_path (fst (perform' a t)) = tf_path t /\ file (fst (perform' a t)) = file t.
Proof. by destruct a. Qed.

Lemma run_finished (sched : list action) (t : transfer) :
  t_pc t = Finished ->
  snd (run' sched t) = [] /\ t_pc (fst (run' sched t)) = Finished.
Proof.
  revert t. induction sched as [|a sched IH]; intros t Hpc; simpl; [done|].
  destruct a; simpl.
  - unfold step. rewrite Hpc.
    destruct (IH t Hpc) as [He Hp]. by destruct (run' sched t).
  - destruct (IH (with_info (set_pause true) t) Hpc) as [He Hp].
    by destruct (run' sched _).
  - destruct (IH (with_info (set_pause false) t) Hpc) as [He Hp].
    by destruct (run' sched _).
  - destruct (IH (with_info set_cancel t) Hpc) as [He Hp].
    by destruct (run' sched _).
Qed.

(** Leaving the [with] block: the thread has returned, and has sent
    [before] followed by [after], or by the error of the close. *)
Lemma leave_returns (before after : list value) (t : transfer) :
  t_pc (fst (leave fs before after t)) = Finished
  /\ t_did (fst (leave fs before after t)) = t_did t
  /\ match fault fs (CloseFile (tf_path t) (file t)) with
     | None => snd (leave fs before after t) = before ++ after
     | Some (msg, _) =>
         snd (leave fs before after t) = before ++ [ev_error (t_did t) msg]
     end.
Proof. unfold leave. by destruct (fault fs _) as [[msg kept]|]. Qed.

(** At line 126 or 134 with the flag set: the next step of the thread
    sends the Cancelled event and returns. *)
Lemma cancel_at_check (sched : list action) (t : transfer) :
  t_pc t = AtCancel \/ t_pc t = AfterPoll ->
  cancel (t_info t) = true ->
  (ticks sched = 0%nat /\ snd (run' sched t) = [])
  \/ ((1 <= ticks sched)%nat
      /\ snd (run' sched t) = cancel_events fs t
      /\ t_pc (fst (run' sched t)) = Finished).
Proof.
  revert t. induction sched as [|a sched IH]; intros t Hpc Hc; [by left|].
  destruct (decide (a = Tick)) as [->|Hne].
  - right. simpl.
    assert (Hstep : step' t = leave fs [ev_cancelled (t_did t)] [] t).
    { unfold step. by destruct Hpc as [-> | ->]; rewrite Hc. }
    rewrite Hstep.
    destruct (leave_returns [ev_cancelled (t_did t)] [] t) as (Hfin & _ & Hev).
    destruct (run_finished sched _ Hfin) as [He Hp].
    destruct (leave fs _ _ t) as [t1 evs1]. simpl in *.
    destruct (run' sched t1) as [t2 evs2]. simpl in *. subst evs2.
    split; [lia|]. split; [|done]. rewrite (right_id_L [] (++)).
    unfold cancel_events. by destruct (fault fs _) as [[msg kept]|].
  - destruct (perform_flag a t Hne) as (He & Hp & Hd & _ & Hc').
    destruct (perform_flag_file a t Hne) as [Hpath Hfile].
    assert (Hpc' : t_pc (fst (perform' a t)) = AtCancel
                   \/ t_pc (fst (perform' a t)) = AfterPoll) by (by rewrite Hp).
    specialize (IH _ Hpc' (Hc' Hc)).
    assert (Hsame : cancel_events fs (fst (perform' a t)) = cancel_events fs t).
    { unfold cancel_events. by rewrite Hpath, Hfile, Hd. }
    rewrite Hsame in IH.
    assert (Hticks : ticks (a :: sched) = ticks sched) by (by destruct a).
    rewrite Hticks. simpl.
    destruct (perform' a t) as [t1 evs1]. simpl in *. subst evs1.
    by destruct (run' sched t1).
Qed.

(** At the second operand of line 132 with the flag set: the polling
    loop is left, line 134 reads the flag again, and the event follows. *)
Lemma cancel_at_poll (sched : list action) (t : transfer) :
  t_pc t = PollCancel ->
  cancel (t_info t) = true ->
  ((ticks sched < 2)%nat /\ snd (run' sched t) = [])
  \/ ((2 <= ticks sched)%nat
      /\ snd (run' sched t) = cancel_events fs t
      /\ t_pc (fst (run' sched t)) = Finished).
Proof.
  revert t. induction sched as [|a sched IH]; intros t Hpc Hc; [left; simpl; split; [lia|done]|].
  destruct (decide (a = Tick)) as [->|Hne].
  - simpl. unfold step. rewrite Hpc, Hc. simpl.
    destruct (cancel_at_check sched (goto AfterPoll t) (or_intror eq_refl) Hc)
      as [[Ht He]|(Ht & He & Hp)];
      destruct (run' sched (goto AfterPoll t)) as [t2 evs2]; simpl in *.
    + left. split; [lia | done].
    + right. split; [lia | done].
  - destruct (perform_flag a t Hne) as (He & Hp & Hd & _ & Hc').
    destruct (perform_flag_file a t Hne) as [Hpath Hfile].
    assert (Hpc' : t_pc (fst (perform' a t)) = PollCancel) by (by rewrite Hp).
    specialize (IH _ Hpc' (Hc' Hc)).
    assert (Hsame : cancel_events fs (fst (perform' a t)) = cancel_events fs t).
    { unfold cancel_events. by rewrite Hpath, Hfile, Hd. }
    rewrite Hsame in IH.
    assert (Hticks : ticks (a :: sched) = ticks sched) by (by destruct a).
    rewrite Hticks. simpl.
    destruct (perform' a t) as [t1 evs1]. simpl in *. subst evs1.
    by destruct (run' sched t1).
Qed.

(** A step sends nothing, or one event, or, as it returns on a cancel
    while the close of its file fails, the Cancelled event and the error
    event.  A Cancelled event is sent only by a step that returns. *)
Lemma step_event (t : transfer) :
  snd (step' t) = []
  \/ (exists e, snd (step' t) = [e]
                /\ (is_event "cancelled" e = true -> t_pc (fst (step' t)) = Finished))
  \/ (exists msg, snd (step' t) = [ev_cancelled (t_did t); ev_error (t_did t) msg]
                  /\ t_pc (fst (step' t)) = Finished).
Proof.
  unfold step. destruct (t_pc t);
    try (unfold connect, leave; repeat case_match; simpl;
         first [ by left | right; left; by eexists | right; right; by eexists ]).
Qed.

Lemma nothing_after_cancelled (sched : list action) (t : transfer)
  (before after : list value) (e : value) :
  snd (run' sched t) = before ++ e :: after ->
  is_event "cancelled" e = true ->
  after = []
  \/ exists did msg,
      after = [PyDict [("type", PyStr "error"); ("id", PyStr did);
                       ("error", PyStr msg)]].
Proof.
  revert t before. induction sched as [|a sched IH]; intros t before Hrun He; simpl in Hrun.
  - by destruct before.
  - assert (Hone : snd (perform' a t) = []
                   \/ (exists e0, snd (perform' a t) = [e0]
                        /\ (is_event "cancelled" e0 = true
                            -> t_pc (fst (perform' a t)) = Finished))
                   \/ (exists msg,
                         snd (perform' a t)
                         = [ev_cancelled (t_did t); ev_error (t_did t) msg]
                         /\ t_pc (fst (perform' a t)) = Finished)).
    { destruct (decide (a = Tick)) as [->|Hne]; [apply step_event|].
      left. by apply perform_flag. }
    destruct (perform' a t) as [t1 evs1]. simpl in Hone.
    destruct (run' sched t1) as [t2 evs2] eqn:Hrest. simpl in Hrun.
    destruct Hone as [->|[(e0 & -> & Hfin)|(msg & -> & Hfin)]].
    + apply (IH t1 before). by rewrite Hrest. done.
    + destruct before as [|b before']; simpl in Hrun.
      * injection Hrun as <- <-. left.
        destruct (run_finished sched t1 (Hfin He)) as [Hnil _].
        by rewrite Hrest in Hnil.
      * injection Hrun as _ Hrun. apply (IH t1 before'). by rewrite Hrest. done.
    + destruct (run_finished sched t1 Hfin) as [Hnil _].
      rewrite Hrest in Hnil. simpl in Hnil. subst evs2.
      destruct before as [|b [|b' before']]; simpl in Hrun.
      * injection Hrun as <- <-. right. by exists (t_did t), msg.
      * injection Hrun as _ <- <-. by left.
      * injection Hrun as _ _ Hrun. by destruct before'.
Qed.

(** C2.  When the loop reads the cancel flag (before a chunk at line 126,
    inside the polling condition at line 132, after the poll at line 134)
    and finds it set, it sends exactly one Cancelled event,
    [{'type': 'cancelled', 'id': did}], with its first or second step (the
    second only when the flag was read inside the polling condition), and
    returns with that step.  Nothing precedes the event.  What follows it
    is nothing when the close of the destination file succeeds, and the
    one error event of line 153 when that close raises; in no run does a
    progress, done, paused or second Cancelled event follow a Cancelled
    event, and once the thread has returned it sends nothing more. *)
Theorem cancel_observed (t : transfer) (sched : list action) :
  reads_cancel (t_pc t) = true ->
  cancel (t_info t) = true ->
  let cancelled := PyDict [("type", PyStr "cancelled"); ("id", PyStr (t_did t))] in
  let error msg :=
    PyDict [("type", PyStr "error"); ("id", PyStr (t_did t)); ("error", PyStr msg)] in
  (snd (run' sched t) = []
   \/ snd (run' sched t) = [cancelled]
   \/ exists msg, snd (run' sched t) = [cancelled; error msg])
  /\ (fault fs (CloseFile (tf_path t) (file t)) = None ->
      snd (run' sched t) = [] \/ snd (run' sched t) = [cancelled])
  /\ ((2 <= ticks sched)%nat \/ ((1 <= ticks sched)%nat /\ t_pc t <> PollCancel) ->
      (exists tail, snd (run' sched t) = cancelled :: tail)
      /\ t_pc (fst (run' sched t)) = Finished
      /\ forall more, snd (run' more (fst (run' sched t))) = [])
  /\ (forall sched0 t0 before e after,
        snd (run' sched0 t0) = before ++ e :: after ->
        is_event "cancelled" e = true ->
        after = []
        \/ exists did msg,
            after = [PyDict [("type", PyStr "error"); ("id", PyStr did);
                             ("error", PyStr msg)]]).
Proof.
  intros Hpc Hc cancelled error.
  assert (Hrun : (snd (run' sched t) = []
                  /\ ~ ((2 <= ticks sched)%nat
                        \/ ((1 <= ticks sched)%nat /\ t_pc t <> PollCancel)))
                 \/ (snd (run' sched t) = cancel_events fs t
                     /\ t_pc (fst (run' sched t)) = Finished)).
  { destruct (t_pc t) eqn:E; try discriminate Hpc.
    - destruct (cancel_at_check sched t (or_introl E) Hc) as [[H0 H]|(_ & H & H')];
        [left; split; [done | lia] | by right].
    - destruct (cancel_at_poll sched t E Hc) as [[H0 H]|(_ & H & H')];
        [left; split; [done|] | by right].
      intros [?|[_ ?]]; [lia | done].
    - destruct (cancel_at_check sched t (or_intror E) Hc) as [[H0 H]|(_ & H & H')];
        [left; split; [done | lia] | by right]. }
  split; [|split; [|split]].
  - destruct Hrun as [[-> _]|[-> _]]; [by left | right].
    unfold cancel_events. destruct (fault fs _) as [[msg kept]|]; [right | by left].
    by exists msg.
  - intros Hclose. destruct Hrun as [[-> _]|[-> _]]; [by left | right].
    unfold cancel_events. by rewrite Hclose.
  - intros Hticks. destruct Hrun as [[_ Hno]|[Hev Hfin]]; [done|].
    split; [|split; [done|]].
    + rewrite Hev. unfold cancel_events.
      destruct (fault fs _) as [[msg kept]|]; by eexists.
    + intros more. by apply run_finished.
  - intros sched0 t0 before e after. apply nothing_after_cancelled.
Qed.

End TransferEvents.

(** An event of a step that sends none, one or two. *)
Ltac event_cases He :=
  repeat (apply elem_of_cons in He as [->|He]; [done|]);
  by apply elem_of_nil in He.

Section TransferTotal.
Variable py_int : string -> option Z.
Variable urlopen : value -> option Z -> opened.
Variable fs : file_system.

Local Abbreviation step' := (step py_int urlopen fs).
Local Abbreviation perform' := (perform py_int urlopen fs).
Local Abbreviation run' := (run py_int urlopen fs).
Local Opaque chunk_size.

(** Past line 91 the loop never comes back to it, the total stays what
    lines 103-109 made it, and every progress event carries it. *)
Lemma step_progress (t : transfer) :
  t_pc t <> Request ->
  total (fst (step' t)) = total t
  /\ t_pc (fst (step' t)) <> Request
  /\ forall e, e ∈ snd (step' t) -> is_event "progress" e = true ->
               py_get e "total" = Return (py_optint (total t)).
Proof.
  intros Hpc. unfold step. destruct (t_pc t) eqn:E; [done|..];
    try (unfold leave; repeat case_match; simpl;
         (split; [done|split; [done|]]); intros e He; event_cases He).
  simpl. split; [done|split; [by rewrite E|]]. intros e He. event_cases He.
Qed.

Lemma run_progress (sched : list action) (t : transfer) :
  t_pc t <> Request ->
  forall e, e ∈ snd (run' sched t) -> is_event "progress" e = true ->
            py_get e "total" = Return (py_optint (total t)).
Proof.
  revert t. induction sched as [|a sched IH]; intros t Hpc e He Hprog; simpl in He.
  - by apply elem_of_nil in He.
  - assert (Hstep : total (fst (perform' a t)) = total t
                    /\ t_pc (fst (perform' a t)) <> Request
                    /\ forall e, e ∈ snd (perform' a t) -> is_event "progress" e = true ->
                                 py_get e "total" = Return (py_optint (total t))).
    { destruct (decide (a = Tick)) as [->|Hne]; [by apply step_progress|].
      destruct (perform_flag py_int urlopen fs a t Hne) as (Hnil & Hp & _ & Ht & _).
      split; [done|]. split; [by rewrite Hp|]. rewrite Hnil.
      intros e' He'. by apply elem_of_nil in He'. }
    destruct Hstep as (Htot & Hpc' & Hev).
    destruct (perform' a t) as [t1 evs1]. simpl in *.
    specialize (IH t1 Hpc' e).
    destruct (run' sched t1) as [t2 evs2]. simpl in *.
    apply elem_of_app in He as [He|He]; [by apply Hev|].
    rewrite <- Htot. by apply IH.
Qed.

(** C6.  The total that the loop reports comes from the Content-Length
    header of the response it has just opened: none when the header is
    absent or is not an integer; the integer plus the bytes already
    downloaded when the request was a resume ([downloaded] above zero)
    and the response carries a Content-Range header (one whose value is
    not empty); the integer itself otherwise.  Every progress event of the
    transfer reports that total. *)
Theorem reported_total (t : transfer) (res : response) :
  t_pc t = Request ->
  urlopen (t_req t) (range_of t) = Opened res ->
  (content_length res = None -> total (fst (step' t)) = None)
  /\ (forall s, content_length res = Some s -> py_int s = None ->
                total (fst (step' t)) = None)
  /\ (forall s n, content_length res = Some s -> py_int s = Some n ->
        ((0 < downloaded t)%Z -> header_truthy (content_range res) = true ->
         total (fst (step' t)) = Some (n + downloaded t)%Z)
        /\ (downloaded t = 0%Z \/ header_truthy (content_range res) = false ->
            total (fst (step' t)) = Some n))
  /\ (forall sched e,
        e ∈ snd (run' sched (fst (step' t))) -> is_event "progress" e = true ->
        py_get e "total" = Return (py_optint (total (fst (step' t))))).
Proof.
  intros Hpc Hopen.
  assert (Htotal : total (fst (step' t))
                   = compute_total py_int (content_length res) (content_range res)
                       (downloaded t)).
  { unfold step, connect. rewrite Hpc, Hopen. by repeat case_match. }
  assert (Hnext : t_pc (fst (step' t)) <> Request).
  { unfold step, connect. rewrite Hpc, Hopen. by repeat case_match. }
  split; [|split; [|split]].
  - rewrite Htotal. unfold compute_total. by intros ->.
  - rewrite Htotal. unfold compute_total. by intros s -> ->.
  - rewrite Htotal. unfold compute_total. intros s n -> ->. split.
    + intros Hpos ->. destruct (Z.eqb_spec (downloaded t) 0); [lia | done].
    + intros [->| ->]; [done|]. by rewrite andb_false_r.
  - intros sched e He Hprog. by apply (run_progress sched).
Qed.

(** Leaving the pause ends the transfer: the [break] of line 139 leads
    out of the [with] block, to the done event of line 150 with the bytes
    read so far, and to the [return] of line 151. *)
Lemma resume_returns_done (t : transfer) :
  t_pc t = AfterPoll ->
  cancel (t_info t) = false ->
  fault fs (CloseFile (tf_path t) (file t)) = None ->
  step' t = (goto Finished (set_mode ab t),
            [ev_done (t_did t) (tf_path t) (downloaded t) (final_url t) (status t)]).
Proof.
  intros Hpc Hc Hclose. unfold step, leave. rewrite Hpc, Hc. simpl.
  by rewrite Hclose.
Qed.

(** No step leads back to line 91: the outer loop runs its body once. *)
Lemma request_only_once (t : transfer) : t_pc (fst (step' t)) <> Request.
Proof.
  destruct (decide (t_pc t = Request)) as [Hpc|Hpc].
  - unfold step, connect. rewrite Hpc. by repeat case_match.
  - by apply step_progress.
Qed.

End TransferTotal.

(** C1 on the code.  A 10000-byte resource served by a source that
    honours Range requests.  Left alone, the transfer ends with 10000 bytes
    in the file.  Paused after its first chunk and resumed, it sends the
    done event with size 8192 and returns: the file holds the first 8192
    bytes, and no later step adds to it. *)
Theorem pause_resume_stops_short :
  let fresh := run int_of_str (fixed_source resource) tmp_of uninterrupted started in
  let resumed := run int_of_str (fixed_source resource) tmp_of pause_then_resume started in
  (t_pc (fst fresh) = Finished
   /\ downloaded (fst fresh) = 10000%Z
   /\ file (fst fresh) = resource
   /\ snd fresh
      = [ev_progress "d" 8192 "/tmp/d" (Some 10000%Z);
         ev_progress "d" 10000 "/tmp/d" (Some 10000%Z);
         ev_done "d" "/tmp/d" 10000 "http://host/file" 200])
  /\ (t_pc (fst resumed) = Finished
      /\ downloaded (fst resumed) = 8192%Z
      /\ file (fst resumed) = take (Z.to_nat 8192) resource
      /\ snd resumed
         = [ev_progress "d" 8192 "/tmp/d" (Some 10000%Z);
            ev_paused "d" 8192;
            ev_done "d" "/tmp/d" 8192 "http://host/file" 200]).
Proof. vm_compute. repeat split; reflexivity. Qed.

Lemma cancel_observed_witness :
  snd (run int_of_str (fixed_source resource) tmp_of [Tick; Tick] cancelled_in_flight) = []
  \/ snd (run int_of_str (fixed_source resource) tmp_of [Tick; Tick] cancelled_in_flight)
     = [PyDict [("type", PyStr "cancelled"); ("id", PyStr "d")]].
Proof.
  assert (Hpc : reads_cancel (t_pc cancelled_in_flight) = true)
    by (vm_compute; reflexivity).
  assert (Hc : cancel (t_info cancelled_in_flight) = true)
    by (vm_compute; reflexivity).
  destruct (cancel_observed int_of_str (fixed_source resource) tmp_of
              cancelled_in_flight [Tick; Tick] Hpc Hc) as (_ & Hclose & _).
  apply Hclose. reflexivity.
Defined.

(** On a disk that is full, a cancel is followed by the error of the
    close: the chunk was counted and reported, the flush fails as the file
    is closed, and the file is left empty. *)
Example cancelled_then_error :
  let r := run int_of_str (fixed_source morsel) full_disk
             (replicate 4 Tick ++ [Cancel; Tick]) started in
  snd r
  = [ev_progress "d" 1808 "/tmp/d" (Some 1808%Z);
     ev_cancelled "d";
     ev_error "d" "[Errno 28] No space left on device"]
  /\ t_pc (fst r) = Finished /\ downloaded (fst r) = 1808%Z /\ file (fst r) = [].
Proof. vm_compute. repeat split; reflexivity. Qed.

Lemma reported_total_witness :
  (content_length
     {| getcode := 206; geturl := "http://host/file";
        content_length := Some "1808";
        content_range := Some "bytes 8192-9999/10000";
        body := drop (Z.to_nat 8192) resource; body_fault := None |} = None ->
   total (fst (step int_of_str (fixed_source resource) tmp_of resuming)) = None)
  /\ (forall s,
        Some "1808" = Some s -> int_of_str s = None ->
        total (fst (step int_of_str (fixed_source resource) tmp_of resuming)) = None)
  /\ (forall s n,
        Some "1808" = Some s -> int_of_str s = Some n ->
        ((0 < downloaded resuming)%Z ->
         header_truthy (Some "bytes 8192-9999/10000") = true ->
         total (fst (step int_of_str (fixed_source resource) tmp_of resuming))
         = Some (n + downloaded resuming)%Z)
        /\ (downloaded resuming = 0%Z
            \/ header_truthy (Some "bytes 8192-9999/10000") = false ->
            total (fst (step int_of_str (fixed_source resource) tmp_of resuming))
            = Some n))
  /\ (forall sched e,
        e ∈ snd (run int_of_str (fixed_source resource) tmp_of sched
                   (fst (step int_of_str (fixed_source resource) tmp_of resuming))) ->
        is_event "progress" e = true ->
        py_get e "total"
        = Return (py_optint
                    (total (fst (step int_of_str (fixed_source resource) tmp_of
                                   resuming))))).
Proof.
  apply (reported_total int_of_str (fixed_source resource) tmp_of resuming
           {| getcode := 206; geturl := "http://host/file";
              content_length := Some "1808";
              content_range := Some "bytes 8192-9999/10000";
              body := drop (Z.to_nat 8192) resource; body_fault := None |}).
  - reflexivity.
  - vm_compute. reflexivity.
Defined.

Example resumed_total :
  total (fst (step int_of_str (fixed_source resource) tmp_of resuming)) = Some 10000%Z.
Proof. vm_compute. reflexivity. Qed.

(** ** The dispatcher *)

Lemma is_str_true (t : value) (s : string) : is_str t s = true -> t = PyStr s.
Proof.
  destruct t; simpl; try discriminate.
  intros H. apply String.eqb_eq in H. by subst.
Qed.

Lemma str_uuid_not_empty (n : N) : str_uuid n <> EmptyString.
Proof. unfold str_uuid. by cbn [hexes String.append]. Qed.

Lemma dispatch_unknown (o : oracle) (kv : list (string * value)) (h : host) :
  (forall tag, tag ∈ recognized_tags -> dict_get "type" kv <> PyStr tag) ->
  dispatch o kv h = Continue (reply (error_response "unknown type") h).
Proof.
  intros Hunknown. unfold dispatch.
  repeat match goal with
         | |- context [is_str (dict_get "type" kv) ?tag] =>
             destruct (is_str (dict_get "type" kv) tag) eqn:?;
             [exfalso; apply (Hunknown tag);
              [unfold recognized_tags; set_solver | by apply is_str_true] |]
         end.
  done.
Qed.



Section HostProperties.
Variable loads : list byte -> option value.
Variable py_int : string -> option Z.
Variable urlopen : value -> option Z -> opened.
Variable fs : file_system.

Local Abbreviation main_turn' := (main_turn loads).
Local Abbreviation thread_step' := (thread_step py_int urlopen fs).
Local Abbreviation occur' := (occur loads py_int urlopen fs).
Local Abbreviation execute' := (execute loads py_int urlopen fs).

(** C7, as the code has it.  A decoded message that is a dictionary whose
    ['type'] is none of the tags that [main] tests for (a missing ['type']
    included) is answered with [{'ok': False, 'error': 'unknown type'}]:
    nothing is raised, the registry and the threads are untouched, and the
    process goes on running, its next turn reading the frame that follows
    on the stream. *)
Theorem unknown_type_response (o : oracle) (h : host)
  (kv : list (string * value)) (rest : list byte) :
  interrupt o = false ->
  read_message loads (stdin h) = (Return (PyDict kv), rest) ->
  (forall tag, tag ∈ recognized_tags -> dict_get "type" kv <> PyStr tag) ->
  occur' (Main o) (Running h)
  = Running {| stdin := rest; DOWNLOADS := DOWNLOADS h; threads := threads h;
               sent := sent h ++ [PyDict [("ok", PyBool false);
                                          ("error", PyStr "unknown type")]] |}.
Proof.
  intros Hint Hread Hunknown. simpl. unfold main_turn.
  rewrite Hint, Hread. by rewrite dispatch_unknown.
Qed.







End HostProperties.

(** C7, as the specification states it, fails.  The frame [[1]] decodes
    to a list: it has no command tag, so its tag is none of the recognized
    ones, and the dispatcher does not answer it: [msg.get] raises
    [AttributeError] and the process ends with code 1, nothing sent. *)
Lemma untagged_message_crashes :
  ~ (forall (o : oracle) (h : host) (msg : value) (rest : list byte),
       interrupt o = false ->
       read_message Json.loads (stdin h) = (Return msg, rest) ->
       (forall tag, tag ∈ recognized_tags -> py_get msg "type" <> Return (PyStr tag)) ->
       exists h',
         occur Json.loads int_of_str (fixed_source resource) tmp_of (Main o) (Running h)
         = Running h'
         /\ sent h' = sent h ++ [PyDict [("ok", PyBool false);
                                        ("error", PyStr "unknown type")]]).
Proof.
  intros H.
  destruct (H quiet (boot list_then_start) (PyList [PyInt 1]) start_stream)
    as (h' & Hrun & _).
  - reflexivity.
  - vm_compute. reflexivity.
  - intros tag _. discriminate.
  - vm_compute in Hrun. discriminate Hrun.
Qed.

Example untagged_message_exit :
  occur Json.loads int_of_str (fixed_source resource) tmp_of (Main quiet)
    (Running (boot list_then_start))
  = Exited 1 {| stdin := start_stream; DOWNLOADS := ∅; threads := []; sent := [] |}.
Proof. vm_compute. reflexivity. Qed.

Lemma unknown_type_response_witness :
  occur Json.loads int_of_str (fixed_source resource) tmp_of (Main quiet)
    (Running (boot (frame Json.dumps bogus_command ++ frame Json.dumps bogus_command)))
  = Running {| stdin := frame Json.dumps bogus_command; DOWNLOADS := ∅; threads := [];
               sent := [] ++ [PyDict [("ok", PyBool false);
                                      ("error", PyStr "unknown type")]] |}.
Proof.
  apply (unknown_type_response Json.loads int_of_str (fixed_source resource) tmp_of
           quiet
           (boot (frame Json.dumps bogus_command ++ frame Json.dumps bogus_command))
           [("type", PyStr "bogus")] (frame Json.dumps bogus_command)).
  - reflexivity.
  - vm_compute. reflexivity.
  - intros tag Hin. unfold recognized_tags in Hin.
    repeat (apply elem_of_cons in Hin as [->|Hin]; [discriminate|]).
    by apply elem_of_nil in Hin.
Defined.


Example end_of_stream_abort_code :
  exists h',
    occur Json.loads int_of_str (fixed_source resource) tmp_of (Main hasty)
      (Running downloading) = Exited 134 h'.
Proof. eexists. vm_compute. reflexivity. Qed.


(** ** The registry *)

Lemma registered_string (did : string) (D : gmap string nat) :
  did <> EmptyString -> registered (PyStr did) D = Return (D !! did).
Proof.
  intros Hne. unfold registered. simpl.
  by destruct (String.eqb_spec did EmptyString).
Qed.

Lemma control_registered (f : info -> info) (kv : list (string * value))
  (h : host) (did : string) (idx : nat) :
  did <> EmptyString ->
  dict_get "id" kv = PyStr did ->
  DOWNLOADS h !! did = Some idx ->
  control f kv h
  = Send (ok_response (PyStr did))
      {| stdin := stdin h; DOWNLOADS := DOWNLOADS h;
         threads := alter (with_info f) idx (threads h);
         sent := sent h |}.
Proof.
  intros Hne Hid Hreg. unfold control.
  by rewrite Hid, (registered_string _ _ Hne), Hreg.
Qed.

Lemma dispatch_control (o : oracle) (kv : list (string * value)) (h : host)
  (tag : string) (f : info -> info) :
  (tag, f) ∈ control_commands ->
  dict_get "type" kv = PyStr tag ->
  dispatch o kv h = control f kv h.
Proof.
  intros Hin Htag. unfold dispatch. rewrite Htag. unfold control_commands in Hin.
  repeat (apply elem_of_cons in Hin as [[= -> ->]|Hin]; [done|]).
  by apply elem_of_nil in Hin.
Qed.

Lemma registered_thread_control (did : string) (f : info -> info)
  (kv : list (string * value)) (h : host) :
  registered_thread did h -> registered_thread did (host_of_turn (control f kv h)).
Proof.
  intros (idx & Hreg & Hlt). unfold control.
  destruct (registered _ _) as [[i|]|e]; exists idx; (split; [done|]);
    simpl; [|done..].
  by rewrite length_alter.
Qed.

Lemma registered_thread_dispatch (did : string) (o : oracle)
  (kv : list (string * value)) (h : host) :
  registered_thread did h -> registered_thread did (host_of_turn (dispatch o kv h)).
Proof.
  intros Hreg. unfold dispatch.
  repeat match goal with
         | |- context [if ?b then _ else _] => destruct b
         end;
    try (by apply registered_thread_control); try done.
  destruct Hreg as (idx & Hreg & Hlt). unfold download_start, registered_thread.
  simpl.
  destruct (decide (str_uuid (uuid4 o) = did)) as [<-|Hne].
  - exists (length (threads h)). rewrite lookup_insert_eq, length_app. simpl.
    split; [done | lia].
  - exists idx. rewrite lookup_insert_ne by done. rewrite length_app. simpl.
    split; [done | lia].
Qed.

Section RegistryProperties.
Variable loads : list byte -> option value.
Variable py_int : string -> option Z.
Variable urlopen : value -> option Z -> opened.
Variable fs : file_system.

Local Abbreviation main_turn' := (main_turn loads).
Local Abbreviation thread_step' := (thread_step py_int urlopen fs).
Local Abbreviation occur' := (occur loads py_int urlopen fs).
Local Abbreviation execute' := (execute loads py_int urlopen fs).

Lemma registered_thread_main_turn (did : string) (o : oracle) (h : host) :
  registered_thread did h -> registered_thread did (host_of_turn (main_turn' o h)).
Proof.
  intros Hreg. unfold main_turn. destruct (interrupt o); [done|].
  destruct (read_message loads (stdin h)) as [[msg|e] rest]; [|done].
  destruct msg; try done.
  by apply registered_thread_dispatch.
Qed.

Lemma registered_thread_step (did : string) (i : nat) (h : host) :
  registered_thread did h -> registered_thread did (thread_step' i h).
Proof.
  intros (idx & Hreg & Hlt). unfold thread_step.
  destruct (threads h !! i) as [t|]; [|by exists idx].
  destruct (step _ _ _ t) as [t' evs]. exists idx. simpl.
  by rewrite length_insert.
Qed.

Lemma leave_main_host (o : oracle) (r : turn) :
  host_of (leave_main o r) = host_of_turn r.
Proof. destruct r as [h'|m h'|h'|ex h']; try done. by destruct ex. Qed.

Lemma registered_thread_occur (did : string) (e : event) (p : process) :
  registered_thread did (host_of p) -> registered_thread did (host_of (occur' e p)).
Proof.
  intros Hreg. destruct p as [h|m h|code h]; [| |done]; destruct e as [o|i]; simpl.
  - rewrite leave_main_host. by apply registered_thread_main_turn.
  - by apply registered_thread_step.
  - by destruct (interrupt o).
  - by apply registered_thread_step.
Qed.

Lemma registered_thread_execute (did : string) (es : list event) (p : process) :
  registered_thread did (host_of p) -> registered_thread did (host_of (execute' es p)).
Proof.
  revert p. induction es as [|e es IH]; intros p Hreg; [done|].
  simpl. apply IH. by apply registered_thread_occur.
Qed.

(** A thread that has returned takes no further step: whatever the flags
    of its dictionary, it changes nothing and sends nothing. *)
Lemma finished_thread_step (i : nat) (h : host) (t : transfer) :
  threads h !! i = Some t -> t_pc t = Finished -> thread_step' i h = h.
Proof.
  intros Hi Hpc. unfold thread_step, step. rewrite Hi, Hpc.
  rewrite (list_insert_id _ _ _ Hi), (right_id_L [] (++)).
  by destruct h.
Qed.

(** C10.  A [download_start] registers a fresh dictionary under the
    identifier it draws, starts the thread, and then answers
    [{'ok': True, 'id': did}].  From then on the identifier stays a key of
    [DOWNLOADS] whatever happens (steps of the main thread on any
    messages, steps of any thread, the transfer itself returning): no code
    removes a key.  Hence every later [download_pause], [download_resume]
    or [download_cancel] that names it is answered [{'ok': True, 'id': did}]
    after its flag is written into the registered dictionary: ['pause']
    becomes [True], ['pause'] becomes [False], ['cancel'] becomes [True],
    and nothing else of the transfer changes.  When the thread of that
    dictionary has returned, the flag is never read: a step of that thread
    changes nothing and sends nothing. *)
Theorem identifier_stays_registered (o : oracle) (h : host)
  (kv : list (string * value)) (rest : list byte) :
  interrupt o = false ->
  read_message loads (stdin h) = (Return (PyDict kv), rest) ->
  dict_get "type" kv = PyStr "download_start" ->
  let did := str_uuid (uuid4 o) in
  let ack := PyDict [("ok", PyBool true); ("id", PyStr did)] in
  exists h1,
    occur' (Main o) (Running h) = Sending ack h1
    /\ sent h1 = sent h
    /\ (forall o1, interrupt o1 = false ->
          occur' (Main o1) (Sending ack h1)
          = Running {| stdin := stdin h1; DOWNLOADS := DOWNLOADS h1;
                       threads := threads h1; sent := sent h ++ [ack] |})
    /\ forall es,
        did ∈ dom (DOWNLOADS (host_of (execute' es (Sending ack h1))))
        /\ exists idx,
            DOWNLOADS (host_of (execute' es (Sending ack h1))) !! did = Some idx
            /\ (idx < length (threads (host_of (execute' es (Sending ack h1)))))%nat
            /\ forall h2 o' kv' rest' tag f,
                execute' es (Sending ack h1) = Running h2 ->
                interrupt o' = false ->
                read_message loads (stdin h2) = (Return (PyDict kv'), rest') ->
                (tag, f) ∈ control_commands ->
                dict_get "type" kv' = PyStr tag ->
                dict_get "id" kv' = PyStr did ->
                exists t h3,
                  threads h2 !! idx = Some t
                  /\ occur' (Main o') (Running h2) = Sending ack h3
                  /\ stdin h3 = rest' /\ DOWNLOADS h3 = DOWNLOADS h2
                  /\ sent h3 = sent h2
                  /\ threads h3 = <[idx := with_info f t]> (threads h2)
                  /\ (tag = "download_pause" ->
                      pause (t_info (with_info f t)) = true
                      /\ cancel (t_info (with_info f t)) = cancel (t_info t))
                  /\ (tag = "download_resume" ->
                      pause (t_info (with_info f t)) = false
                      /\ cancel (t_info (with_info f t)) = cancel (t_info t))
                  /\ (tag = "download_cancel" ->
                      cancel (t_info (with_info f t)) = true
                      /\ pause (t_info (with_info f t)) = pause (t_info t))
                  /\ t_pc (with_info f t) = t_pc t
                  /\ downloaded (with_info f t) = downloaded t
                  /\ file (with_info f t) = file t
                  /\ (forall o2, interrupt o2 = false ->
                        sent (host_of (occur' (Main o2) (Sending ack h3)))
                        = sent h2 ++ [ack])
                  /\ (t_pc t = Finished -> thread_step' idx h3 = h3).
Proof.
  intros Hint Hread Htype did ack.
  eexists. split.
  { simpl. unfold main_turn, dispatch. rewrite Hint, Hread, Htype. simpl.
    unfold download_start. reflexivity. }
  split; [done|]. split.
  { intros o1 Hint1. simpl. by rewrite Hint1. }
  intros es.
  match goal with
  | |- context [execute' es ?p0] => set (p := execute' es p0);
      assert (Hreg : registered_thread did (host_of p))
  end.
  { apply registered_thread_execute. exists (length (threads h)). simpl.
    fold did. rewrite lookup_insert_eq, length_app. simpl. split; [done | lia]. }
  destruct Hreg as (idx & Hreg & Hlt).
  split; [apply elem_of_dom; by exists idx|].
  exists idx. split; [done|]. split; [done|].
  intros h2 o' kv' rest' tag f Hp Hint' Hread' Hin Htag Hid.
  rewrite Hp in Hreg, Hlt. simpl in Hreg, Hlt.
  destruct (lookup_lt_is_Some_2 _ _ Hlt) as [t Ht].
  assert (Halter : alter (with_info f) idx (threads h2)
                   = <[idx := with_info f t]> (threads h2)).
  { apply list_eq. intros j. destruct (decide (j = idx)) as [->|Hne].
    - by rewrite list_lookup_alter_eq, list_lookup_insert_eq, Ht.
    - by rewrite list_lookup_alter_ne, list_lookup_insert_ne. }
  exists t. eexists. split; [done|]. split.
  { simpl. unfold main_turn. rewrite Hint', Hread'.
    rewrite (dispatch_control _ _ _ tag f Hin Htag).
    rewrite (control_registered f kv' (consume rest' h2) did idx
               (str_uuid_not_empty _) Hid Hreg).
    simpl. reflexivity. }
  simpl. split; [done|]. split; [done|]. split; [done|]. split; [done|].
  unfold control_commands in Hin.
  assert (Hflags : (tag = "download_pause" /\ f = set_pause true)
                   \/ (tag = "download_resume" /\ f = set_pause false)
                   \/ (tag = "download_cancel" /\ f = set_cancel)).
  { repeat (apply elem_of_cons in Hin as [[= -> ->]|Hin]; [by auto|]).
    by apply elem_of_nil in Hin. }
  split; [|split; [|split]].
  - intros ->. destruct Hflags as [[_ ->]|[[? _]|[? _]]]; done.
  - intros ->. destruct Hflags as [[? _]|[[_ ->]|[? _]]]; done.
  - intros ->. destruct Hflags as [[? _]|[[? _]|[_ ->]]]; done.
  - split; [done|]. split; [done|]. split; [done|]. split.
    + intros o2 Hint2. by rewrite Hint2.
    + intros Hpc.
      apply (finished_thread_step idx _ (with_info f t)); [|done].
      simpl. by rewrite list_lookup_alter_eq, Ht.
Qed.

End RegistryProperties.

Lemma identifier_stays_registered_witness :
  exists h1,
    occur Json.loads int_of_str (fixed_source resource) tmp_of (Main quiet)
      (Running (boot start_stream))
    = Sending (PyDict [("ok", PyBool true); ("id", PyStr (str_uuid 0))]) h1
    /\ sent h1 = []
    /\ forall es,
        str_uuid 0
        ∈ dom (DOWNLOADS
                 (host_of
                    (execute Json.loads int_of_str (fixed_source resource) tmp_of es
                       (Sending (PyDict [("ok", PyBool true); ("id", PyStr (str_uuid 0))])
                          h1)))).
Proof.
  destruct (identifier_stays_registered Json.loads int_of_str (fixed_source resource)
              tmp_of quiet (boot start_stream)
              [("type", PyStr "download_start"); ("url", PyStr "http://host/file")]
              [])
    as (h1 & Hocc & Hsent & _ & Hall).
  - reflexivity.
  - vm_compute. reflexivity.
  - reflexivity.
  - exists h1. split; [exact Hocc|]. split; [exact Hsent|].
    intros es. exact (proj1 (Hall es)).
Defined.

(** ** Writers on the output stream *)

Lemma contiguousb_complete (f l : list byte) : contiguous f l -> contiguousb f l = true.
Proof.
  intros (before & after & ->). unfold contiguousb.
  apply existsb_exists. exists (length before). split.
  - apply in_seq. rewrite !length_app. lia.
  - apply bool_decide_eq_true.
    by rewrite drop_app_length, take_app_length.
Qed.

Lemma contiguous_app (f l more : list byte) : contiguous f l -> contiguous f (l ++ more).
Proof.
  intros (before & after & ->). exists before, (after ++ more).
  by rewrite <- !(assoc_L (++)).
Qed.

Lemma write_next_head (k : nat) (c : channel) (w : list byte) (ws : list (list byte)) :
  pending c !! k = Some (w :: ws) ->
  stdout (write_next k c) = stdout c ++ w
  /\ pending (write_next k c) !! k = Some ws.
Proof.
  intros Hpend. unfold write_next. rewrite Hpend. simpl. split; [done|].
  apply list_lookup_insert_eq. by eapply lookup_lt_Some.
Qed.

Lemma write_next_grows (k : nat) (c : channel) :
  exists more, stdout (write_next k c) = stdout c ++ more.
Proof.
  unfold write_next. destruct (pending c !! k) as [[|w ws]|].
  - exists []. by rewrite (right_id_L [] (++)).
  - by exists w.
  - exists []. by rewrite (right_id_L [] (++)).
Qed.

Lemma interleave_grows (sched : list nat) (c : channel) :
  exists more, stdout (interleave sched c) = stdout c ++ more.
Proof.
  revert c. induction sched as [|k sched IH]; intros c.
  - exists []. by rewrite (right_id_L [] (++)).
  - destruct (write_next_grows k c) as [w Hw].
    destruct (IH (write_next k c)) as [more Hmore].
    exists (w ++ more). unfold interleave in *. simpl. rewrite Hmore, Hw.
    by rewrite <- (assoc_L (++)).
Qed.

Section WriterProperties.
Variable dumps : value -> list byte.

(** C4, as the code has it.  [send_message] issues the prefix and the
    payload as two writes and holds no lock.  When the writer that is
    about to send [m] issues both writes with no write of another context
    between them, the output grows by the frame of [m], prefix then
    payload, and the frame stays contiguous whatever is written later. *)
Theorem frame_contiguous_when_alone (c : channel) (k : nat) (m : value)
  (later : list (list byte)) :
  (N.of_nat (length (dumps m)) < 2 ^ 32)%N ->
  pending c !! k = Some (writes dumps m ++ later) ->
  stdout (interleave [k; k] c) = stdout c ++ frame dumps m
  /\ pending (interleave [k; k] c) !! k = Some later
  /\ forall sched,
      contiguous (frame dumps m) (stdout (interleave sched (interleave [k; k] c))).
Proof.
  intros Hfit Hpend.
  destruct (send_message_frame dumps m [] Hfit) as (prefix & Hp & Hframe & _).
  unfold writes in Hpend. rewrite Hp in Hpend. simpl in Hpend.
  assert (Hout : stdout (interleave [k; k] c) = stdout c ++ frame dumps m
                 /\ pending (interleave [k; k] c) !! k = Some later).
  { destruct (write_next_head k c _ _ Hpend) as [Hout1 Hpend1].
    destruct (write_next_head k (write_next k c) _ _ Hpend1) as [Hout2 Hpend2].
    change (interleave [k; k] c) with (write_next k (write_next k c)).
    split; [|done]. by rewrite Hout2, Hout1, Hframe, <- (assoc_L (++)). }
  destruct Hout as [Hout Hlater]. split; [done|]. split; [done|].
  intros sched.
  destruct (interleave_grows sched (interleave [k; k] c)) as [more ->].
  apply contiguous_app. rewrite Hout. exists (stdout c), []. by rewrite (right_id_L [] (++)).
Qed.

End WriterProperties.

(** C4, as the specification states it, fails.  The dispatcher and a
    transfer each send one message; their writes alternate; both have
    written everything, and the frame of the dispatcher's message is not
    contiguous on the output: the prefix of the other frame sits between
    its prefix and its payload. *)
Lemma concurrent_frames_interleave :
  ~ (forall (ms : list (list value)) (sched : list nat) (k : nat)
            (l : list value) (m : value),
       ms !! k = Some l -> m ∈ l ->
       pending (interleave sched (writers Json.dumps ms)) = map (fun _ => []) ms ->
       contiguous (frame Json.dumps m)
         (stdout (interleave sched (writers Json.dumps ms)))).
Proof.
  intros H.
  specialize (H [[ok_response (PyStr "d")]; [ev_paused "d" 0]] [0; 1; 0; 1]%nat 0%nat
                [ok_response (PyStr "d")] (ok_response (PyStr "d"))
                eq_refl).
  assert (Hin : ok_response (PyStr "d") ∈ [ok_response (PyStr "d")])
    by apply list_elem_of_here.
  specialize (H Hin).
  assert (Hall : pending (interleave [0; 1; 0; 1]%nat
                            (writers Json.dumps
                               [[ok_response (PyStr "d")]; [ev_paused "d" 0]]))
                 = map (fun _ => []) [[ok_response (PyStr "d")]; [ev_paused "d" 0]])
    by (vm_compute; reflexivity).
  specialize (H Hall). apply contiguousb_complete in H.
  vm_compute in H. discriminate H.
Qed.

Example interleaved_output :
  stdout (interleave [0; 1; 0; 1]%nat two_writers)
  = take 4 (frame Json.dumps (ok_response (PyStr "d")))
    ++ take 4 (frame Json.dumps (ev_paused "d" 0))
    ++ Json.dumps (ok_response (PyStr "d"))
    ++ Json.dumps (ev_paused "d" 0).
Proof. vm_compute. reflexivity. Qed.

Lemma frame_contiguous_when_alone_witness :
  stdout (interleave [0; 0]%nat two_writers)
  = stdout two_writers ++ frame Json.dumps (ok_response (PyStr "d"))
  /\ pending (interleave [0; 0]%nat two_writers) !! 0%nat = Some []
  /\ forall sched,
      contiguous (frame Json.dumps (ok_response (PyStr "d")))
        (stdout (interleave sched (interleave [0; 0]%nat two_writers))).
Proof.
  apply (frame_contiguous_when_alone Json.dumps two_writers 0
           (ok_response (PyStr "d")) []).
  - vm_compute. reflexivity.
  - vm_compute. reflexivity.
Defined.

(** ** The host on a whole session *)

(** The messages that the host sends over the session, in order, and its
    exit: the download is acknowledged, reports its first chunk, is paused
    and resumed, and ends with a done event for the 8192 bytes it had when
    it was paused; the closed stream then ends the process with code 0. *)
Example session_messages :
  execute Json.loads int_of_str (fixed_source resource) tmp_of session
    (Running (boot session_stream))
  = Exited 0
      {| stdin := [];
         DOWNLOADS := {[ session_id := 0%nat ]};
         threads :=
           [fst (run int_of_str (fixed_source resource) tmp_of pause_then_resume
                   (threaded_download session_id request
                      (new_info session_id (PyStr "http://host/file"))))];
         sent :=
           [ok_response (PyStr session_id);
            ev_progress session_id 8192 ("/tmp/" +:+ session_id) (Some 10000%Z);
            ok_response (PyStr session_id);
            ev_paused session_id 8192;
            ok_response (PyStr session_id);
            ev_done session_id ("/tmp/" +:+ session_id) 8192 "http://host/file" 200] |}.
Proof. vm_compute. reflexivity. Qed.

(** When the thread is faster than the main thread, its first progress
    event is on the output before the response to the [download_start]
    that started it: line 319 starts the thread, line 320 sends the
    response. *)
Example hasty_session_messages :
  execute Json.loads int_of_str (fixed_source resource) tmp_of hasty_session
    (Running (boot session_stream))
  = Running
      {| stdin := drop (length start_stream) session_stream;
         DOWNLOADS := {[ session_id := 0%nat ]};
         threads :=
           [fst (run int_of_str (fixed_source resource) tmp_of (replicate 4 Tick)
                   (threaded_download session_id request
                      (new_info session_id (PyStr "http://host/file"))))];
         sent :=
           [ev_progress session_id 8192 ("/tmp/" +:+ session_id) (Some 10000%Z);
            ok_response (PyStr session_id)] |}.
Proof. vm_compute. reflexivity. Qed.

(** The messages of the host, as the dictionaries that the code hands
    to [send_message] (lines 70, 127, 130, 147, 150, 153 and 320-352). *)
Example message_shapes :
  ok_response (PyStr "d") = PyDict [("ok", PyBool true); ("id", PyStr "d")]
  /\ error_response "unknown id"
     = PyDict [("ok", PyBool false); ("error", PyStr "unknown id")]
  /\ perform_download request
     = PyDict [("ok", PyBool false);
               ("error", PyStr "use interactive download via connectNative")]
  /\ ev_cancelled "d" = PyDict [("type", PyStr "cancelled"); ("id", PyStr "d")]
  /\ ev_paused "d" 8192
     = PyDict [("type", PyStr "paused"); ("id", PyStr "d"); ("downloaded", PyInt 8192)]
  /\ ev_progress "d" 8192 "/tmp/d" None
     = PyDict [("type", PyStr "progress"); ("id", PyStr "d");
               ("downloaded", PyInt 8192); ("path", PyStr "/tmp/d");
               ("total", PyNone)]
  /\ ev_done "d" "/tmp/d" 8192 "http://host/file" 200
     = PyDict [("type", PyStr "done"); ("id", PyStr "d"); ("path", PyStr "/tmp/d");
               ("size", PyInt 8192); ("finalUrl", PyStr "http://host/file");
               ("status", PyInt 200)]
  /\ ev_error "d" "timed out"
     = PyDict [("type", PyStr "error"); ("id", PyStr "d");
               ("error", PyStr "timed out")].
Proof. repeat split; reflexivity. Qed.

(** Every shape of message that the host sends is read back from its
    frame by the JSON codec. *)
Example sent_messages_round_trip :
  Forall (fun m => read_message Json.loads (frame Json.dumps m) = (Return m, []))
    [ok_response (PyStr session_id);
     error_response "unknown id";
     error_response "unknown type";
     perform_download request;
     ev_progress session_id 8192 ("/tmp/" +:+ session_id) (Some 10000%Z);
     ev_progress session_id 8192 ("/tmp/" +:+ session_id) None;
     ev_paused session_id 8192;
     ev_cancelled session_id;
     ev_done session_id ("/tmp/" +:+ session_id) 10000 "http://host/file" 200;
     ev_error session_id "HTTP Error 416: Requested Range Not Satisfiable"].
Proof. repeat constructor. Qed.

(** * Further properties of the code *)

(** ** What a turn of [main] does with a frame *)


Section TurnProperties.
Variable loads : list byte -> option value.
Variable py_int : string -> option Z.
Variable urlopen : value -> option Z -> opened.
Variable fs : file_system.

Local Abbreviation main_turn' := (main_turn loads).
Local Abbreviation thread_step' := (thread_step py_int urlopen fs).
Local Abbreviation occur' := (occur loads py_int urlopen fs).
Local Abbreviation execute' := (execute loads py_int urlopen fs).



(** X3.  A [download_pause], [download_resume] or [download_cancel] whose
    ['id'] is missing, is falsy, is a string that is no key of
    [DOWNLOADS], or is a number or a boolean, is answered
    [{ok: false, error: 'unknown id'}]; the registry and every transfer
    stay as they were and the loop goes on. *)
Theorem unknown_id_response (o : oracle) (h : host)
  (kv : list (string * value)) (rest : list byte) (tag : string)
  (f : info -> info) :
  interrupt o = false ->
  read_message loads (stdin h) = (Return (PyDict kv), rest) ->
  (tag, f) ∈ control_commands ->
  dict_get "type" kv = PyStr tag ->
  match dict_get "id" kv with
  | PyStr s => DOWNLOADS h !! s = None
  | PyList _ | PyDict _ => truthy (dict_get "id" kv) = false
  | _ => True
  end ->
  occur' (Main o) (Running h)
  = Running {| stdin := rest; DOWNLOADS := DOWNLOADS h; threads := threads h;
               sent := sent h ++ [error_response "unknown id"] |}.
Proof.
  intros Hint Hread Hin Htag Hid. simpl. unfold main_turn.
  rewrite Hint, Hread, (dispatch_control _ _ _ tag f Hin Htag).
  unfold control, registered. simpl.
  destruct (dict_get "id" kv) as [|b|n|s|l|d]; simpl in *.
  - done.
  - by destruct b.
  - by destruct (n =? 0)%Z.
  - rewrite Hid. by destruct (String.eqb s "").
  - by rewrite Hid.
  - by rewrite Hid.
Qed.


Lemma thread_step_sent (i : nat) (h : host) :
  exists evs, sent (thread_step' i h) = sent h ++ evs.
Proof.
  unfold thread_step. destruct (threads h !! i) as [t|].
  - destruct (step _ _ _ t) as [t' evs]. by exists evs.
  - exists []. by rewrite (right_id_L [] (++)).
Qed.

(** While the main thread is about to send [m], steps of the threads
    leave it there and only add their events to the output. *)
Lemma threads_while_sending (js : list nat) (m : value) (h : host) :
  exists evs h',
    execute' (map Thread js) (Sending m h) = Sending m h'
    /\ sent h' = sent h ++ evs.
Proof.
  revert h. induction js as [|i js IH]; intros h.
  - exists [], h. by rewrite (right_id_L [] (++)).
  - destruct (thread_step_sent i h) as [evs1 Hevs1].
    destruct (IH (thread_step' i h)) as (evs2 & h' & Hex & Hevs2).
    exists (evs1 ++ evs2), h'. split; [exact Hex|].
    by rewrite Hevs2, Hevs1, (assoc_L (++)).
Qed.

(** X5.  Every command gets exactly one response, and a turn that ends
    the loop (end of stream, or an exception) sends none.  Where the main
    thread has written no shared state, the response is sent within the
    turn.  After a [download_start], and after a pause, resume or cancel
    of a registered identifier, the response is still to be sent at the
    end of the turn (lines 320, 325, 332 and 339 follow the write): the
    threads may send events of their own first, and the next step of the
    main thread then sends the response, after these events. *)
Theorem one_response_per_command (o : oracle) (h : host) :
  match main_turn' o h with
  | Continue h' => exists m, sent h' = sent h ++ [m]
  | Send m h' =>
      sent h' = sent h
      /\ forall (js : list nat) (o1 : oracle),
          interrupt o1 = false ->
          exists evs h1 h2,
            execute' (map Thread js) (Sending m h') = Sending m h1
            /\ sent h1 = sent h ++ evs
            /\ occur' (Main o1) (Sending m h1) = Running h2
            /\ sent h2 = sent h ++ evs ++ [m]
  | Break h' | Crash _ h' => sent h' = sent h
  end.
Proof.
  assert (Hsend : forall m h',
             sent h' = sent h ->
             sent h' = sent h
             /\ forall (js : list nat) (o1 : oracle),
                 interrupt o1 = false ->
                 exists evs h1 h2,
                   execute' (map Thread js) (Sending m h') = Sending m h1
                   /\ sent h1 = sent h ++ evs
                   /\ occur' (Main o1) (Sending m h1) = Running h2
                   /\ sent h2 = sent h ++ evs ++ [m]).
  { intros m h' Hsame. split; [done|]. intros js o1 Hint1.
    destruct (threads_while_sending js m h') as (evs & h1 & Hex & Hevs).
    exists evs, h1, (reply m h1). split; [done|]. rewrite <- Hsame.
    split; [done|]. simpl. rewrite Hint1. split; [done|].
    by rewrite Hevs, (assoc_L (++)). }
  unfold main_turn. destruct (interrupt o); [done|].
  destruct (read_message loads (stdin h)) as [[msg|e] rest]; [|done].
  destruct msg as [| | | | |kv]; try done.
  unfold dispatch, control, download_start.
  repeat match goal with
         | |- context [if ?b then _ else _] => destruct b
         end;
    try (by eexists); try (apply Hsend; reflexivity);
    (destruct (registered _ _) as [[i|]|e];
     [apply Hsend; reflexivity | by eexists | done]).
Qed.

End TurnProperties.



Lemma unknown_id_response_witness :
  occur Json.loads int_of_str (fixed_source resource) tmp_of (Main quiet)
    (Running (boot (frame Json.dumps (PyDict (pause_of (PyStr "nobody"))))))
  = Running {| stdin := []; DOWNLOADS := ∅; threads := [];
               sent := [] ++ [error_response "unknown id"] |}.
Proof.
  apply (unknown_id_response Json.loads int_of_str (fixed_source resource) tmp_of
           quiet (boot (frame Json.dumps (PyDict (pause_of (PyStr "nobody")))))
           (pause_of (PyStr "nobody")) [] "download_pause" (set_pause true)).
  - reflexivity.
  - vm_compute. reflexivity.
  - apply list_elem_of_here.
  - reflexivity.
  - reflexivity.
Defined.


(** ** Transfers do not touch one another *)

Lemma control_thread (f : info -> info) (kv : list (string * value)) (h : host)
  (j : nat) (t : transfer) :
  threads h !! j = Some t ->
  threads (host_of_turn (control f kv h)) !! j = Some t
  \/ (exists s, dict_get "id" kv = PyStr s /\ DOWNLOADS h !! s = Some j
                /\ threads (host_of_turn (control f kv h)) !! j = Some (with_info f t)).
Proof.
  intros Hj. unfold control, registered.
  destruct (truthy (dict_get "id" kv)); [|by left].
  destruct (dict_get "id" kv) as [|b|n|s|l|d] eqn:Hid; try by left.
  destruct (DOWNLOADS h !! s) as [i|] eqn:Hs; [|by left]. simpl.
  destruct (decide (i = j)) as [->|Hne].
  - right. exists s. split; [done|]. split; [done|].
    by rewrite list_lookup_alter_eq, Hj.
  - left. by rewrite list_lookup_alter_ne.
Qed.

Lemma dispatch_thread (o : oracle) (kv : list (string * value)) (h : host)
  (j : nat) (t : transfer) :
  threads h !! j = Some t ->
  threads (host_of_turn (dispatch o kv h)) !! j = Some t
  \/ (exists tag f s,
        (tag, f) ∈ control_commands /\ dict_get "type" kv = PyStr tag
        /\ dict_get "id" kv = PyStr s /\ DOWNLOADS h !! s = Some j
        /\ threads (host_of_turn (dispatch o kv h)) !! j = Some (with_info f t)).
Proof.
  intros Hj. unfold dispatch.
  destruct (is_str _ "preroll"); [by left|].
  destruct (is_str _ "download"); [by left|].
  destruct (is_str _ "download_start").
  { left. unfold download_start. simpl. by apply lookup_app_l_Some. }
  destruct (is_str _ "download_pause") eqn:Hp.
  { destruct (control_thread (set_pause true) kv h j t Hj) as [H|(s & Hid & Hs & H)];
      [by left|right].
    exists "download_pause", (set_pause true), s. apply is_str_true in Hp.
    repeat split; try done. unfold control_commands. set_solver. }
  destruct (is_str _ "download_resume") eqn:Hr.
  { destruct (control_thread (set_pause false) kv h j t Hj) as [H|(s & Hid & Hs & H)];
      [by left|right].
    exists "download_resume", (set_pause false), s. apply is_str_true in Hr.
    repeat split; try done. unfold control_commands. set_solver. }
  destruct (is_str _ "download_cancel") eqn:Hc.
  { destruct (control_thread set_cancel kv h j t Hj) as [H|(s & Hid & Hs & H)];
      [by left|right].
    exists "download_cancel", set_cancel, s. apply is_str_true in Hc.
    repeat split; try done. unfold control_commands. set_solver. }
  destruct (is_str _ "move"); [by left|].
  destruct (is_str _ "choose_folder"); [by left|].
  destruct (is_str _ "stat_path"); by left.
Qed.

Lemma step_keeps_flags (py_int : string -> option Z)
  (urlopen : value -> option Z -> opened) (fs : file_system)
  (t : transfer) :
  pause (t_info (fst (step py_int urlopen fs t))) = pause (t_info t)
  /\ cancel (t_info (fst (step py_int urlopen fs t))) = cancel (t_info t).
Proof.
  unfold step. destruct (t_pc t); simpl; try done;
    unfold connect, leave; by repeat case_match.
Qed.

Section IsolationProperties.
Variable loads : list byte -> option value.
Variable py_int : string -> option Z.
Variable urlopen : value -> option Z -> opened.
Variable fs : file_system.

Local Abbreviation step' := (step py_int urlopen fs).
Local Abbreviation main_turn' := (main_turn loads).
Local Abbreviation thread_step' := (thread_step py_int urlopen fs).
Local Abbreviation occur' := (occur loads py_int urlopen fs).
Local Abbreviation execute' := (execute loads py_int urlopen fs).

Lemma main_turn_thread (o : oracle) (h : host) (j : nat) (t : transfer) :
  threads h !! j = Some t ->
  threads (host_of_turn (main_turn' o h)) !! j = Some t
  \/ (exists kv rest tag f s,
        read_message loads (stdin h) = (Return (PyDict kv), rest)
        /\ (tag, f) ∈ control_commands /\ dict_get "type" kv = PyStr tag
        /\ dict_get "id" kv = PyStr s /\ DOWNLOADS h !! s = Some j
        /\ threads (host_of_turn (main_turn' o h)) !! j = Some (with_info f t)).
Proof.
  intros Hj. unfold main_turn. destruct (interrupt o); [by left|].
  destruct (read_message loads (stdin h)) as [[msg|e] rest]; [|by left].
  destruct msg as [| | | | |kv]; try by left.
  destruct (dispatch_thread o kv (consume rest h) j t Hj)
    as [H|(tag & f & s & Hin & Htag & Hid & Hs & H)]; [by left|right].
  by exists kv, rest, tag, f, s.
Qed.

Lemma occur_host (e : event) (h : host) :
  host_of (occur' e (Running h))
  = match e with
    | Main o => host_of_turn (main_turn' o h)
    | Thread i => thread_step' i h
    end.
Proof.
  destruct e as [o|i]; [|done]. simpl.
  destruct (main_turn' o h) as [h'|m h'|h'|ex h']; [done..|]. by destruct ex.
Qed.

(** X6.  The state of a transfer changes in two ways only: by a step of
    its own thread, or by a [download_pause], [download_resume] or
    [download_cancel] whose ['id'] is a key of [DOWNLOADS] registered to
    this very transfer, which writes the one flag and nothing else.  No
    step of another thread and no other command (a [download_start]
    included) changes it. *)
Theorem transfers_isolated (e : event) (h : host) (j : nat) (t : transfer) :
  threads h !! j = Some t ->
  exists t',
    threads (host_of (occur' e (Running h))) !! j = Some t'
    /\ (t' = t
        \/ (e = Thread j /\ t' = fst (step' t))
        \/ (exists o kv rest tag f s,
              e = Main o
              /\ read_message loads (stdin h) = (Return (PyDict kv), rest)
              /\ (tag, f) ∈ control_commands /\ dict_get "type" kv = PyStr tag
              /\ dict_get "id" kv = PyStr s /\ DOWNLOADS h !! s = Some j
              /\ t' = with_info f t
              /\ t_pc t' = t_pc t /\ downloaded t' = downloaded t
              /\ file t' = file t /\ res_body t' = res_body t)).
Proof.
  intros Hj. rewrite occur_host. destruct e as [o|i].
  - destruct (main_turn_thread o h j t Hj)
      as [H|(kv & rest & tag & f & s & Hread & Hin & Htag & Hid & Hs & H)].
    + exists t. split; [done | by left].
    + exists (with_info f t). split; [done|]. right. right.
      by exists o, kv, rest, tag, f, s.
  - unfold thread_step. destruct (decide (i = j)) as [->|Hne].
    + rewrite Hj. destruct (step' t) as [t' evs] eqn:Hstep. simpl.
      exists t'. split.
      * apply list_lookup_insert_eq. by eapply lookup_lt_Some.
      * by right; left.
    + exists t. split; [|by left].
      destruct (threads h !! i) as [ti|]; [|done].
      destruct (step' ti) as [ti' evs]. simpl. by rewrite list_lookup_insert_ne.
Qed.

Lemma occur_keeps_cancel (e : event) (h : host) (j : nat) (t : transfer) :
  threads h !! j = Some t -> cancel (t_info t) = true ->
  exists t', threads (host_of (occur' e (Running h))) !! j = Some t'
             /\ cancel (t_info t') = true.
Proof.
  intros Hj Hc. rewrite occur_host. destruct e as [o|i].
  - destruct (main_turn_thread o h j t Hj)
      as [H|(kv & rest & tag & f & s & _ & Hin & _ & _ & _ & H)].
    + by exists t.
    + exists (with_info f t). split; [done|]. unfold control_commands in Hin.
      repeat (apply elem_of_cons in Hin as [[= -> ->]|Hin]; [done|]).
      by apply elem_of_nil in Hin.
  - unfold thread_step. destruct (decide (i = j)) as [->|Hne].
    + rewrite Hj. pose proof (step_keeps_flags py_int urlopen fs t) as [_ Hk].
      destruct (step' t) as [t' evs]. simpl in *.
      exists t'. split; [|by rewrite Hk].
      apply list_lookup_insert_eq. by eapply lookup_lt_Some.
    + exists t. split; [|done].
      destruct (threads h !! i) as [ti|]; [|done].
      destruct (step' ti) as [ti' evs]. simpl. by rewrite list_lookup_insert_ne.
Qed.

(** X7.  A cancel is final: once the cancel flag of a transfer is set,
    nothing that happens later (commands of any kind, a
    [download_resume] included, and steps of any thread) clears it. *)
Theorem cancel_never_cleared (es : list event) (p : process) (j : nat)
  (t : transfer) :
  threads (host_of p) !! j = Some t ->
  cancel (t_info t) = true ->
  exists t', threads (host_of (execute' es p)) !! j = Some t'
             /\ cancel (t_info t') = true.
Proof.
  revert p t. induction es as [|e es IH]; intros p t Hj Hc; [by exists t|].
  simpl. destruct p as [h|m h|code h].
  - destruct (occur_keeps_cancel e h j t Hj Hc) as (t1 & Hj1 & Hc1).
    by apply (IH _ t1).
  - destruct e as [o|i].
    + apply (IH _ t); [|done]. simpl. by destruct (interrupt o).
    + destruct (occur_keeps_cancel (Thread i) h j t Hj Hc) as (t1 & Hj1 & Hc1).
      by apply (IH _ t1).
  - by apply (IH _ t).
Qed.

(** X8.  Only [download_start] adds to the registry and starts a
    thread.  Every other turn of [main] leaves [DOWNLOADS] and the number
    of threads as they were; a [download_start] binds the new identifier
    to one new thread, which stands at the top of its loop with both flags
    clear and nothing downloaded, and leaves the other bindings alone. *)
Theorem only_download_start_registers (o : oracle) (h : host) :
  (DOWNLOADS (host_of_turn (main_turn' o h)) = DOWNLOADS h
   /\ length (threads (host_of_turn (main_turn' o h))) = length (threads h))
  \/ (exists kv rest t,
        read_message loads (stdin h) = (Return (PyDict kv), rest)
        /\ dict_get "type" kv = PyStr "download_start"
        /\ DOWNLOADS (host_of_turn (main_turn' o h))
           = <[str_uuid (uuid4 o) := length (threads h)]> (DOWNLOADS h)
        /\ threads (host_of_turn (main_turn' o h)) = threads h ++ [t]
        /\ t_did t = str_uuid (uuid4 o) /\ t_req t = PyDict kv
        /\ t_pc t = Request /\ downloaded t = 0%Z
        /\ pause (t_info t) = false /\ cancel (t_info t) = false
        /\ (forall s, s <> str_uuid (uuid4 o) ->
                      DOWNLOADS (host_of_turn (main_turn' o h)) !! s
                      = DOWNLOADS h !! s)).
Proof.
  unfold main_turn. destruct (interrupt o); [by left|].
  destruct (read_message loads (stdin h)) as [[msg|e] rest]; [|by left].
  destruct msg as [| | | | |kv]; try by left.
  unfold dispatch.
  destruct (is_str _ "preroll"); [by left|].
  destruct (is_str _ "download"); [by left|].
  destruct (is_str _ "download_start") eqn:Hs.
  { right. apply is_str_true in Hs. eexists kv, rest, _.
    split; [done|]. split; [done|]. unfold download_start. simpl.
    repeat split; try done. intros s Hne. by rewrite lookup_insert_ne. }
  left.
  repeat match goal with
         | |- context [if ?b then _ else _] => destruct b
         end; try done;
    unfold control; destruct (registered _ _) as [[i|]|e]; simpl; try done;
    by rewrite length_alter.
Qed.





End IsolationProperties.

Lemma transfers_isolated_witness :
  threads serving !! 0%nat = Some serving_thread
  /\ exists t',
      threads (host_of (occur Json.loads int_of_str (fixed_source resource) tmp_of
                          (Thread 0) (Running serving))) !! 0%nat = Some t'.
Proof.
  assert (H : threads serving !! 0%nat = Some serving_thread)
    by (vm_compute; reflexivity).
  split; [exact H|].
  destruct (transfers_isolated Json.loads int_of_str (fixed_source resource) tmp_of
              (Thread 0) serving 0 serving_thread H) as (t' & Ht' & _).
  exists t'. exact Ht'.
Defined.

Lemma cancel_never_cleared_witness :
  exists t',
    threads (host_of (execute Json.loads int_of_str (fixed_source resource) tmp_of
                        [Thread 0; Main quiet] (Running cancelling))) !! 0%nat
    = Some t'
    /\ cancel (t_info t') = true.
Proof.
  apply (cancel_never_cleared Json.loads int_of_str (fixed_source resource) tmp_of
           [Thread 0; Main quiet] (Running cancelling) 0 cancelled_in_flight).
  - reflexivity.
  - vm_compute. reflexivity.
Defined.


(** ** Runs of the retrieval loop *)

Lemma progress_counts_app (l1 l2 : list value) :
  progress_counts (l1 ++ l2) = progress_counts l1 ++ progress_counts l2.
Proof.
  induction l1 as [|e l1 IH]; [done|]. simpl.
  destruct e as [| | | | |kv]; try done.
  destruct (is_str _ _); [|done].
  destruct (dict_get "downloaded" kv); try done. by rewrite IH.
Qed.

Lemma climbs_app (d : Z) (l1 l2 : list Z) :
  climbs d l1 -> climbs (default d (last l1)) l2 -> climbs d (l1 ++ l2).
Proof.
  revert d. induction l1 as [|c l1 IH]; intros d H1 H2; [done|].
  destruct H1 as [Hc H1]. split; [done|]. apply IH; [done|].
  destruct l1 as [|c' l1']; [done|]. rewrite last_cons_cons in H2.
  destruct (last (c' :: l1')) eqn:E; [done|]. by apply last_None in E.
Qed.

Section TransferRuns.
Variable py_int : string -> option Z.
Variable urlopen : value -> option Z -> opened.
Variable fs : file_system.

Local Abbreviation step' := (step py_int urlopen fs).
Local Abbreviation perform' := (perform py_int urlopen fs).
Local Abbreviation run' := (run py_int urlopen fs).
Local Opaque chunk_size.

Lemma run_cons (a : action) (sched : list action) (t : transfer) :
  run' (a :: sched) t
  = (fst (run' sched (fst (perform' a t))),
     snd (perform' a t) ++ snd (run' sched (fst (perform' a t)))).
Proof.
  simpl. destruct (perform' a t) as [t1 evs1]. simpl.
  by destruct (run' sched t1).
Qed.

(** A step that does not return sends no terminal event; a step that
    returns sends one event, which is terminal, or the Cancelled event and
    the error event. *)
Lemma step_terminal (t : transfer) :
  t_pc t <> Finished ->
  (t_pc (fst (step' t)) <> Finished
   /\ Forall (fun e => is_terminal e = false) (snd (step' t)))
  \/ (t_pc (fst (step' t)) = Finished
      /\ ((exists e, snd (step' t) = [e] /\ is_terminal e = true)
          \/ (exists c e, snd (step' t) = [c; e]
                          /\ is_event "cancelled" c = true
                          /\ is_event "error" e = true))).
Proof.
  intros Hpc. unfold step. destruct (t_pc t); [| | | | | | |done];
    unfold connect, leave; repeat case_match; simpl;
    first [ left; split; [done | by repeat constructor]
          | right; split; [done|]; left; by eexists
          | right; split; [done|]; right; by eexists _, _ ].
Qed.

Lemma perform_terminal (a : action) (t : transfer) :
  t_pc t <> Finished ->
  (t_pc (fst (perform' a t)) <> Finished
   /\ Forall (fun e => is_terminal e = false) (snd (perform' a t)))
  \/ (t_pc (fst (perform' a t)) = Finished
      /\ ((exists e, snd (perform' a t) = [e] /\ is_terminal e = true)
          \/ (exists c e, snd (perform' a t) = [c; e]
                          /\ is_event "cancelled" c = true
                          /\ is_event "error" e = true))).
Proof.
  intros Hpc. destruct a; [by apply step_terminal|..];
    left; (split; [done | constructor]).
Qed.

(** X10.  The events of a transfer end with its terminal events, one or
    two.  As long as the loop has not returned, it has sent no done,
    cancelled or error event.  When it has returned, what it sent ends
    with one terminal event, or with two: a Cancelled event followed by
    the error event of line 153, which is what happens when the close of
    the destination file raises as the [return] of line 128 or 136 leaves
    the [with] block.  A done or an error event is always the last event,
    and nothing follows however long the thread and the dispatcher go
    on. *)
Theorem one_terminal_event (sched : list action) (t : transfer) :
  t_pc t <> Finished ->
  (t_pc (fst (run' sched t)) <> Finished
   /\ Forall (fun e => is_terminal e = false) (snd (run' sched t)))
  \/ (t_pc (fst (run' sched t)) = Finished
      /\ exists before tail,
          snd (run' sched t) = before ++ tail
          /\ Forall (fun e => is_terminal e = false) before
          /\ ((exists e, tail = [e] /\ is_terminal e = true)
              \/ (exists c e, tail = [c; e]
                              /\ is_event "cancelled" c = true
                              /\ is_event "error" e = true))
          /\ forall more, snd (run' (sched ++ more) t) = before ++ tail).
Proof.
  revert t. induction sched as [|a sched IH]; intros t Hpc.
  - left. split; [done | constructor].
  - rewrite run_cons. cbn [fst snd].
    destruct (perform_terminal a t Hpc) as [[Hgo Hnone]|(Hfin & Htail)].
    + destruct (IH _ Hgo)
        as [[Hgo' Hnone']|(Hfin' & before & tail & He & Hb & Htail & Hmore)].
      * left. split; [done|]. by apply Forall_app.
      * right. split; [done|].
        exists (snd (perform' a t) ++ before), tail.
        split; [by rewrite He, (assoc_L (++))|].
        split; [by apply Forall_app|]. split; [done|].
        intros more. rewrite <- app_comm_cons, run_cons. cbn [fst snd].
        by rewrite Hmore, (assoc_L (++)).
    + right.
      destruct (run_finished py_int urlopen fs sched _ Hfin) as [Hnil Hfin'].
      split; [done|]. exists [], (snd (perform' a t)). rewrite Hnil.
      split; [by rewrite (right_id_L [] (++))|]. split; [constructor|].
      split; [done|].
      intros more. rewrite <- app_comm_cons, run_cons. cbn [fst snd].
      destruct (run_finished py_int urlopen fs (sched ++ more) _ Hfin) as [-> _].
      by rewrite (right_id_L [] (++)).
Qed.

(** What one action adds to the progress counts. *)
Lemma perform_progress (a : action) (t : transfer) :
  (progress_counts (snd (perform' a t)) = []
   /\ downloaded (fst (perform' a t)) = downloaded t)
  \/ (progress_counts (snd (perform' a t)) = [downloaded (fst (perform' a t))]
      /\ (downloaded t < downloaded (fst (perform' a t)) <= downloaded t + chunk_size)%Z).
Proof.
  destruct a; try (by left). simpl. unfold step.
  destruct (t_pc t); try (left; unfold connect, leave; by repeat case_match).
  destruct (take (Z.to_nat chunk_size) (res_body t)) as [|b chunk] eqn:Hchunk.
  - left. unfold leave. by repeat case_match.
  - destruct (fault fs _) as [[msg kept]|].
    + left. unfold leave. by repeat case_match.
    + right. split; [reflexivity|]. simpl downloaded.
      assert (Hlen : (length (b :: chunk) <= Z.to_nat chunk_size)%nat).
      { rewrite <- Hchunk, length_take. lia. }
      pose proof chunk_size_positive. simpl length in *. lia.
Qed.

(** X11.  The counts reported by the progress events of a transfer climb:
    each is above the one before it (the count at which the run began, for
    the first) by at least one byte and at most [chunk_size] = 8192 bytes,
    and the last one reported is the count that the transfer holds. *)
Theorem progress_climbs (sched : list action) (t : transfer) :
  climbs (downloaded t) (progress_counts (snd (run' sched t)))
  /\ downloaded (fst (run' sched t))
     = default (downloaded t) (last (progress_counts (snd (run' sched t)))).
Proof.
  revert t. induction sched as [|a sched IH]; intros t; [done|].
  rewrite run_cons. simpl. rewrite progress_counts_app.
  destruct (IH (fst (perform' a t))) as [Hclimb Hlast].
  destruct (perform_progress a t) as [[-> Hd]|[-> Hd]]; simpl.
  - rewrite Hd in Hclimb, Hlast. by split.
  - split; [by split|]. rewrite Hlast.
    destruct (progress_counts (snd (run' sched (fst (perform' a t))))) as [|c l];
      [done|].
    rewrite last_cons_cons.
    destruct (last (c :: l)) eqn:E; [done|]. by apply last_None in E.
Qed.

End TransferRuns.

Lemma one_terminal_event_witness :
  t_pc (fst (run int_of_str (fixed_source morsel) full_disk
               (replicate 4 Tick ++ [Cancel; Tick]) started)) = Finished
  /\ exists before tail,
      snd (run int_of_str (fixed_source morsel) full_disk
             (replicate 4 Tick ++ [Cancel; Tick]) started) = before ++ tail
      /\ ((exists e, tail = [e] /\ is_terminal e = true)
          \/ (exists c e, tail = [c; e]
                          /\ is_event "cancelled" c = true
                          /\ is_event "error" e = true)).
Proof.
  destruct (one_terminal_event int_of_str (fixed_source morsel) full_disk
              (replicate 4 Tick ++ [Cancel; Tick]) started)
    as [[Hgo _]|(Hfin & before & tail & Hev & _ & Htail & _)].
  - discriminate.
  - exfalso. apply Hgo. vm_compute. reflexivity.
  - split; [exact Hfin|]. exists before, tail. split; [exact Hev | exact Htail].
Defined.

Section TransferFiles.
Variable py_int : string -> option Z.
Variable urlopen : value -> option Z -> opened.
Variable fs : file_system.

Local Abbreviation step' := (step py_int urlopen fs).
Local Abbreviation perform' := (perform py_int urlopen fs).
Local Abbreviation run' := (run py_int urlopen fs).
Local Opaque chunk_size.

Lemma take_prefix (kept : nat) (f rest : list byte) :
  exists rest', f ++ rest = take kept f ++ rest'.
Proof.
  exists (drop kept f ++ rest). by rewrite (assoc_L (++)), take_drop.
Qed.

(** Leaving the [with] block keeps what the file holds, or a beginning of
    it when the close fails. *)
Lemma leave_consistent (whole rest : list byte) (before after : list value)
  (t : transfer) :
  whole = file t ++ rest ->
  consistent whole (fst (leave fs before after t))
  /\ t_req (fst (leave fs before after t)) = t_req t.
Proof.
  intros Hwhole. unfold leave, consistent.
  destruct (fault fs _) as [[msg kept]|]; simpl; (split; [|done]).
  - rewrite Hwhole. apply take_prefix.
  - by exists rest.
Qed.

Lemma step_consistent (whole : list byte) (t : transfer) :
  (forall res, urlopen (t_req t) None = Opened res -> body res = whole) ->
  consistent whole t ->
  consistent whole (fst (step' t)) /\ t_req (fst (step' t)) = t_req t.
Proof.
  intros Hwhole Hc. unfold step. unfold consistent in Hc.
  destruct (t_pc t) eqn:E.
  - destruct Hc as (Hfile & Hd & Hmode). unfold connect.
    assert (Hrange : range_of t = None) by (unfold range_of; by rewrite Hd).
    rewrite Hrange. destruct (urlopen (t_req t) None) as [res|msg] eqn:Hopen.
    + specialize (Hwhole res eq_refl). rewrite Hmode, Hfile.
      repeat case_match; simpl; (split; [|done]); unfold consistent; simpl;
        first [ by exists whole | by rewrite Hwhole ].
    + simpl. split; [|done]. unfold consistent. simpl. exists whole.
      by rewrite Hfile.
  - destruct Hc as [Hw Hlen].
    destruct (cancel (t_info t)); [by apply (leave_consistent _ (res_body t))|].
    split; [|done]. unfold consistent. by simpl.
  - destruct Hc as [Hw Hlen].
    destruct (pause (t_info t)); (split; [|done]); unfold consistent; by simpl.
  - destruct Hc as [Hw Hlen].
    destruct (pause (t_info t)); (split; [|done]); unfold consistent; by simpl.
  - destruct Hc as [Hw Hlen].
    destruct (cancel (t_info t)); (split; [|done]); unfold consistent; by simpl.
  - destruct Hc as [Hw Hlen].
    destruct (cancel (t_info t)); [by apply (leave_consistent _ (res_body t))|].
    by apply (leave_consistent _ (res_body t) _ _ (set_mode ab t)).
  - destruct Hc as [Hw Hlen].
    destruct (take (Z.to_nat chunk_size) (res_body t)) as [|b chunk] eqn:Hchunk.
    + destruct (res_fault t); by apply (leave_consistent _ (res_body t)).
    + assert (Hsplit : whole
                       = (file t ++ b :: chunk)
                         ++ drop (Z.to_nat chunk_size) (res_body t)).
      { by rewrite <- (assoc_L (++)), <- Hchunk, take_drop. }
      destruct (fault fs _) as [[msg kept]|].
      * destruct (take_prefix kept (file t ++ b :: chunk)
                    (drop (Z.to_nat chunk_size) (res_body t))) as [rest' Hrest'].
        apply (leave_consistent _ rest' _ _
                 (with_file (take kept (file t ++ b :: chunk)) t)).
        simpl. by rewrite Hsplit.
      * split; [|done]. unfold consistent. simpl. split; [done|].
        rewrite length_app. simpl length in *. lia.
  - simpl. split; [|done]. unfold consistent. by rewrite E.
Qed.

Lemma perform_consistent (whole : list byte) (a : action) (t : transfer) :
  (forall res, urlopen (t_req t) None = Opened res -> body res = whole) ->
  consistent whole t ->
  consistent whole (fst (perform' a t)) /\ t_req (fst (perform' a t)) = t_req t.
Proof.
  intros Hwhole Hc. destruct a; [by apply step_consistent|..]; done.
Qed.

Lemma run_consistent (whole : list byte) (sched : list action) (t : transfer) :
  (forall res, urlopen (t_req t) None = Opened res -> body res = whole) ->
  consistent whole t ->
  consistent whole (fst (run' sched t)).
Proof.
  revert t. induction sched as [|a sched IH]; intros t Hwhole Hc; [done|].
  rewrite run_cons. cbn [fst].
  destruct (perform_consistent whole a t Hwhole Hc) as [Hc' Hreq].
  apply IH; [|done]. by rewrite Hreq.
Qed.

(** A step that returns without an error event has closed the file with
    every byte that was counted in it; a done event, in particular, is
    sent by such a step and reports that count. *)
Lemma step_intact (whole : list byte) (t : transfer) :
  consistent whole t ->
  t_pc t <> Finished ->
  t_pc (fst (step' t)) = Finished ->
  Forall (fun e => is_event "error" e = false) (snd (step' t)) ->
  intact (fst (step' t))
  /\ forall e, e ∈ snd (step' t) -> is_event "done" e = true ->
               py_get e "size" = Return (PyInt (downloaded (fst (step' t)))).
Proof.
  intros Hc Hpc. unfold consistent in Hc. unfold step, intact.
  destruct (t_pc t) eqn:E; [| | | | | | |done].
  - unfold connect. repeat case_match; simpl; try done;
      intros _ Hno; exfalso; apply Forall_cons in Hno as [Hno _]; done.
  - destruct Hc as [_ Hlen]. unfold leave.
    repeat case_match; simpl; try done.
    + intros _ Hno. exfalso.
      apply Forall_cons in Hno as [_ Hno]. apply Forall_cons in Hno as [Hno _]. done.
    + intros _ _. split; [done|]. intros e He. event_cases He.
  - by destruct (pause (t_info t)).
  - by destruct (pause (t_info t)).
  - by destruct (cancel (t_info t)).
  - destruct Hc as [_ Hlen]. unfold leave.
    repeat case_match; simpl; try done;
      try (intros _ Hno; exfalso;
           first [ apply Forall_cons in Hno as [Hno _]; done
                 | apply Forall_cons in Hno as [_ Hno];
                   apply Forall_cons in Hno as [Hno _]; done ]);
      intros _ _; (split; [done|]); intros e He; event_cases He.
  - destruct Hc as [_ Hlen]. unfold leave.
    repeat case_match; simpl; try done;
      try (intros _ Hno; exfalso; apply Forall_cons in Hno as [Hno _]; done);
      intros _ _; (split; [done|]); intros e He; event_cases He.
Qed.

Lemma run_returned (sched : list action) (t : transfer) :
  t_pc t = Finished ->
  downloaded (fst (run' sched t)) = downloaded t
  /\ file (fst (run' sched t)) = file t.
Proof.
  revert t. induction sched as [|a sched IH]; intros t Hpc; [done|].
  rewrite run_cons. cbn [fst].
  assert (H : t_pc (fst (perform' a t)) = Finished
              /\ downloaded (fst (perform' a t)) = downloaded t
              /\ file (fst (perform' a t)) = file t).
  { destruct a; simpl; try done. unfold step. by rewrite Hpc. }
  destruct H as (Hpc' & Hd & Hf). destruct (IH _ Hpc') as [-> ->]. done.
Qed.

(** The dispatcher's writes send nothing and touch neither the position
    nor the file nor the count. *)
Lemma flag_keeps (whole : list byte) (a : action) (t : transfer) :
  a <> Tick ->
  snd (perform' a t) = []
  /\ t_pc (fst (perform' a t)) = t_pc t
  /\ downloaded (fst (perform' a t)) = downloaded t
  /\ file (fst (perform' a t)) = file t.
Proof. by destruct a. Qed.

(** Over a run that sends no error event: once the thread has returned,
    its file holds exactly what it has counted. *)
Lemma run_intact (whole : list byte) (sched : list action) (t : transfer) :
  (forall res, urlopen (t_req t) None = Opened res -> body res = whole) ->
  consistent whole t ->
  t_pc t <> Finished ->
  t_pc (fst (run' sched t)) = Finished ->
  Forall (fun e => is_event "error" e = false) (snd (run' sched t)) ->
  intact (fst (run' sched t)).
Proof.
  revert t. induction sched as [|a sched IH]; intros t Hwhole Hc Hpc Hfin Hno;
    [done|].
  rewrite run_cons in Hfin, Hno. rewrite run_cons. cbn [fst snd] in *.
  apply Forall_app in Hno as [Hno1 Hno2].
  destruct (perform_consistent whole a t Hwhole Hc) as [Hc' Hreq].
  destruct (decide (t_pc (fst (perform' a t)) = Finished)) as [Hret|Hgo].
  - destruct (run_returned sched _ Hret) as [Hd Hf].
    unfold intact. rewrite Hd, Hf.
    destruct (decide (a = Tick)) as [->|Hne].
    + by apply (step_intact whole t).
    + destruct (flag_keeps whole a t Hne) as (_ & Hsame & _). congruence.
  - apply IH; try done. by rewrite Hreq.
Qed.

Lemma run_done (whole : list byte) (sched : list action) (t : transfer) (e : value) :
  (forall res, urlopen (t_req t) None = Opened res -> body res = whole) ->
  consistent whole t ->
  t_pc t <> Finished ->
  e ∈ snd (run' sched t) -> is_event "done" e = true ->
  py_get e "size" = Return (PyInt (downloaded (fst (run' sched t))))
  /\ intact (fst (run' sched t)).
Proof.
  revert t. induction sched as [|a sched IH]; intros t Hwhole Hc Hpc He Hdone.
  - by apply elem_of_nil in He.
  - rewrite run_cons in He. rewrite run_cons. cbn [fst snd] in *.
    destruct (perform_consistent whole a t Hwhole Hc) as [Hc' Hreq].
    destruct (decide (t_pc (fst (perform' a t)) = Finished)) as [Hret|Hgo].
    + destruct (run_returned sched _ Hret) as [Hd Hf].
      destruct (run_finished py_int urlopen fs sched _ Hret) as [Hnil _].
      rewrite Hnil, (right_id_L [] (++)) in He.
      unfold intact. rewrite Hd, Hf.
      destruct (decide (a = Tick)) as [->|Hne].
      * simpl in *.
        assert (Hno : Forall (fun e => is_event "error" e = false) (snd (step' t))).
        { destruct (step_event py_int urlopen fs t)
            as [H0|[(e0 & H1 & _)|(msg & H2 & _)]].
          - rewrite H0. constructor.
          - rewrite H1 in He |- *. apply list_elem_of_singleton in He as ->.
            constructor; [|constructor].
            destruct e0 as [| | | | |kv]; try done. simpl in *.
            destruct (dict_get "type" kv) as [| | |s| |]; try done. simpl in *.
            apply String.eqb_eq in Hdone as ->. done.
          - rewrite H2 in He. exfalso.
            apply elem_of_cons in He as [->|He]; [done|].
            apply list_elem_of_singleton in He as ->. done. }
        destruct (step_intact whole t Hc Hpc Hret Hno) as [Hint Hsize].
        split; [by apply Hsize | done].
      * destruct (flag_keeps whole a t Hne) as (Hnone & _).
        rewrite Hnone in He. by apply elem_of_nil in He.
    + apply elem_of_app in He as [He|He].
      * exfalso. destruct (decide (a = Tick)) as [->|Hne].
        -- simpl in *.
           assert (Hret : t_pc (fst (step' t)) = Finished); [|done].
           revert He Hdone. clear. unfold step.
           destruct (t_pc t); unfold connect, leave; repeat case_match; simpl;
             intros He; event_cases He.
        -- destruct (flag_keeps whole a t Hne) as (Hnone & _).
           rewrite Hnone in He. by apply elem_of_nil in He.
      * apply IH; try done. by rewrite Hreq.
Qed.

(** X12.  For a download that [main] starts, over every interleaving of
    its steps with pauses, resumes and cancels, and whatever the file
    system does: the file always holds a beginning of the body of the
    response, never anything else.  When the thread has returned without
    an error event (on done, or on cancelled with a close that succeeded),
    the file holds exactly as many bytes as [downloaded] counts; and a
    done event reports as [size] the number of bytes in the file.  After
    an error event the file may hold less than was counted and reported:
    what the fault has left. *)
Theorem file_holds_what_is_counted (did : string) (req url : value)
  (sched : list action) :
  let r := run' sched (threaded_download did req (new_info did url)) in
  (forall res, urlopen req None = Opened res ->
               exists rest, body res = file (fst r) ++ rest)
  /\ (forall msg, urlopen req None = Failed msg -> file (fst r) = [])
  /\ (t_pc (fst r) = Finished ->
      Forall (fun e => is_event "error" e = false) (snd r) ->
      Z.of_nat (length (file (fst r))) = downloaded (fst r))
  /\ (forall e, e ∈ snd r -> is_event "done" e = true ->
        py_get e "size" = Return (PyInt (Z.of_nat (length (file (fst r)))))).
Proof.
  intros r. subst r.
  set (t0 := threaded_download did req (new_info did url)).
  assert (H0 : forall whole, consistent whole t0) by (intros whole; by repeat split).
  assert (Hinv : forall whole,
             (forall res, urlopen req None = Opened res -> body res = whole) ->
             consistent whole (fst (run' sched t0))).
  { intros whole Hwhole. by apply run_consistent. }
  assert (Hprefix : forall whole,
             (forall res, urlopen req None = Opened res -> body res = whole) ->
             exists rest, whole = file (fst (run' sched t0)) ++ rest).
  { intros whole Hwhole. specialize (Hinv whole Hwhole). unfold consistent in Hinv.
    destruct (t_pc (fst (run' sched t0)));
      try (destruct Hinv as [Hw _]; by eexists); [|done].
    destruct Hinv as (Hfile & _). exists whole. by rewrite Hfile. }
  split; [|split; [|split]].
  - intros res Hopen. apply Hprefix. intros res' Hres'. congruence.
  - intros msg Hfail.
    destruct (Hprefix []) as [rest Hrest]; [intros res; congruence|].
    symmetry in Hrest. by apply app_nil in Hrest as [? _].
  - intros Hfin Hno.
    destruct (urlopen req None) as [res|msg] eqn:Hopen.
    + apply (run_intact (body res) sched t0); try done.
      intros res' Hres'. change (urlopen req None = Opened res') in Hres'. congruence.
    + apply (run_intact [] sched t0); try done.
      intros res' Hres'. change (urlopen req None = Opened res') in Hres'. congruence.
  - intros e He Hdone.
    assert (Hsize : forall whole,
               (forall res, urlopen req None = Opened res -> body res = whole) ->
               py_get e "size"
               = Return (PyInt (Z.of_nat (length (file (fst (run' sched t0))))))).
    { intros whole Hwhole.
      destruct (run_done whole sched t0 e Hwhole (H0 whole)) as [Hs Hint]; try done.
      unfold intact in Hint. by rewrite Hint. }
    destruct (urlopen req None) as [res|msg] eqn:Hopen.
    + apply (Hsize (body res)). intros res' Hres'. congruence.
    + apply (Hsize []). intros res' Hres'. congruence.
Qed.

End TransferFiles.

Section TransferCompletion.
Variable py_int : string -> option Z.
Variable urlopen : value -> option Z -> opened.
Variable fs : file_system.

Local Abbreviation step' := (step py_int urlopen fs).
Local Abbreviation perform' := (perform py_int urlopen fs).
Local Abbreviation run' := (run py_int urlopen fs).
Local Opaque chunk_size.

Lemma run_ticks (n : nat) (t : transfer) :
  run' (replicate (S n) Tick) t
  = (fst (run' (replicate n Tick) (fst (step' t))),
     snd (step' t) ++ snd (run' (replicate n Tick) (fst (step' t)))).
Proof. change (replicate (S n) Tick) with (Tick :: replicate n Tick). apply run_cons. Qed.

(** With both flags clear and a file system that does not fail, three
    steps take the loop from line 126 through the read of one chunk. *)
Lemma chunk_round (t : transfer) :
  (forall op, fault fs op = None) ->
  t_pc t = AtCancel -> pause (t_info t) = false -> cancel (t_info t) = false ->
  run' (replicate 3 Tick) t
  = match take (Z.to_nat chunk_size) (res_body t) with
    | [] => (goto Finished (goto ReadChunk (goto AtPause t)),
             [closing_event t (downloaded t)])
    | chunk => write_chunk chunk (goto ReadChunk (goto AtPause t))
    end.
Proof.
  intros Hsound Hpc Hp Hc.
  assert (H1 : step' t = (goto AtPause t, []))
    by (unfold step; by rewrite Hpc, Hc).
  assert (H2 : step' (goto AtPause t) = (goto ReadChunk (goto AtPause t), []))
    by (unfold step; simpl; by rewrite Hp).
  assert (H3 : step' (goto ReadChunk (goto AtPause t))
               = match take (Z.to_nat chunk_size) (res_body t) with
                 | [] => (goto Finished (goto ReadChunk (goto AtPause t)),
                          [closing_event t (downloaded t)])
                 | chunk => write_chunk chunk (goto ReadChunk (goto AtPause t))
                 end).
  { unfold step, leave, closing_event. simpl.
    destruct (take (Z.to_nat chunk_size) (res_body t)); rewrite Hsound; [|done].
    by destruct (res_fault t). }
  rewrite run_ticks, H1. cbn [fst snd]. rewrite run_ticks, H2. cbn [fst snd].
  rewrite run_ticks, H3. simpl. rewrite (right_id_L [] (++)).
  by destruct (take (Z.to_nat chunk_size) (res_body t)).
Qed.

Lemma chunk_loop (k : nat) :
  (forall op, fault fs op = None) ->
  forall (t : transfer) (n : nat),
    (length (res_body t) <= k)%nat ->
    t_pc t = AtCancel -> pause (t_info t) = false -> cancel (t_info t) = false ->
    (3 * k + 3 <= n)%nat ->
    t_pc (fst (run' (replicate n Tick) t)) = Finished
    /\ file (fst (run' (replicate n Tick) t)) = file t ++ res_body t
    /\ downloaded (fst (run' (replicate n Tick) t))
       = (downloaded t + Z.of_nat (length (res_body t)))%Z
    /\ exists progress,
        Forall (fun e => is_event "progress" e = true) progress
        /\ snd (run' (replicate n Tick) t)
           = progress
             ++ [closing_event t (downloaded t + Z.of_nat (length (res_body t)))].
Proof.
  intros Hsound. induction k as [|k IH]; intros t n Hlen Hpc Hp Hc Hn.
  - destruct (res_body t) as [|b l] eqn:Hbody; [|simpl in Hlen; lia].
    replace n with (3 + (n - 3))%nat by lia.
    rewrite replicate_add, run_app, (chunk_round t Hsound Hpc Hp Hc), Hbody, take_nil.
    cbn [fst snd].
    destruct (run_finished py_int urlopen fs (replicate (n - 3) Tick)
                (goto Finished (goto ReadChunk (goto AtPause t))) eq_refl) as [He Hf].
    destruct (run_returned py_int urlopen fs (replicate (n - 3) Tick)
                (goto Finished (goto ReadChunk (goto AtPause t))) eq_refl) as [Hd Hfile].
    rewrite He, Hd, Hfile. simpl. rewrite Z.add_0_r, (right_id_L [] (++)).
    repeat split; try done. by exists [].
  - replace n with (3 + (n - 3))%nat by lia.
    rewrite replicate_add, run_app, (chunk_round t Hsound Hpc Hp Hc).
    destruct (take (Z.to_nat chunk_size) (res_body t)) as [|b chunk] eqn:Hchunk.
    + apply take_chunk_nil in Hchunk. cbn [fst snd].
      destruct (run_finished py_int urlopen fs (replicate (n - 3) Tick)
                  (goto Finished (goto ReadChunk (goto AtPause t))) eq_refl) as [He Hf].
      destruct (run_returned py_int urlopen fs (replicate (n - 3) Tick)
                  (goto Finished (goto ReadChunk (goto AtPause t))) eq_refl) as [Hd Hfile].
      rewrite He, Hd, Hfile, Hchunk. simpl. rewrite Z.add_0_r, (right_id_L [] (++)).
      repeat split; try done. by exists [].
    + set (t3 := fst (write_chunk (b :: chunk) (goto ReadChunk (goto AtPause t)))).
      assert (Hev3 : snd (write_chunk (b :: chunk) (goto ReadChunk (goto AtPause t)))
                     = [ev_progress (t_did t) (downloaded t3) (tf_path t) (total t)])
        by reflexivity.
      assert (Hbody3 : res_body t3 = drop (Z.to_nat chunk_size) (res_body t))
        by reflexivity.
      assert (Hfile3 : file t3 = file t ++ (b :: chunk)) by reflexivity.
      assert (Hd3 : downloaded t3
                    = (downloaded t + Z.of_nat (length (b :: chunk)))%Z)
        by reflexivity.
      assert (Hclose : forall size, closing_event t3 size = closing_event t size)
        by reflexivity.
      assert (Hpc3 : t_pc t3 = AtCancel) by reflexivity.
      assert (Hp3 : pause (t_info t3) = false) by exact Hp.
      assert (Hc3 : cancel (t_info t3) = false) by exact Hc.
      clearbody t3.
      assert (Hsplit : res_body t = (b :: chunk) ++ res_body t3).
      { by rewrite Hbody3, <- Hchunk, take_drop. }
      assert (Hlen3 : (length (res_body t3) <= k)%nat).
      { rewrite Hsplit, length_app in Hlen. simpl in Hlen. lia. }
      destruct (IH t3 (n - 3)%nat Hlen3 Hpc3 Hp3 Hc3)
        as (Hfin & Hfile & Hd & progress & Hprog & Hev); [lia|].
      cbn [fst snd]. rewrite Hev3, Hfin, Hfile, Hd, Hev, Hclose, Hfile3, Hd3.
      assert (Hz : (downloaded t + Z.of_nat (length (b :: chunk))
                    + Z.of_nat (length (res_body t3)))%Z
                   = (downloaded t + Z.of_nat (length (res_body t)))%Z).
      { rewrite Hsplit, length_app. lia. }
      rewrite Hz. split; [done|]. split.
      { by rewrite Hsplit, (assoc_L (++)). }
      split; [done|].
      exists (ev_progress (t_did t) (downloaded t + Z.of_nat (length (b :: chunk)))
                (tf_path t) (total t) :: progress).
      split; [by constructor | done].
Qed.

Lemma run_keeps_path (sched : list action) (t : transfer) :
  t_pc t <> Request ->
  i_path (t_info (fst (run' sched t))) = i_path (t_info t).
Proof.
  revert t. induction sched as [|a sched IH]; intros t Hpc; [done|].
  rewrite run_cons. cbn [fst].
  assert (H : t_pc (fst (perform' a t)) <> Request
              /\ i_path (t_info (fst (perform' a t))) = i_path (t_info t)).
  { destruct a; simpl; try done. split; [apply request_only_once|].
    unfold step. destruct (t_pc t); try done; unfold leave; by repeat case_match. }
  destruct H as [Hpc' Hpath]. by rewrite (IH _ Hpc').
Qed.

(** X13.  A download that is neither paused nor cancelled runs to its
    end, provided that the temporary file can be created (line 119 takes
    the suffix of ['filename'], and raises on one that the operating system
    refuses) and that no operation on the file fails.  Once the request is
    open, at most three steps per byte of the body (and four more) bring
    the loop to its return with the whole body in the file, counted in
    [downloaded], the path of the temporary file stored in the registry,
    and a run of progress events closed by the done event for the whole
    size, or by the error event when a fault ends the body. *)
Theorem uninterrupted_download (did : string) (req url : value)
  (res : response) (path : string) (n : nat) :
  urlopen req None = Opened res ->
  NamedTemporaryFile fs did (suffix_of req) = inl path ->
  (forall op, fault fs op = None) ->
  (4 + 3 * length (body res) <= n)%nat ->
  let r := run' (replicate n Tick) (threaded_download did req (new_info did url)) in
  t_pc (fst r) = Finished
  /\ file (fst r) = body res
  /\ downloaded (fst r) = Z.of_nat (length (body res))
  /\ i_path (t_info (fst r)) = Some path
  /\ exists progress,
      Forall (fun e => is_event "progress" e = true) progress
      /\ snd r
         = progress
           ++ [match body_fault res with
               | Some msg =>
                   PyDict [("type", PyStr "error"); ("id", PyStr did);
                           ("error", PyStr msg)]
               | None =>
                   PyDict [("type", PyStr "done"); ("id", PyStr did);
                           ("path", PyStr path);
                           ("size", PyInt (Z.of_nat (length (body res))));
                           ("finalUrl", PyStr (geturl res));
                           ("status", PyInt (getcode res))]
               end].
Proof.
  intros Hopen Htemp Hsound Hn r. subst r.
  replace n with (S (n - 1)) by lia. rewrite run_ticks.
  set (t0 := threaded_download did req (new_info did url)).
  assert (Hstep : step' t0
                  = ({| t_did := did; t_req := req;
                        t_info := set_path path (new_info did url);
                        t_pc := AtCancel; downloaded := 0; mode := wb;
                        status := getcode res; final_url := geturl res;
                        total := compute_total py_int (content_length res)
                                   (content_range res) 0;
                        tf_path := path;
                        res_body := body res; res_fault := body_fault res;
                        file := [] |}, [])).
  { unfold step, connect. simpl. change (range_of t0) with (@None Z).
    by rewrite Hopen, Htemp, Hsound. }
  rewrite Hstep. cbn [fst snd].
  match goal with
  | |- context [run' _ ?t1] =>
      destruct (chunk_loop (length (body res)) Hsound t1 (n - 1)%nat)
        as (Hfin & Hfile & Hd & progress & Hprog & Hev);
      [done | done | done | done | lia |]
  end.
  rewrite Hfin, Hfile, Hd, Hev. simpl.
  split; [done|]. split; [done|]. split; [done|]. split.
  - by rewrite run_keeps_path.
  - exists progress. split; [done|]. unfold closing_event. simpl.
    by destruct (body_fault res).
Qed.

(** X27.  When the temporary file cannot be created, the download ends
    before it has begun.  The request is opened all the same (line 100
    comes before line 119), and the first step of the thread then sends
    the error event of line 153 with the message of the exception, and
    returns: nothing is written or counted, no path is stored in the
    registry, no progress or done event is ever sent.  A ['filename']
    whose extension holds a NUL character is such a case. *)
Theorem temporary_file_refused (did : string) (req url : value)
  (res : response) (msg : string) (sched : list action) :
  urlopen req None = Opened res ->
  NamedTemporaryFile fs did (suffix_of req) = inr msg ->
  (1 <= ticks sched)%nat ->
  let r := run' sched (threaded_download did req (new_info did url)) in
  t_pc (fst r) = Finished
  /\ snd r = [PyDict [("type", PyStr "error"); ("id", PyStr did);
                      ("error", PyStr msg)]]
  /\ file (fst r) = []
  /\ downloaded (fst r) = 0%Z
  /\ i_path (t_info (fst r)) = None.
Proof.
  intros Hopen Htemp Hticks r. subst r.
  set (t0 := threaded_download did req (new_info did url)).
  assert (Hgen : forall sched t,
             (1 <= ticks sched)%nat ->
             t_pc t = Request -> t_did t = did -> t_req t = req ->
             downloaded t = 0%Z -> file t = [] -> i_path (t_info t) = None ->
             t_pc (fst (run' sched t)) = Finished
             /\ snd (run' sched t) = [ev_error did msg]
             /\ file (fst (run' sched t)) = []
             /\ downloaded (fst (run' sched t)) = 0%Z
             /\ i_path (t_info (fst (run' sched t))) = None).
  { clear sched Hticks. induction sched as [|a sched IH];
      intros t Hticks Hpc Hdid Hreq Hd Hfile Hpath; [simpl in Hticks; lia|].
    rewrite run_cons. cbn [fst snd].
    destruct (decide (a = Tick)) as [->|Hne].
    - assert (Hstep : exists t1,
                 step' t = (t1, [ev_error did msg])
                 /\ t_pc t1 = Finished /\ file t1 = [] /\ downloaded t1 = 0%Z
                 /\ i_path (t_info t1) = None).
      { unfold step, connect, range_of.
        rewrite Hpc, Hd, Hreq, Hdid, Hpath. simpl. rewrite Hopen, Htemp.
        eexists. split; [reflexivity|]. simpl. by rewrite Hfile, Hpath. }
      destruct Hstep as (t1 & Hstep & Hfin & Hf1 & Hd1 & Hp1).
      simpl perform. rewrite Hstep. cbn [fst snd].
      destruct (run_finished py_int urlopen fs sched t1 Hfin) as [Hnil Hfin'].
      destruct (run_returned py_int urlopen fs sched t1 Hfin) as [Hd' Hf'].
      rewrite Hnil, Hfin', Hd', Hf', run_keeps_path by (by rewrite Hfin).
      done.
    - assert (Hticks' : (1 <= ticks sched)%nat) by (by destruct a).
      assert (Hflag : snd (perform' a t) = []
                      /\ t_pc (fst (perform' a t)) = Request
                      /\ t_did (fst (perform' a t)) = did
                      /\ t_req (fst (perform' a t)) = req
                      /\ downloaded (fst (perform' a t)) = 0%Z
                      /\ file (fst (perform' a t)) = []
                      /\ i_path (t_info (fst (perform' a t))) = None)
        by (by destruct a).
      destruct Hflag as (-> & Hpc' & Hdid' & Hreq' & Hd' & Hf' & Hp').
      by apply IH. }
  by apply Hgen.
Qed.

End TransferCompletion.

Lemma uninterrupted_download_witness :
  t_pc (fst (run int_of_str (fixed_source resource) tmp_of
               (replicate (N.to_nat 30004) Tick) started)) = Finished
  /\ file (fst (run int_of_str (fixed_source resource) tmp_of
                  (replicate (N.to_nat 30004) Tick) started)) = resource
  /\ downloaded (fst (run int_of_str (fixed_source resource) tmp_of
                        (replicate (N.to_nat 30004) Tick) started))
     = Z.of_nat (length resource).
Proof.
  destruct (uninterrupted_download int_of_str (fixed_source resource) tmp_of
              "d" request (PyStr "http://host/file")
              {| getcode := 200; geturl := "http://host/file";
                 content_length := Some "10000"; content_range := None;
                 body := resource; body_fault := None |}
              "/tmp/d" (N.to_nat 30004))
    as (Hpc & Hfile & Hd & _).
  - vm_compute. reflexivity.
  - reflexivity.
  - reflexivity.
  - apply Nat.leb_le. vm_compute. reflexivity.
  - split; [exact Hpc|]. split; [exact Hfile | exact Hd].
Defined.

Lemma temporary_file_refused_witness :
  snd (run int_of_str (fixed_source resource) tmp_of [Tick; Tick; Tick]
         (threaded_download "d" nul_request (new_info "d" (PyStr "http://host/file"))))
  = [PyDict [("type", PyStr "error"); ("id", PyStr "d");
             ("error", PyStr "embedded null byte")]].
Proof.
  destruct (temporary_file_refused int_of_str (fixed_source resource) tmp_of
              "d" nul_request (PyStr "http://host/file")
              {| getcode := 200; geturl := "http://host/file";
                 content_length := Some "10000"; content_range := None;
                 body := resource; body_fault := None |}
              "embedded null byte" [Tick; Tick; Tick])
    as (_ & Hev & _).
  - vm_compute. reflexivity.
  - vm_compute. reflexivity.
  - simpl. lia.
  - exact Hev.
Defined.

Section TransferEdges.
Variable py_int : string -> option Z.
Variable urlopen : value -> option Z -> opened.
Variable fs : file_system.

Local Abbreviation step' := (step py_int urlopen fs).
Local Abbreviation perform' := (perform py_int urlopen fs).
Local Abbreviation run' := (run py_int urlopen fs).
Local Opaque chunk_size.

(** X14.  A cancel that is handled before the thread has taken a step
    does not keep the request from being made: the loop looks at the flag
    only at line 126, after line 100 has opened the request and lines
    119-124 have created and opened the temporary file.  If all of that
    succeeds, the transfer sends the Cancelled event and returns, leaving
    an empty file whose path is in the registry (and the error event
    follows the Cancelled event if the close of that file raises).  If the
    request fails, or the temporary file cannot be created or opened, the
    transfer sends the error event alone; the path is in the registry
    only when the file was created. *)
Theorem cancelled_before_first_step (did : string) (req url : value) (n : nat) :
  (2 <= n)%nat ->
  let r := run' (Cancel :: replicate n Tick)
             (threaded_download did req (new_info did url)) in
  let cancelled := PyDict [("type", PyStr "cancelled"); ("id", PyStr did)] in
  let error msg :=
    PyDict [("type", PyStr "error"); ("id", PyStr did); ("error", PyStr msg)] in
  t_pc (fst r) = Finished
  /\ file (fst r) = []
  /\ downloaded (fst r) = 0%Z
  /\ match urlopen req None with
     | Failed msg => snd r = [error msg] /\ i_path (t_info (fst r)) = None
     | Opened res =>
         match NamedTemporaryFile fs did (suffix_of req) with
         | inr msg => snd r = [error msg] /\ i_path (t_info (fst r)) = None
         | inl path =>
             i_path (t_info (fst r)) = Some path
             /\ match fault fs (OpenFile path wb) with
                | Some (msg, _) => snd r = [error msg]
                | None =>
                    match fault fs (CloseFile path []) with
                    | Some (msg, _) => snd r = [cancelled; error msg]
                    | None => snd r = [cancelled]
                    end
                end
         end
     end.
Proof.
  intros Hn r cancelled error. subst r cancelled error.
  replace n with (S (S (n - 2))) by lia.
  set (t0 := with_info set_cancel (threaded_download did req (new_info did url))).
  rewrite run_cons. change (perform' Cancel _) with (t0, @nil value).
  cbn [fst snd]. rewrite run_ticks.
  assert (Hend : forall t1 evs,
             step' t0 = (t1, evs) -> t_pc t1 = Finished ->
             t_pc (fst (run' (replicate (S (n - 2)) Tick) t1)) = Finished
             /\ file (fst (run' (replicate (S (n - 2)) Tick) t1)) = file t1
             /\ downloaded (fst (run' (replicate (S (n - 2)) Tick) t1)) = downloaded t1
             /\ evs ++ snd (run' (replicate (S (n - 2)) Tick) t1) = evs
             /\ i_path (t_info (fst (run' (replicate (S (n - 2)) Tick) t1)))
                = i_path (t_info t1)).
  { intros t1 evs _ Hfin.
    destruct (run_finished py_int urlopen fs (replicate (S (n - 2)) Tick) t1 Hfin)
      as [He Hf].
    destruct (run_returned py_int urlopen fs (replicate (S (n - 2)) Tick) t1 Hfin)
      as [Hd Hfile].
    rewrite He, Hf, Hd, Hfile, (right_id_L [] (++)), run_keeps_path
      by (by rewrite Hfin).
    done. }
  destruct (urlopen req None) as [res|msg] eqn:Hopen.
  - destruct (NamedTemporaryFile fs did (suffix_of req)) as [path|msg] eqn:Htemp.
    + destruct (fault fs (OpenFile path wb)) as [[msg kept]|] eqn:Hfault.
      * assert (H1 : exists t1, step' t0 = (t1, [ev_error did msg])
                                /\ t_pc t1 = Finished /\ file t1 = []
                                /\ downloaded t1 = 0%Z
                                /\ i_path (t_info t1) = Some path).
        { unfold step, connect. simpl. change (range_of t0) with (@None Z).
          rewrite Hopen, Htemp, Hfault. by eexists. }
        destruct H1 as (t1 & H1 & Hfin & Hf1 & Hd1 & Hp1).
        rewrite H1. cbn [fst snd].
        destruct (Hend t1 _ H1 Hfin) as (-> & -> & -> & -> & ->). done.
      * set (t1 := {| t_did := did; t_req := req;
                      t_info := set_path path (set_cancel (new_info did url));
                      t_pc := AtCancel; downloaded := 0; mode := wb;
                      status := getcode res; final_url := geturl res;
                      total := compute_total py_int (content_length res)
                                 (content_range res) 0;
                      tf_path := path;
                      res_body := body res; res_fault := body_fault res;
                      file := [] |}).
        assert (H1 : step' t0 = (t1, [])).
        { unfold step, connect. simpl. change (range_of t0) with (@None Z).
          by rewrite Hopen, Htemp, Hfault. }
        rewrite H1. cbn [fst snd]. rewrite run_ticks. cbn [fst snd].
        assert (H2 : step' t1 = leave fs [ev_cancelled did] [] t1) by reflexivity.
        destruct (run_finished py_int urlopen fs (replicate (n - 2) Tick)
                    (fst (step' t1))) as [He Hf].
        { rewrite H2. apply leave_returns. }
        destruct (run_returned py_int urlopen fs (replicate (n - 2) Tick)
                    (fst (step' t1))) as [Hd Hfile].
        { rewrite H2. apply leave_returns. }
        rewrite He, Hf, Hd, Hfile, (right_id_L [] (++)), run_keeps_path
          by (rewrite H2; by destruct (leave_returns fs [ev_cancelled did] [] t1)
                               as (-> & _)).
        rewrite H2. unfold leave. simpl.
        destruct (fault fs (CloseFile path [])) as [[msg kept]|]; simpl;
          by rewrite ?take_nil.
    + assert (H1 : exists t1, step' t0 = (t1, [ev_error did msg])
                              /\ t_pc t1 = Finished /\ file t1 = []
                              /\ downloaded t1 = 0%Z
                              /\ i_path (t_info t1) = None).
      { unfold step, connect. simpl. change (range_of t0) with (@None Z).
        rewrite Hopen, Htemp. by eexists. }
      destruct H1 as (t1 & H1 & Hfin & Hf1 & Hd1 & Hp1).
      rewrite H1. cbn [fst snd].
      destruct (Hend t1 _ H1 Hfin) as (-> & -> & -> & -> & ->). done.
  - assert (H1 : step' t0 = (goto Finished t0, [ev_error did msg])).
    { unfold step, connect. simpl. change (range_of t0) with (@None Z).
      by rewrite Hopen. }
    rewrite H1. cbn [fst snd].
    destruct (Hend _ _ H1 eq_refl) as (-> & -> & -> & -> & ->). done.
Qed.

(** While the pause lasts the loop only polls. *)
Lemma poll_round (t : transfer) :
  t_pc t = PollPause \/ t_pc t = PollCancel ->
  pause (t_info t) = true -> cancel (t_info t) = false ->
  snd (step' t) = []
  /\ (t_pc (fst (step' t)) = PollPause \/ t_pc (fst (step' t)) = PollCancel)
  /\ t_info (fst (step' t)) = t_info t
  /\ downloaded (fst (step' t)) = downloaded t
  /\ file (fst (step' t)) = file t
  /\ res_body (fst (step' t)) = res_body t.
Proof.
  intros [Hpc|Hpc] Hp Hc; unfold step; rewrite Hpc; [rewrite Hp | rewrite Hc];
    simpl; repeat split; auto.
Qed.

(** X15.  A paused transfer waits: from the moment the loop has noticed
    the pause, and as long as no resume or cancel is handled, its steps
    read nothing from the response, write nothing to the file and send
    nothing, however many they are. *)
Theorem paused_transfer_waits (t : transfer) (n : nat) :
  t_pc t = PollPause \/ t_pc t = PollCancel ->
  pause (t_info t) = true ->
  cancel (t_info t) = false ->
  snd (run' (replicate n Tick) t) = []
  /\ (t_pc (fst (run' (replicate n Tick) t)) = PollPause
      \/ t_pc (fst (run' (replicate n Tick) t)) = PollCancel)
  /\ downloaded (fst (run' (replicate n Tick) t)) = downloaded t
  /\ file (fst (run' (replicate n Tick) t)) = file t
  /\ res_body (fst (run' (replicate n Tick) t)) = res_body t.
Proof.
  revert t. induction n as [|n IH]; intros t Hpc Hp Hc; [done|].
  rewrite run_ticks. cbn [fst snd].
  destruct (poll_round t Hpc Hp Hc) as (He & Hpc' & Hi & Hd & Hf & Hb).
  destruct (IH (fst (step' t)) Hpc') as (He' & Hpc'' & Hd' & Hf' & Hb');
    [by rewrite Hi | by rewrite Hi |].
  rewrite He, He', Hd', Hf', Hb', Hd, Hf, Hb. done.
Qed.

End TransferEdges.

Lemma cancelled_before_first_step_witness :
  t_pc (fst (run int_of_str (fixed_source resource) tmp_of
               (Cancel :: replicate 2 Tick) started)) = Finished
  /\ file (fst (run int_of_str (fixed_source resource) tmp_of
                  (Cancel :: replicate 2 Tick) started)) = []
  /\ snd (run int_of_str (fixed_source resource) tmp_of
            (Cancel :: replicate 2 Tick) started)
     = [PyDict [("type", PyStr "cancelled"); ("id", PyStr "d")]].
Proof.
  destruct (cancelled_before_first_step int_of_str (fixed_source resource) tmp_of
              "d" request (PyStr "http://host/file") 2)
    as (Hpc & Hfile & _ & Hev).
  - lia.
  - split; [exact Hpc|]. split; [exact Hfile|]. exact (proj2 Hev).
Defined.

Lemma paused_transfer_waits_witness :
  snd (run int_of_str (fixed_source resource) tmp_of (replicate 7 Tick)
         paused_in_flight) = []
  /\ (t_pc (fst (run int_of_str (fixed_source resource) tmp_of (replicate 7 Tick)
                   paused_in_flight)) = PollPause
      \/ t_pc (fst (run int_of_str (fixed_source resource) tmp_of (replicate 7 Tick)
                      paused_in_flight)) = PollCancel)
  /\ downloaded (fst (run int_of_str (fixed_source resource) tmp_of (replicate 7 Tick)
                        paused_in_flight)) = downloaded paused_in_flight
  /\ file (fst (run int_of_str (fixed_source resource) tmp_of (replicate 7 Tick)
                  paused_in_flight)) = file paused_in_flight
  /\ res_body (fst (run int_of_str (fixed_source resource) tmp_of (replicate 7 Tick)
                      paused_in_flight)) = res_body paused_in_flight.
Proof.
  apply (paused_transfer_waits int_of_str (fixed_source resource) tmp_of
           paused_in_flight 7).
  - right. vm_compute. reflexivity.
  - vm_compute. reflexivity.
  - vm_compute. reflexivity.
Defined.

Section TransferLatency.
Variable py_int : string -> option Z.
Variable urlopen : value -> option Z -> opened.
Variable fs : file_system.

Local Abbreviation step' := (step py_int urlopen fs).
Local Abbreviation perform' := (perform py_int urlopen fs).
Local Abbreviation run' := (run py_int urlopen fs).
Local Opaque chunk_size.

(** One step with the cancel flag set: what it sends, how far it moves
    [downloaded], and how many steps are left before the loop returns.
    [reach l] is that number for a thread at [l], whatever the pause flag
    and the response. *)
Lemma cancel_step (t : transfer) :
  cancel (t_info t) = true ->
  cancel (t_info (fst (step' t))) = true
  /\ (forall k, closer (t_pc t) (S k) -> closer (t_pc (fst (step' t))) k)
  /\ ((progress_counts (snd (step' t)) = []
       /\ downloaded (fst (step' t)) = downloaded t)
      \/ (t_pc t = ReadChunk /\ t_pc (fst (step' t)) = AtCancel
          /\ length (progress_counts (snd (step' t))) = 1%nat
          /\ (downloaded (fst (step' t)) <= downloaded t + chunk_size)%Z)).
Proof.
  intros Hc.
  split; [by rewrite (proj2 (step_keeps_flags py_int urlopen fs t))|].
  unfold step. destruct (t_pc t) eqn:Hpc.
  - unfold connect. repeat case_match; simpl; (split; [|by left]);
      intros k; unfold closer; simpl; lia.
  - rewrite Hc. unfold leave. repeat case_match; simpl; (split; [|by left]);
      intros k; unfold closer; simpl; lia.
  - destruct (pause (t_info t)); simpl; (split; [|by left]);
      intros k; unfold closer; simpl; lia.
  - destruct (pause (t_info t)); simpl; (split; [|by left]);
      intros k; unfold closer; simpl; lia.
  - rewrite Hc. simpl. split; [|by left]. intros k. unfold closer. simpl. lia.
  - rewrite Hc. unfold leave. repeat case_match; simpl; (split; [|by left]);
      intros k; unfold closer; simpl; lia.
  - destruct (take (Z.to_nat chunk_size) (res_body t)) as [|b chunk] eqn:Hchunk.
    + unfold leave. repeat case_match; simpl; (split; [|by left]);
        intros k; unfold closer; simpl; lia.
    + destruct (fault fs _) as [[msg kept]|].
      * unfold leave. repeat case_match; simpl; (split; [|by left]);
          intros k; unfold closer; simpl; lia.
      * split; [intros k; unfold closer; simpl; lia|]. right.
        split; [done|]. split; [done|]. split; [reflexivity|]. simpl downloaded.
        assert (Hlen : (length (b :: chunk) <= Z.to_nat chunk_size)%nat).
        { rewrite <- Hchunk, length_take. lia. }
        pose proof chunk_size_positive. simpl length in *. lia.
  - simpl. split; [|by left]. intros k _. rewrite Hpc. unfold closer. simpl. lia.
Qed.

(** X16.  A cancel takes effect at the next chunk boundary.  Once the
    cancel flag of a transfer is set, four steps of its thread at most
    bring the loop to its return, whatever the pause flag and the response
    are; in these steps at most one more chunk is written and reported,
    so [downloaded] grows by [chunk_size] at most. *)
Theorem cancel_takes_effect (t : transfer) (n : nat) :
  cancel (t_info t) = true ->
  (4 <= n)%nat ->
  t_pc (fst (run' (replicate n Tick) t)) = Finished
  /\ (length (progress_counts (snd (run' (replicate n Tick) t))) <= 1)%nat
  /\ (downloaded t <= downloaded (fst (run' (replicate n Tick) t))
      <= downloaded t + chunk_size)%Z.
Proof.
  intros Hc Hn.
  assert (Hgen : forall k t,
             cancel (t_info t) = true -> closer (t_pc t) k ->
             t_pc (fst (run' (replicate k Tick) t)) = Finished
             /\ ((progress_counts (snd (run' (replicate k Tick) t)) = []
                  /\ downloaded (fst (run' (replicate k Tick) t)) = downloaded t)
                 \/ (t_pc t <> AtCancel
                     /\ length (progress_counts (snd (run' (replicate k Tick) t)))
                        = 1%nat
                     /\ (downloaded t
                         <= downloaded (fst (run' (replicate k Tick) t))
                         <= downloaded t + chunk_size)%Z))).
  { clear t n Hc Hn. induction k as [|k IH]; intros t Hc Hk.
    - unfold closer in Hk. destruct (t_pc t) eqn:Hpc; simpl in Hk; try lia.
      split; [done | by left].
    - rewrite run_ticks. cbn [fst snd]. rewrite progress_counts_app.
      destruct (cancel_step t Hc) as (Hc' & Hcloser & Hstep).
      destruct (IH _ Hc' (Hcloser k Hk)) as [Hfin Hrest].
      split; [done|].
      destruct Hstep as [[-> Hd]|(Hpc & Hpc' & Hone & Hd)].
      + destruct Hrest as [[-> Hd']|(Hne & Hone' & Hd')].
        * left. split; [done | congruence].
        * destruct (decide (t_pc t = AtCancel)) as [Hat|Hat].
          { exfalso.
            assert (Hret : t_pc (fst (step' t)) = Finished).
            { unfold step. rewrite Hat, Hc. apply leave_returns. }
            destruct (run_finished py_int urlopen fs (replicate k Tick) _ Hret)
              as [He _].
            by rewrite He in Hone'. }
          right. split; [done|]. split; [done|]. rewrite <- Hd. done.
      + destruct Hrest as [[-> Hd']|(Hne & _)]; [|done].
        right. split; [by rewrite Hpc|]. rewrite length_app. simpl.
        split; [lia|]. rewrite Hd'.
        pose proof (step_downloaded py_int urlopen fs t) as Hmono.
        destruct Hmono as [[Hsame _]|(_ & chunk & _ & _ & Hgrow & _)]; lia. }
  destruct (Hgen n t Hc) as [Hfin Hrest].
  { unfold closer. destruct (t_pc t); simpl; lia. }
  split; [done|].
  destruct Hrest as [[-> ->]|(_ & -> & Hd)]; simpl.
  - pose proof chunk_size_positive. split; lia.
  - split; [lia | done].
Qed.

End TransferLatency.

Lemma cancel_takes_effect_witness :
  t_pc (fst (run int_of_str (fixed_source resource) tmp_of (replicate 4 Tick)
               cancelled_in_flight)) = Finished
  /\ (length (progress_counts
                (snd (run int_of_str (fixed_source resource) tmp_of (replicate 4 Tick)
                        cancelled_in_flight))) <= 1)%nat
  /\ (downloaded cancelled_in_flight
      <= downloaded (fst (run int_of_str (fixed_source resource) tmp_of
                            (replicate 4 Tick) cancelled_in_flight))
      <= downloaded cancelled_in_flight + chunk_size)%Z.
Proof.
  apply (cancel_takes_effect int_of_str (fixed_source resource) tmp_of
           cancelled_in_flight 4).
  - vm_compute. reflexivity.
  - lia.
Defined.

(** ** [stat_path] *)

Section StatPathProperties.
Variable py_int : string -> option Z.
Variable type_error : value -> string.
Variable value_error : string -> string.
Variable abspath : string -> string.
Variable os : string -> os_answers.

Local Abbreviation stat_path' := (stat_path py_int type_error value_error abspath os).
Local Abbreviation check_space' := (check_space py_int type_error value_error os).
Local Abbreviation int_of_value' := (int_of_value py_int type_error value_error).





(** X18.  [required_bytes] is looked at only for a directory that exists
    and passed the write test.  For a path that does not exist, is not a
    directory or is not writable, the response and the effects are the
    same whatever [required_bytes] is; in particular no free space is
    checked for a directory that is about to be created. *)
Theorem required_bytes_ignored (req req' : list (string * value)) :
  dict_get "path" req' = dict_get "path" req ->
  truthy (dict_get "auto_create" req') = truthy (dict_get "auto_create" req) ->
  (forall p, dict_get "path" req = PyStr p ->
             os_exists (os (abspath p)) = false
             \/ os_isdir (os (abspath p)) = false
             \/ os_write_test (os (abspath p)) <> None) ->
  stat_path' req' = stat_path' req.
Proof.
  intros Hpath Hauto Hcase. unfold stat_path. rewrite Hpath, Hauto.
  destruct (dict_get "path" req) as [|b|n|p|l|d]; try done.
  destruct (negb (truthy (PyStr p))); [done|].
  destruct (Hcase p eq_refl) as [Hex|[Hdir|Hw]].
  - by rewrite Hex.
  - rewrite Hdir. by destruct (os_exists _).
  - destruct (os_exists _); [|done]. destruct (os_isdir _); [|done].
    by destruct (os_write_test _).
Qed.

(** X19.  [stat_path] creates a directory in one situation only: the
    path is a string that is not empty, it does not exist, its parent
    exists and is writable, and [auto_create] is set; the directory it
    creates is the absolute path.  It writes its test file only into a
    directory that exists, and never does both. *)
Theorem stat_path_effects (req : list (string * value)) :
  snd (stat_path' req) = []
  \/ (exists p,
        dict_get "path" req = PyStr p /\ p <> EmptyString
        /\ ((snd (stat_path' req) = [MakeDirs (abspath p)]
             /\ os_exists (os (abspath p)) = false
             /\ os_parent_writable (os (abspath p)) = true
             /\ truthy (dict_get "auto_create" req) = true)
            \/ (snd (stat_path' req) = [WriteTestFile (abspath p)]
                /\ os_exists (os (abspath p)) = true
                /\ os_isdir (os (abspath p)) = true))).
Proof.
  unfold stat_path.
  destruct (dict_get "path" req) as [|b|n|p|l|d] eqn:Hpath; simpl;
    try (by left);
    try (by destruct b; left);
    try (by destruct (n =? 0)%Z; left);
    try (by destruct l; left);
    try (by destruct d; left).
  destruct (String.eqb_spec p EmptyString) as [->|Hne]; simpl; [by left|].
  destruct (os_exists (os (abspath p))) eqn:Hex.
  - destruct (os_isdir (os (abspath p))) eqn:Hdir; simpl; [|by left].
    right. exists p. split; [done|]. split; [done|]. right.
    by destruct (os_write_test _).
  - destruct (os_parent_writable (os (abspath p))) eqn:Hpar; [|by left].
    destruct (truthy (dict_get "auto_create" req)) eqn:Hauto; [|by left].
    right. exists p. split; [done|]. split; [done|]. left.
    by destruct (os_makedirs _).
Qed.

End StatPathProperties.

Lemma required_bytes_ignored_witness :
  stat_path int_of_str no_msg no_msg_s same_path test_os stat_new_space
  = stat_path int_of_str no_msg no_msg_s same_path test_os stat_new.
Proof.
  apply (required_bytes_ignored int_of_str no_msg no_msg_s same_path test_os
           stat_new stat_new_space).
  - reflexivity.
  - reflexivity.
  - intros p [= <-]. left. reflexivity.
Defined.

(** The three requests of [tests/test_stat_path.py] on [test_os], and a
    fourth.  The directory that exists is accepted, and refused when more
    space is demanded than is free.  The request of [test_auto_create]
    names [subdir/inner] under the temporary directory: its parent
    [subdir] does not exist, and the code answers [parent_not_writable]
    without creating anything (the test expects [ok]).  A directory right
    under the temporary directory is created. *)
Example stat_path_tests :
  stat_path int_of_str no_msg no_msg_s same_path test_os [("path", PyStr "/tmp/td")]
  = (sp_ok "/tmp/td", [WriteTestFile "/tmp/td"])
  /\ stat_path int_of_str no_msg no_msg_s same_path test_os
       [("path", PyStr "/tmp/td/subdir/inner"); ("auto_create", PyBool true)]
     = (PyDict [("ok", PyBool false); ("error", PyStr "parent_not_writable")], [])
  /\ fst (stat_path int_of_str no_msg no_msg_s same_path test_os
            [("path", PyStr "/tmp/td"); ("required_bytes", PyInt (2 ^ 60))])
     = PyDict [("ok", PyBool false); ("error", PyStr "insufficient_space");
               ("free_bytes", PyInt 1000)]
  /\ stat_path int_of_str no_msg no_msg_s same_path test_os
       [("path", PyStr "/tmp/td/inner"); ("auto_create", PyBool true)]
     = (PyDict [("ok", PyBool true); ("path", PyStr "/tmp/td/inner");
                ("created", PyBool true)], [MakeDirs "/tmp/td/inner"]).
Proof. vm_compute. repeat split; reflexivity. Qed.

(** ** Request headers *)

Lemma dict_find_set (k k' : string) (v : value) (kv : list (string * value)) :
  dict_find k' (Json.dict_set k v kv)
  = if String.eqb k' k then Some v else dict_find k' kv.
Proof.
  induction kv as [|[k0 v0] kv IH]; simpl.
  - by destruct (String.eqb k' k).
  - destruct (String.eqb_spec k k0) as [->|Hne]; simpl.
    + by destruct (String.eqb k' k0).
    + rewrite IH. destruct (String.eqb_spec k' k0) as [->|Hne']; [|done].
      destruct (String.eqb_spec k0 k); [congruence | done].
Qed.

Section RequestProperties.
Variable capitalize : string -> string.
Variable url_ok : value -> bool.

Local Abbreviation add_header' := (add_header capitalize).
Local Abbreviation add_headers' := (add_headers capitalize).
Local Abbreviation preroll_headers' := (preroll_headers capitalize url_ok).
Local Abbreviation download_headers' := (download_headers capitalize url_ok).

(** X20.  When a download is resumed ([downloaded] is not zero) and the
    request can be built, its Range header is [bytes=<downloaded>-]: line
    98 adds it after the headers of the command, so a Range header that the
    command brings along, in whatever letter case, is replaced. *)
Theorem resume_range_wins (req : list (string * value)) (downloaded : Z)
  (headers : list (string * value)) :
  downloaded <> 0%Z ->
  download_headers' req downloaded = Return headers ->
  dict_find (capitalize "Range") headers
  = Some (PyStr ("bytes=" +:+ Json.str_of_int downloaded +:+ "-")).
Proof.
  intros Hd. unfold download_headers.
  destruct (_ && _); [done|]. destruct (negb (url_ok _)); [done|].
  destruct (if truthy _ then _ else _) as [h1|e]; [|done].
  destruct (py_iter _) as [hs|e]; [|done].
  destruct (add_headers' hs h1) as [h2|e]; [|done].
  destruct (Z.eqb_spec downloaded 0); [done|]. simpl.
  intros [= <-]. by rewrite dict_find_set, String.eqb_refl.
Qed.

(** X21.  The entries of ['headers'] that are not dictionaries, or that
    lack a ['name'] or a ['value'], are passed over without an error: the
    headers of the request are those that the well-formed entries alone
    would give. *)
Theorem malformed_headers_skipped (hs : list value)
  (headers : list (string * value)) :
  add_headers' hs headers
  = add_headers' (filter (fun h => well_formed_header h = true) hs) headers.
Proof.
  revert headers. induction hs as [|h hs IH]; intros headers; [done|].
  rewrite filter_cons.
  destruct (decide (well_formed_header h = true)) as [Hw|Hw].
  - destruct h as [| | | | |kv]; try done. cbn [add_headers].
    destruct (dict_find "name" kv) as [name|]; [|done].
    destruct (dict_find "value" kv) as [val|]; [|done].
    destruct (add_header' name val headers); [apply IH | done].
  - destruct h as [| | | | |kv]; cbn [add_headers]; try apply IH.
    unfold well_formed_header in Hw.
    destruct (dict_find "name" kv) as [name|]; [|apply IH].
    destruct (dict_find "value" kv) as [val|]; [|apply IH].
    by destruct Hw.
Qed.

Lemma add_headers_app (l1 l2 : list value) (headers : list (string * value)) :
  add_headers' (l1 ++ l2) headers
  = match add_headers' l1 headers with
    | Return h => add_headers' l2 h
    | Raise e => Raise e
    end.
Proof.
  revert headers. induction l1 as [|h l1 IH]; intros headers; [done|]. simpl.
  destruct h as [| | | | |kv]; try apply IH.
  destruct (dict_find "name" kv) as [name|]; [|apply IH].
  destruct (dict_find "value" kv) as [val|]; [|apply IH].
  destruct (add_header' name val headers); [apply IH | done].
Qed.

(** Entries none of which is named [K] leave the header [K] as it was. *)
Lemma add_headers_other (K : string) (hs : list value)
  (headers headers' : list (string * value)) :
  (forall kv n, PyDict kv ∈ hs -> dict_find "name" kv = Some (PyStr n) ->
                capitalize n <> K) ->
  add_headers' hs headers = Return headers' ->
  dict_find K headers' = dict_find K headers.
Proof.
  revert headers. induction hs as [|h hs IH]; intros headers Hother; simpl.
  - by intros [= <-].
  - assert (Hrest : forall kv n, PyDict kv ∈ hs ->
                      dict_find "name" kv = Some (PyStr n) -> capitalize n <> K).
    { intros kv n Hin. apply Hother. by apply list_elem_of_further. }
    destruct h as [| | | | |kv]; try by apply IH.
    destruct (dict_find "name" kv) as [name|] eqn:Hname; [|by apply IH].
    destruct (dict_find "value" kv) as [val|]; [|by apply IH].
    destruct name as [| | |n| |]; try done. simpl.
    intros Hrun. rewrite (IH _ Hrest Hrun), dict_find_set.
    destruct (String.eqb_spec K (capitalize n)) as [->|]; [|done].
    by destruct (Hother kv n (list_elem_of_here _ _) Hname).
Qed.

(** X22.  In [perform_preroll] the headers of the command are added
    after the Range header, so the last entry of ['headers'] whose name is
    Range in whatever letter case decides the Range header of the request;
    the ['range'] field (or its default [bytes=0-1]) is then not sent. *)
Theorem preroll_range_overridden (req : list (string * value))
  (before after : list value) (kv : list (string * value)) (n : string)
  (v : value) (headers : list (string * value)) :
  dict_find "headers" req = Some (PyList (before ++ PyDict kv :: after)) ->
  dict_find "name" kv = Some (PyStr n) ->
  dict_find "value" kv = Some v ->
  capitalize n = capitalize "Range" ->
  (forall kv' n', PyDict kv' ∈ after -> dict_find "name" kv' = Some (PyStr n') ->
                  capitalize n' <> capitalize "Range") ->
  preroll_headers' req = Return headers ->
  dict_find (capitalize "Range") headers = Some v.
Proof.
  intros Hhs Hname Hval Hcap Hafter. unfold preroll_headers.
  destruct (negb (url_ok (dict_get "url" req))); [done|]. cbn [add_header].
  destruct (if truthy (dict_get "referrer" req) then _ else _) as [h2|e]; [|done].
  rewrite Hhs. simpl. rewrite add_headers_app.
  destruct (add_headers' before h2) as [h3|e]; [|done].
  simpl. rewrite Hname, Hval. simpl.
  intros Hrun. rewrite (add_headers_other _ _ _ _ Hafter Hrun), dict_find_set.
  by rewrite Hcap, String.eqb_refl.
Qed.

(** X23.  ['headers'] that is not a list is iterated all the same: a
    string gives its characters and a dictionary its keys, none of which
    is an entry, so nothing is added and nothing fails; [None], a number or
    a boolean cannot be iterated, and building the request raises
    [TypeError] (which [perform_preroll] turns into an error response). *)
Theorem headers_not_a_list (req : list (string * value)) :
  url_ok (dict_get "url" req) = true ->
  match dict_find "headers" req with
  | Some (PyStr _) | Some (PyDict _) =>
      exists h2,
        preroll_headers' req = Return h2
        /\ h2 = (if truthy (dict_get "referrer" req)
                 then Json.dict_set (capitalize "Referer") (dict_get "referrer" req)
                        [(capitalize "Range",
                          default (PyStr "bytes=0-1") (dict_find "range" req))]
                 else [(capitalize "Range",
                        default (PyStr "bytes=0-1") (dict_find "range" req))])
  | Some PyNone | Some (PyBool _) | Some (PyInt _) =>
      preroll_headers' req = Raise TypeError
  | _ => True
  end.
Proof.
  intros Hurl. unfold preroll_headers. rewrite Hurl. simpl.
  assert (Hskip : forall (l : list value) h,
             (forall x, x ∈ l -> exists s, x = PyStr s) ->
             add_headers' l h = Return h).
  { induction l as [|x l IH]; intros h Hl; [done|].
    destruct (Hl x (list_elem_of_here _ _)) as [s ->]. simpl.
    apply IH. intros y Hy. apply Hl. by apply list_elem_of_further. }
  destruct (dict_find "headers" req) as [[|b|n|s|l|d]|]; try done;
    try (by destruct (truthy (dict_get "referrer" req))).
  - simpl. destruct (truthy (dict_get "referrer" req)); simpl;
      rewrite Hskip; eauto;
      intros x Hx; apply list_elem_of_fmap in Hx as (c & -> & _); eauto.
  - simpl. destruct (truthy (dict_get "referrer" req)); simpl;
      rewrite Hskip; eauto;
      intros x Hx; apply list_elem_of_fmap in Hx as (c & -> & _); eauto.
Qed.

End RequestProperties.

Lemma resume_range_wins_witness :
  exists headers,
    download_headers ascii_capitalize any_url ranged_request 8192 = Return headers
    /\ dict_find "Range" headers = Some (PyStr "bytes=8192-").
Proof.
  eexists. split; [reflexivity|].
  apply (resume_range_wins ascii_capitalize any_url ranged_request 8192);
    [lia | reflexivity].
Defined.

Lemma preroll_range_overridden_witness :
  exists headers,
    preroll_headers ascii_capitalize any_url ranged_request = Return headers
    /\ dict_find "Range" headers = Some (PyStr "bytes=5-9").
Proof.
  eexists. split; [reflexivity|].
  apply (preroll_range_overridden ascii_capitalize any_url ranged_request []
           [PyStr "junk"; PyDict [("name", PyStr "X-Only-Name")]]
           [("name", PyStr "range"); ("value", PyStr "bytes=5-9")] "range");
    try reflexivity.
  intros kv' n' Hin Hname.
  apply elem_of_cons in Hin as [Hin|Hin]; [done|].
  apply elem_of_cons in Hin as [Hin|Hin].
  - injection Hin as ->. injection Hname as <-. vm_compute. discriminate.
  - by apply elem_of_nil in Hin.
Defined.

Lemma headers_not_a_list_witness :
  preroll_headers ascii_capitalize any_url string_headers_request
  = Return [("Range", PyStr "bytes=0-1"); ("Referer", PyStr "http://host/")].
Proof.
  destruct (headers_not_a_list ascii_capitalize any_url string_headers_request
              eq_refl) as (h2 & -> & ->).
  reflexivity.
Defined.

(** ** The packaging script *)

Lemma rfind_dot_drop (s : string) (i : nat) :
  rfind_dot s = Some i -> exists t, string_drop i s = String "." t.
Proof.
  revert i. induction s as [|c s IH]; intros i; simpl; [done|].
  destruct (rfind_dot s) as [j|].
  - intros [= <-]. simpl. by apply IH.
  - destruct (Ascii.eqb_spec c "."%char) as [->|]; [|done].
    intros [= <-]. by eexists.
Qed.

Lemma path_suffix_shape (p : string) :
  path_suffix p = EmptyString \/ exists s, path_suffix p = String "." s.
Proof.
  unfold path_suffix. destruct (rfind_dot (path_name p)) as [i|] eqn:E; [|by left].
  destruct (_ && _); [|by left]. right. by apply rfind_dot_drop.
Qed.

Section BuildProperties.
Variable suffix : string -> string.
Hypothesis suffix_shape :
  forall p, suffix p = EmptyString \/ exists s, suffix p = String "." s.

Lemma licensed_suffix (p : string) :
  suffix p ∈ LICENSED <-> suffix p ∈ [".css"; ".html"; ".js"].
Proof using suffix_shape.
  unfold LICENSED. rewrite !elem_of_cons, !elem_of_nil.
  destruct (suffix_shape p) as [E|[s E]]; rewrite E; intuition discriminate.
Qed.

(** X24.  [check_licenses] passes exactly when every path outside
    [node_modules] whose suffix is [.css], [.html] or [.js] can be read and
    holds [License:].  No other file is looked at: the entry [*.ts] of
    [LICENSED] is no suffix, so TypeScript sources are never checked. *)
Theorem licence_check_passes (tree : list source_file) :
  check_licenses suffix tree = None
  <-> Forall (fun f =>
        contains "node_modules" (path f) = false ->
        suffix (path f) ∈ [".css"; ".html"; ".js"] ->
        exists buf, content f = Some buf /\ contains "License:" buf = true) tree.
Proof using suffix_shape.
  induction tree as [|f tree IH]; [by split|].
  rewrite Forall_cons, <- IH. cbn [check_licenses].
  destruct (contains "node_modules" (path f)) eqn:Hnm; [by intuition|].
  destruct (decide (suffix (path f) ∈ LICENSED)) as [Hin|Hout].
  - rewrite (bool_decide_eq_true_2 _ Hin). cbn [negb].
    apply licensed_suffix in Hin.
    destruct (content f) as [buf|].
    + destruct (contains "License:" buf) eqn:Hl; cbn [negb].
      * split; [by eauto|by intros [_ ?]].
      * split; [done|]. intros [Hf _].
        destruct (Hf eq_refl Hin) as (buf' & [= <-] & Hl'). congruence.
    + split; [done|]. intros [Hf _]. by destruct (Hf eq_refl Hin) as (? & ? & _).
  - rewrite (bool_decide_eq_false_2 _ Hout). cbn [negb].
    split; [|by intros [_ ?]].
    intros Hok. split; [|done]. intros _ Hin.
    by apply licensed_suffix in Hin.
Qed.

End BuildProperties.

Lemma licence_check_passes_witness :
  check_licenses path_suffix source_tree = None.
Proof.
  apply (licence_check_passes path_suffix path_suffix_shape source_tree).
  unfold source_tree. repeat apply Forall_cons_2; try apply Forall_nil_2;
    cbn [path content]; intros Hnm Hsuffix.
  - apply list_elem_of_In in Hsuffix. vm_compute in Hsuffix.
    intuition discriminate.
  - by eexists.
  - discriminate Hnm.
  - apply list_elem_of_In in Hsuffix. vm_compute in Hsuffix.
    intuition discriminate.
Defined.

Lemma without_keeps (S : list string) (ps l : list value) :
  without S ps = Return l ->
  l `sublist_of` ps
  /\ forall p, p ∈ l <-> p ∈ ps /\ forall s, s ∈ S -> p <> PyStr s.
Proof.
  revert l. induction ps as [|p ps IH]; intros l; simpl.
  - intros [= <-]. split; [done|]. intros p. rewrite elem_of_nil. tauto.
  - destruct (in_set p S) as [b|e] eqn:Hb; [|done].
    destruct (without S ps) as [l'|e]; [|done].
    destruct (IH l' eq_refl) as [Hsub Hin]. intros [= <-].
    assert (Hp : b = false <-> forall s, s ∈ S -> p <> PyStr s).
    { destruct p as [|c|n|s|x|kv]; simpl in Hb; try done;
        injection Hb as <-; try (split; [intros _ s _; discriminate|done]).
      rewrite bool_decide_eq_false. split.
      - intros Hs s' Hs' [= ->]. done.
      - intros Hs Hin'. by apply (Hs s Hin'). }
    destruct b.
    + split; [by apply sublist_cons|]. intros q.
      rewrite Hin, elem_of_cons. split; [tauto|].
      intros [[->|Hq] Hs]; [|done].
      by apply Hp in Hs.
    + split; [by apply sublist_skip|]. intros q.
      rewrite !elem_of_cons, Hin. split.
      * intros [->|[Hq Hs]]; [|by auto]. split; [by left|]. by apply Hp.
      * intros [[->|Hq] Hs]; [by left|by right].
Qed.

Lemma existsb_all_urls (l : list value) :
  existsb is_all_urls l = true <-> PyStr all_urls ∈ l.
Proof.
  induction l as [|p l IH]; simpl.
  - rewrite elem_of_nil. split; [done|tauto].
  - rewrite orb_true_iff, IH, elem_of_cons. split.
    + intros [Hp|Hl]; [left|by right].
      destruct p as [| | |s| |]; try done. simpl in Hp.
      apply String.eqb_eq in Hp. by subst.
    + intros [<-|Hl]; [by left|by right].
Qed.

Lemma is_all_urls_false (p : value) :
  is_all_urls p = false <-> p <> PyStr all_urls.
Proof.
  destruct p as [| | |s| |]; simpl; try (split; [discriminate|done]).
  rewrite String.eqb_neq. split; [congruence|]. intros H ->. by apply H.
Qed.

(** X25.  The permissions of the manifest are split three ways for
    Chromium and none is lost or invented: ['permissions'] keeps, in their
    order, exactly those that are neither [<all_urls>] nor one of [menus],
    [sessions] and [theme]; ['host_permissions'] is [<all_urls>] alone when
    the manifest asks for it, and is not set otherwise. *)
Theorem chromium_permissions_split (infos : list (string * value))
  (ps perms host : list value) :
  py_iter (default (PyList []) (dict_find "permissions" infos)) = Return ps ->
  chromium_permissions infos = Return (perms, host) ->
  perms `sublist_of` ps
  /\ (forall p, p ∈ perms <->
        p ∈ ps /\ p <> PyStr all_urls
        /\ forall s, s ∈ PERM_IGNORED_CHROME -> p <> PyStr s)
  /\ (PyStr all_urls ∈ ps -> host = [PyStr all_urls])
  /\ (PyStr all_urls ∉ ps -> host = []).
Proof.
  intros Hps. unfold chromium_permissions. rewrite Hps.
  destruct (without PERM_IGNORED_CHROME ps) as [base|e] eqn:Hbase; [|done].
  destruct (without_keeps _ _ _ Hbase) as [Hsub Hin].
  assert (Hall : PyStr all_urls ∈ base <-> PyStr all_urls ∈ ps).
  { rewrite Hin. split; [tauto|]. intros H. split; [done|].
    intros s Hs [= <-]. vm_compute in Hs.
    apply list_elem_of_In in Hs. simpl in Hs. intuition discriminate. }
  destruct (existsb is_all_urls base) eqn:Hex.
  - intros [= <- <-]. apply existsb_all_urls in Hex.
    split; [by etrans; [apply sublist_filter|]|]. split; [|split].
    + intros p. rewrite list_elem_of_filter, Hin, is_all_urls_false. tauto.
    + done.
    + intros Hno. by apply Hall in Hex.
  - intros [= <- <-]. assert (Hno : PyStr all_urls ∉ base).
    { intros H. apply existsb_all_urls in H. congruence. }
    split; [done|]. split; [|split].
    + intros p. rewrite Hin. split; [|tauto].
      intros [Hp Hs]. split; [done|]. split; [|done].
      intros ->. apply Hno, Hin. done.
    + intros H. by apply Hall in H.
    + done.
Qed.

Lemma chromium_permissions_split_witness :
  chromium_permissions manifest
  = Return ([PyStr "downloads"; PyStr "webRequest"], [PyStr "<all_urls>"])
  /\ [PyStr "downloads"; PyStr "webRequest"]
     `sublist_of` [PyStr "<all_urls>"; PyStr "downloads"; PyStr "menus";
                   PyStr "webRequest"; PyStr "theme"].
Proof.
  split; [reflexivity|].
  apply (chromium_permissions_split manifest _ _ [PyStr "<all_urls>"]);
    reflexivity.
Defined.
